(** * Real-time multimodal input arbitration: gesture confirmation and
      voice-activity segmentation

    A shallow embedding of the stateful core of [vision_handler.py],
    [audio_handler.py] and the [chat] handler of [web_app.py], with the
    properties of the design document proved (or refuted) on it,
    followed by the other request handlers of [web_app.py] and the
    conversation history of [main.py] with further properties.

    Conventions of the embedding.
    - [self.*] attributes are fields of a record that every method takes
      and returns; text written with [print] and the calls made to
      external collaborators are appended to log fields of that record.
    - A reading of [time.time()] is an integer number of milliseconds
      ([Z]); the source only subtracts and compares such readings.
    - What an external collaborator answers (the gesture classifier, the
      audio stream, the speech recogniser) is part of the input. *)

From Stdlib Require Import ZArith List String Bool Lia QArith.
From stdpp Require Import base gmap strings list.
Import ListNotations.
Open Scope string_scope.
Open Scope Z_scope.

(** ** Lists without repeated neighbours *)

(** No two neighbouring elements are equal. *)
Fixpoint no_adjacent_dup {A : Type} (l : list A) : Prop :=
  match l with
  | [] => True
  | x :: l' =>
      match l' with
      | [] => True
      | y :: _ => x <> y /\ no_adjacent_dup l'
      end
  end.

(** * The gesture confirmation engine ([vision_handler.py]) *)
Module Vision.

(** One entry of the list returned by
    [MediaPipeGestureRecognizer.detect_hand_gestures]: a dict with the
    keys ['type'] and ['hand'] (the float-valued keys and the landmarks
    are never read by the engine), to which [_frame_analysis_callback]
    adds ['detected_at']. *)
Record Gesture := {
  type : string;
  hand : string;
  detected_at : option Z
}.

(** A camera frame, as far as the engine looks at it: its [shape], and
    what [detect_hand_gestures] returns for it (the classifier applies
    its own rate limit and returns [[]] between two analyses). *)
Record Frame := {
  shape : nat * nat * nat;
  detected : list Gesture
}.

(** An element of [analysis_results]. *)
Record AnalysisResult := {
  timestamp : Z;
  gestures : list Gesture;
  frame_shape : nat * nat * nat
}.

(** The fields of [VisionConfig] read by [VisionHandler]. *)
Record VisionConfig := {
  real_time_analysis : bool;
  gesture_recognition : bool;
  gesture_confirmation_time : Z;
  gesture_inactivity_timeout : Z
}.

(** [config.py]: 1.5 s confirmation window, 7 s of inactivity. *)
Definition default_config : VisionConfig := {|
  real_time_analysis := true;
  gesture_recognition := true;
  gesture_confirmation_time := 1500;
  gesture_inactivity_timeout := 7000
|}.

(** [CameraHandler]: whether [camera] is not [None], and [is_recording]. *)
Record CameraHandler := {
  camera : bool;
  is_recording : bool
}.

(** The callable stored in [gesture_callback]: [web_app.py] installs
    [on_gesture_confirmed_callback], which appends the text to the
    global [gesture_text_queue]. *)
Inductive Callback := on_gesture_confirmed_callback.

(** Lines written to standard output. *)
Inductive Line :=
| GestureConfirmed (gesture text : string)
| GestureQueued (text : string)
| GestureSeen (g : Gesture)
| InactivityTimeout
| AnalysisStarted
| AnalysisDisabled
| CameraUnavailable
| RecognizerUnavailable
| CaptureFailed
| CaptureStopped
| AnalysisPaused
| AnalysisResumed
| AnalysisNotStarted
| AnalysisStopped
| ChatPausesGestures
| ChatResumesGestures
| StopFailed.

(** [VisionHandler], together with the two things its methods act on
    outside of [self]: the queue of [web_app.py] and standard output. *)
Record VisionHandler := {
  camera_handler : CameraHandler;
  recognizer : bool;
  is_vision_active : bool;
  is_paused : bool;
  analysis_results : list AnalysisResult;
  current_gestures : list Gesture;
  gesture_buffer : list Gesture;
  last_gesture_time : Z;
  last_confirmed_gesture : option string;
  gesture_callback : option Callback;
  gesture_text_queue : list string;
  stdout : list Line
}.

Definition set_camera_handler v s := {|
  camera_handler := v; recognizer := recognizer s;
  is_vision_active := is_vision_active s; is_paused := is_paused s;
  analysis_results := analysis_results s;
  current_gestures := current_gestures s;
  gesture_buffer := gesture_buffer s;
  last_gesture_time := last_gesture_time s;
  last_confirmed_gesture := last_confirmed_gesture s;
  gesture_callback := gesture_callback s;
  gesture_text_queue := gesture_text_queue s; stdout := stdout s |}.

Definition set_is_vision_active v s := {|
  camera_handler := camera_handler s; recognizer := recognizer s;
  is_vision_active := v; is_paused := is_paused s;
  analysis_results := analysis_results s;
  current_gestures := current_gestures s;
  gesture_buffer := gesture_buffer s;
  last_gesture_time := last_gesture_time s;
  last_confirmed_gesture := last_confirmed_gesture s;
  gesture_callback := gesture_callback s;
  gesture_text_queue := gesture_text_queue s; stdout := stdout s |}.

Definition set_is_paused v s := {|
  camera_handler := camera_handler s; recognizer := recognizer s;
  is_vision_active := is_vision_active s; is_paused := v;
  analysis_results := analysis_results s;
  current_gestures := current_gestures s;
  gesture_buffer := gesture_buffer s;
  last_gesture_time := last_gesture_time s;
  last_confirmed_gesture := last_confirmed_gesture s;
  gesture_callback := gesture_callback s;
  gesture_text_queue := gesture_text_queue s; stdout := stdout s |}.

Definition set_analysis_results v s := {|
  camera_handler := camera_handler s; recognizer := recognizer s;
  is_vision_active := is_vision_active s; is_paused := is_paused s;
  analysis_results := v;
  current_gestures := current_gestures s;
  gesture_buffer := gesture_buffer s;
  last_gesture_time := last_gesture_time s;
  last_confirmed_gesture := last_confirmed_gesture s;
  gesture_callback := gesture_callback s;
  gesture_text_queue := gesture_text_queue s; stdout := stdout s |}.

Definition set_current_gestures v s := {|
  camera_handler := camera_handler s; recognizer := recognizer s;
  is_vision_active := is_vision_active s; is_paused := is_paused s;
  analysis_results := analysis_results s;
  current_gestures := v;
  gesture_buffer := gesture_buffer s;
  last_gesture_time := last_gesture_time s;
  last_confirmed_gesture := last_confirmed_gesture s;
  gesture_callback := gesture_callback s;
  gesture_text_queue := gesture_text_queue s; stdout := stdout s |}.

Definition set_gesture_buffer v s := {|
  camera_handler := camera_handler s; recognizer := recognizer s;
  is_vision_active := is_vision_active s; is_paused := is_paused s;
  analysis_results := analysis_results s;
  current_gestures := current_gestures s;
  gesture_buffer := v;
  last_gesture_time := last_gesture_time s;
  last_confirmed_gesture := last_confirmed_gesture s;
  gesture_callback := gesture_callback s;
  gesture_text_queue := gesture_text_queue s; stdout := stdout s |}.

Definition set_last_gesture_time v s := {|
  camera_handler := camera_handler s; recognizer := recognizer s;
  is_vision_active := is_vision_active s; is_paused := is_paused s;
  analysis_results := analysis_results s;
  current_gestures := current_gestures s;
  gesture_buffer := gesture_buffer s;
  last_gesture_time := v;
  last_confirmed_gesture := last_confirmed_gesture s;
  gesture_callback := gesture_callback s;
  gesture_text_queue := gesture_text_queue s; stdout := stdout s |}.

Definition set_last_confirmed_gesture v s := {|
  camera_handler := camera_handler s; recognizer := recognizer s;
  is_vision_active := is_vision_active s; is_paused := is_paused s;
  analysis_results := analysis_results s;
  current_gestures := current_gestures s;
  gesture_buffer := gesture_buffer s;
  last_gesture_time := last_gesture_time s;
  last_confirmed_gesture := v;
  gesture_callback := gesture_callback s;
  gesture_text_queue := gesture_text_queue s; stdout := stdout s |}.

Definition set_gesture_callback v s := {|
  camera_handler := camera_handler s; recognizer := recognizer s;
  is_vision_active := is_vision_active s; is_paused := is_paused s;
  analysis_results := analysis_results s;
  current_gestures := current_gestures s;
  gesture_buffer := gesture_buffer s;
  last_gesture_time := last_gesture_time s;
  last_confirmed_gesture := last_confirmed_gesture s;
  gesture_callback := v;
  gesture_text_queue := gesture_text_queue s; stdout := stdout s |}.

Definition set_gesture_text_queue v s := {|
  camera_handler := camera_handler s; recognizer := recognizer s;
  is_vision_active := is_vision_active s; is_paused := is_paused s;
  analysis_results := analysis_results s;
  current_gestures := current_gestures s;
  gesture_buffer := gesture_buffer s;
  last_gesture_time := last_gesture_time s;
  last_confirmed_gesture := last_confirmed_gesture s;
  gesture_callback := gesture_callback s;
  gesture_text_queue := v; stdout := stdout s |}.

(** [print(...)] *)
Definition print (ln : Line) s := {|
  camera_handler := camera_handler s; recognizer := recognizer s;
  is_vision_active := is_vision_active s; is_paused := is_paused s;
  analysis_results := analysis_results s;
  current_gestures := current_gestures s;
  gesture_buffer := gesture_buffer s;
  last_gesture_time := last_gesture_time s;
  last_confirmed_gesture := last_confirmed_gesture s;
  gesture_callback := gesture_callback s;
  gesture_text_queue := gesture_text_queue s; stdout := stdout s ++ [ln] |}.

(** [VisionHandler.__init__]: [camera_opens] and [model_loads] say
    whether the camera and the classifier could be set up;
    [last_gesture_time] is the clock reading [now]. *)
Definition init (camera_opens model_loads : bool) (now : Z) : VisionHandler := {|
  camera_handler := {| camera := camera_opens; is_recording := false |};
  recognizer := model_loads;
  is_vision_active := false;
  is_paused := false;
  analysis_results := [];
  current_gestures := [];
  gesture_buffer := [];
  last_gesture_time := now;
  last_confirmed_gesture := None;
  gesture_callback := None;
  gesture_text_queue := [];
  stdout := []
|}.

(** *** The confirmation rule *)

(** [gesture_counts]: a Python dict keeps its keys in insertion order,
    and [max] below walks them in that order, so the dict is an
    association list.  [dict_incr k d] is
    [if k not in d: d[k] = 0] followed by [d[k] += 1]. *)
Fixpoint dict_incr (k : string) (d : list (string * nat)) : list (string * nat) :=
  match d with
  | [] => [(k, 1%nat)]
  | (k', n) :: d' =>
      if String.eqb k' k then (k', S n) :: d' else (k', n) :: dict_incr k d'
  end.

Definition gesture_counts (buffer : list Gesture) : list (string * nat) :=
  fold_left (fun d g => dict_incr (type g) d) buffer [].

(** [max(d, key=d.get)] over the remaining keys, [best] being the
    maximum so far: a later key replaces it only with a strictly larger
    count, so the first key with the largest count wins. *)
Fixpoint max_from (best : string * nat) (d : list (string * nat)) : string * nat :=
  match d with
  | [] => best
  | (k, n) :: d' => max_from (if (snd best <? n)%nat then (k, n) else best) d'
  end.

(** [(most_common_gesture, count)], or [None] for an empty dict. *)
Definition most_common (d : list (string * nat)) : option (string * nat) :=
  match d with
  | [] => None
  | kv :: d' => Some (max_from kv d')
  end.

(** [gesture_text_map], the static table of [_check_gesture_confirmation]. *)
Definition gesture_text_map : gmap string string :=
  <["open_palm" := "Привет"]>
    (<["victory" := "Победа"]>
       (<["thumb_up" := "Супер"]>
          (<["pointing_up" := "Внимание"]> ∅))).

(** Calling the stored callback with the confirmed text. *)
Definition call_callback (cb : Callback) (text : string) (s : VisionHandler) : VisionHandler :=
  match cb with
  | on_gesture_confirmed_callback =>
      print (GestureQueued text)
        (set_gesture_text_queue (gesture_text_queue s ++ [text]) s)
  end.

(** [most_common_gesture != self.last_confirmed_gesture] *)
Definition differs_from (label : string) (last : option string) : bool :=
  match last with
  | None => true
  | Some l => negb (String.eqb label l)
  end.

Definition _check_gesture_confirmation (s : VisionHandler) : VisionHandler :=
  match gesture_buffer s with
  | [] => s
  | _ :: _ =>
      match most_common (gesture_counts (gesture_buffer s)) with
      | None => s
      | Some (most_common_gesture, count) =>
          if (3 <=? count)%nat
             && differs_from most_common_gesture (last_confirmed_gesture s)
          then
            match gesture_text_map !! most_common_gesture with
            | Some confirmed_text =>
                let s := print (GestureConfirmed most_common_gesture confirmed_text) s in
                let s := set_last_confirmed_gesture (Some most_common_gesture) s in
                let s := match gesture_callback s with
                         | Some cb => call_callback cb confirmed_text s
                         | None => s
                         end in
                set_gesture_buffer [] s
            | None => s
            end
          else s
      end
  end.

(** *** Camera and life cycle *)

(** [CameraHandler.start_capture]; [camera_opens] is whether
    [_initialize_camera] succeeds when the camera has to be reopened. *)
Definition start_capture (camera_opens : bool) (s : VisionHandler) : bool * VisionHandler :=
  let ch := camera_handler s in
  if negb (camera ch) && negb camera_opens then (false, print CameraUnavailable s)
  else if is_recording ch then
    (true, set_camera_handler {| camera := true; is_recording := is_recording ch |} s)
  else (true, set_camera_handler {| camera := true; is_recording := true |} s).

(** The thread a method is called on: that of a request handler of
    [web_app.py], or the capture thread, on which
    [_frame_analysis_callback] runs. *)
Inductive Caller := request_layer | capture_thread.

(** [CameraHandler.stop_capture]; the flag tells whether it returned.
    On the capture thread [capture_thread.join] raises [RuntimeError],
    a thread cannot join itself: [is_recording] is cleared by then, but
    the camera is not released and nothing is printed. *)
Definition stop_capture (caller : Caller) (s : VisionHandler) : bool * VisionHandler :=
  match caller with
  | request_layer =>
      (true, print CaptureStopped
               (set_camera_handler {| camera := false; is_recording := false |} s))
  | capture_thread =>
      (false, set_camera_handler
                {| camera := camera (camera_handler s); is_recording := false |} s)
  end.

Section Engine.

Context (config : VisionConfig).

(** [start_real_time_analysis(gesture_callback)] at clock reading [now]. *)
Definition start_real_time_analysis (camera_opens : bool) (now : Z)
    (callback : option Callback) (s : VisionHandler) : bool * VisionHandler :=
  if negb (real_time_analysis config) then (false, print AnalysisDisabled s)
  else if negb (camera (camera_handler s)) then (false, print CameraUnavailable s)
  else
    let s := if recognizer s then s else print RecognizerUnavailable s in
    let s := match callback with
             | Some cb => set_gesture_callback (Some cb) s
             | None => s
             end in
    let s := set_gesture_buffer [] s in
    let s := set_last_gesture_time now s in
    let s := set_last_confirmed_gesture None s in
    let s := set_is_vision_active true s in
    let '(success, s) := start_capture camera_opens s in
    (success, print (if success then AnalysisStarted else CaptureFailed) s).

Definition pause_analysis (s : VisionHandler) : VisionHandler :=
  print AnalysisPaused (set_is_paused true s).

(** [resume_analysis()] at clock reading [now]. *)
Definition resume_analysis (now : Z) (s : VisionHandler) : VisionHandler :=
  if is_vision_active s then
    let s := set_is_paused false s in
    let s := set_last_gesture_time now s in
    let s := set_gesture_buffer [] s in
    print AnalysisResumed s
  else print AnalysisNotStarted s.

(** [stop_real_time_analysis()]; what [stop_capture] raises is caught
    and reported. *)
Definition stop_real_time_analysis (caller : Caller) (s : VisionHandler) : VisionHandler :=
  let s := set_is_vision_active false s in
  let s := set_is_paused false s in
  let '(returned, s) := stop_capture caller s in
  print (if returned then AnalysisStopped else StopFailed) s.

(** [gesture['detected_at'] = current_time] *)
Definition stamp (current_time : Z) (g : Gesture) : Gesture :=
  {| type := type g; hand := hand g; detected_at := Some current_time |}.

(** The condition of the pruning comprehension; every dict in the
    buffer went through [stamp], so the key is always present. *)
Definition recent (current_time : Z) (g : Gesture) : bool :=
  match detected_at g with
  | Some t => current_time - t <=? gesture_confirmation_time config
  | None => false
  end.

(** One turn of the [for gesture in gestures] loop. *)
Definition buffer_gesture (current_time : Z) (s : VisionHandler) (g : Gesture) : VisionHandler :=
  let g := stamp current_time g in
  print (GestureSeen g) (set_gesture_buffer (gesture_buffer s ++ [g]) s).

(** [if len(self.analysis_results) > 20: self.analysis_results.pop(0)] *)
Definition limit_history (s : VisionHandler) : VisionHandler :=
  if (20 <? length (analysis_results s))%nat
  then set_analysis_results (tail (analysis_results s)) s
  else s.

(** [_frame_analysis_callback(frame)], where [current_time] is the
    reading of [time.time()] taken on entry.  The dicts of [gestures]
    are stamped in place, so [current_gestures] and the stored result
    see the stamped dicts. *)
Definition _frame_analysis_callback (current_time : Z) (frame : Frame)
    (s : VisionHandler) : VisionHandler :=
  if is_paused s then s
  else if gesture_inactivity_timeout config <? current_time - last_gesture_time s then
    stop_real_time_analysis capture_thread (print InactivityTimeout s)
  else
    let gestures :=
      if gesture_recognition config && recognizer s then detected frame else [] in
    let s := set_current_gestures (map (stamp current_time) gestures) s in
    match gestures with
    | [] => s
    | _ :: _ =>
        let s := set_last_gesture_time current_time s in
        let s := fold_left (buffer_gesture current_time) gestures s in
        let s := set_gesture_buffer
                   (List.filter (recent current_time) (gesture_buffer s)) s in
        let s := _check_gesture_confirmation s in
        let result := {| timestamp := current_time;
                         gestures := map (stamp current_time) gestures;
                         frame_shape := shape frame |} in
        let s := set_analysis_results (analysis_results s ++ [result]) s in
        limit_history s
    end.

(** [get_recent_analysis(count)]: the slice [analysis_results[-count:]].
    For [count = 0] the slice starts at index [-0 = 0] and is the whole
    list; for a negative [count] it starts at index [-count]. *)
Definition get_recent_analysis (count : Z) (s : VisionHandler) : list AnalysisResult :=
  let l := analysis_results s in
  if 0 <? count then drop (length l - Z.to_nat count) l
  else drop (Z.to_nat (- count)) l.

(** *** The request handler of [web_app.py] *)

(** The prologue of [chat]: it computes [gesture_was_active] and pauses
    the engine when it is set.  The flag is a local of the request. *)
Definition beginGeneration (s : VisionHandler) : bool * VisionHandler :=
  let gesture_was_active := is_vision_active s && negb (is_paused s) in
  if gesture_was_active
  then (gesture_was_active, pause_analysis (print ChatPausesGestures s))
  else (gesture_was_active, s).

(** The [finally] block of [generate], run at clock reading [now] with
    the flag captured by the request. *)
Definition endGeneration (gesture_was_active : bool) (now : Z)
    (s : VisionHandler) : VisionHandler :=
  if gesture_was_active
  then resume_analysis now (print ChatResumesGestures s)
  else s.

(** *** Runs of the engine *)

(** What can happen to the engine: the request layer starts it, the
    camera thread delivers a frame, or the request layer pauses, resumes
    or stops it. *)
Inductive Event :=
| EStart (camera_opens : bool) (now : Z) (callback : option Callback)
| EFrame (current_time : Z) (frame : Frame)
| EPause
| EResume (now : Z)
| EStop.

Definition step (s : VisionHandler) (e : Event) : VisionHandler :=
  match e with
  | EStart camera_opens now callback =>
      snd (start_real_time_analysis camera_opens now callback s)
  | EFrame current_time frame => _frame_analysis_callback current_time frame s
  | EPause => pause_analysis s
  | EResume now => resume_analysis now s
  | EStop => stop_real_time_analysis request_layer s
  end.

Definition run (events : list Event) (s : VisionHandler) : VisionHandler :=
  fold_left step events s.

(** The labels of the confirmations printed in [lines], oldest first. *)
Fixpoint confirmed_labels (lines : list Line) : list string :=
  match lines with
  | [] => []
  | GestureConfirmed g _ :: rest => g :: confirmed_labels rest
  | _ :: rest => confirmed_labels rest
  end.

Definition is_start (e : Event) : bool :=
  match e with
  | EStart _ _ _ => true
  | _ => false
  end.

(** The lines a run printed, given the state it started from. *)
Definition printed_since (s0 s : VisionHandler) : list Line :=
  drop (length (stdout s0)) (stdout s).

End Engine.

(** *** Vocabulary of the statements about the engine *)

(** [d.get(k)] with a default of 0. *)
Fixpoint dict_get (k : string) (d : list (string * nat)) : nat :=
  match d with
  | [] => 0
  | (k', n) :: d' => if String.eqb k' k then n else dict_get k d'
  end.

(** How many observations of the buffer carry the label. *)
Definition occurrences (label : string) (buffer : list Gesture) : nat :=
  length (List.filter (fun g => String.eqb (type g) label) buffer).

(** The keys of the dict, in insertion order. *)
Definition keys (d : list (string * nat)) : list string := map fst d.

(** A step of the engine either prints no confirmation and keeps
    [last_confirmed_gesture], or prints exactly one, for a label that
    differs from the previous [last_confirmed_gesture] and becomes the
    new one. *)
Definition step_outcome (s s' : VisionHandler) : Prop :=
  exists lines,
    stdout s' = (stdout s ++ lines)%list /\
    ((confirmed_labels lines = [] /\
      last_confirmed_gesture s' = last_confirmed_gesture s) \/
     (exists label, confirmed_labels lines = [label] /\
        last_confirmed_gesture s <> Some label /\
        last_confirmed_gesture s' = Some label)).

(** What is known about a session that printed [lines] so far. *)
Definition session_inv (lines : list Line) (s : VisionHandler) : Prop :=
  no_adjacent_dup (confirmed_labels lines) /\
  last_confirmed_gesture s = last (confirmed_labels lines).

(** An event of a run in which every hand seen shows [label] and the
    engine is not started anew. *)
Definition shows_only (label : string) (e : Event) : bool :=
  match e with
  | EStart _ _ _ => false
  | EFrame _ frame => forallb (fun g => String.eqb (type g) label) (detected frame)
  | _ => true
  end.

(** [label] is the last confirmed label and the only label in the
    buffer. *)
Definition held (label : string) (s : VisionHandler) : Prop :=
  last_confirmed_gesture s = Some label /\
  Forall (fun g => type g = label) (gesture_buffer s).

(** The debounce state of the engine. *)
Definition engine_state (s : VisionHandler) : bool * list Gesture * Z * option string :=
  (is_paused s, gesture_buffer s, last_gesture_time s, last_confirmed_gesture s).

(** The delivery of a frame at a clock reading, as an event. *)
Definition frame_event (tf : Z * Frame) : Event := EFrame (fst tf) (snd tf).

(** *** Scenario data *)

(** A frame in which the classifier sees one right hand showing [label]. *)
Definition seen (label : string) : Frame := {|
  shape := (480, 640, 3)%nat;
  detected := [ {| type := label; hand := "right"; detected_at := None |} ]
|}.

(** A frame without hands. *)
Definition empty_frame : Frame := {| shape := (480, 640, 3)%nat; detected := [] |}.

(** The handler of [web_app.py] after [set_gesture_callback] and a
    successful [start_real_time_analysis] at clock reading 1000. *)
Definition started : VisionHandler :=
  snd (start_real_time_analysis default_config true 1000 None
         (set_gesture_callback (Some on_gesture_confirmed_callback)
            (init true true 0))).

(** Three observations of [label] in the buffer of [started]. *)
Definition holding (label : string) : VisionHandler :=
  set_gesture_buffer
    (map (fun t => {| type := label; hand := "right"; detected_at := Some t |})
         [1100; 1200; 1300]) started.

(** [open_palm] shown in three frames, confirmed at the third. *)
Definition greeted : VisionHandler :=
  run default_config
    [EFrame 1100 (seen "open_palm"); EFrame 1200 (seen "open_palm");
     EFrame 1300 (seen "open_palm")] started.

(** Three consecutive frames, 100 ms apart, showing [label]. *)
Definition show (label : string) (t : Z) : list Event :=
  [EFrame t (seen label); EFrame (t + 100) (seen label);
   EFrame (t + 200) (seen label)].

(** A session on [started]: a greeting, the pause of a chat request, the
    same gesture still held after the resume, then two other gestures. *)
Definition demo_session : list Event :=
  (show "open_palm" 1100 ++ [EPause; EResume 3000] ++ show "open_palm" 3100
   ++ show "victory" 5000 ++ show "open_palm" 7000)%list.

End Vision.

(** * The voice activity segmenter ([audio_handler.py]) *)
Module Audio.

(** One block returned by [audio_stream.read]: its 16-bit samples, as
    [np.frombuffer(audio_data, dtype=np.int16)] sees them. *)
Definition Chunk := list Z.

(** [np.abs] on [int16]: the absolute value wraps at [-32768]. *)
Definition abs16 (x : Z) : Z := if x =? -32768 then -32768 else Z.abs x.

(** [np.abs(audio_array).mean()]: the arithmetic mean, and [nan]
    ([None]) for an empty array. *)
Definition volume (audio_array : Chunk) : option Q :=
  match audio_array with
  | [] => None
  | _ :: _ =>
      Some (fold_right Z.add 0 (map abs16 audio_array)
            # Pos.of_nat (length audio_array))
  end.

(** [volume > self.volume_threshold]; a comparison with [nan] is false. *)
Definition exceeds (v : option Q) (threshold : Z) : bool :=
  match v with
  | Some q => negb (Qle_bool q (inject_Z threshold))
  | None => false
  end.

(** The exceptions the session can meet: the two of the recogniser,
    those of the audio device, the [TypeError] and [AttributeError] of a
    [None] attribute, and any other. *)
Inductive Exception :=
| UnknownValueError
| RequestError
| OSError
| TypeError
| AttributeError
| OtherError.

(** What [recognize_google] does with the audio it is given. *)
Inductive Recognition :=
| Recognized (text : string)
| Fails (e : Exception).

(** One turn of the recording loop, as the outside world decides it:
    the clock reading, the block the stream delivers ([None] when
    [read] raises), and the recogniser's behaviour should it be called
    during this turn. *)
Record Tick := {
  now : Z;
  read : option Chunk;
  recognition : Recognition
}.

(** [_on_text_recognized]: the method of the class does nothing;
    [web_app.py] replaces it by [on_text_recognized_callback], which
    appends the text to the global [recognized_text_queue]. *)
Inductive TextCallback := default_on_text_recognized | on_text_recognized_callback.

(** Calls into PyAudio. *)
Inductive DeviceCall := CreatePyAudio | OpenStream | StopStream | CloseStream | Terminate.

(** Lines written to standard output. *)
Inductive Line :=
| RecordingStarted
| PauseDetected
| SpeechRecognized (text : string)
| TextQueued (text : string)
| SpeechNotRecognized
| ApiError
| ProcessingError (e : Exception)
| InactivityTimeout
| RecordingError (e : Exception)
| RecordingFinished
| RecordingStopped
| StopError (e : Exception)
| StartError (e : Exception).

(** [AudioHandler], with what its methods act on outside of [self]: the
    queue of [web_app.py], the audio handed to the recogniser, the calls
    into PyAudio and standard output. *)
Record AudioHandler := {
  stt_enabled : bool;
  recognizer : bool;
  is_listening : bool;
  audio_stream : bool;
  audio_frames : list Chunk;
  last_speech_time : option Z;
  pyaudio_instance : bool;
  _on_text_recognized : TextCallback;
  recognized_text_queue : list string;
  requests : list (list Chunk);
  device : list DeviceCall;
  stdout : list Line
}.

Definition set_is_listening v s := {|
  stt_enabled := stt_enabled s; recognizer := recognizer s;
  is_listening := v; audio_stream := audio_stream s;
  audio_frames := audio_frames s; last_speech_time := last_speech_time s;
  pyaudio_instance := pyaudio_instance s;
  _on_text_recognized := _on_text_recognized s;
  recognized_text_queue := recognized_text_queue s; requests := requests s;
  device := device s; stdout := stdout s |}.

Definition set_audio_stream v s := {|
  stt_enabled := stt_enabled s; recognizer := recognizer s;
  is_listening := is_listening s; audio_stream := v;
  audio_frames := audio_frames s; last_speech_time := last_speech_time s;
  pyaudio_instance := pyaudio_instance s;
  _on_text_recognized := _on_text_recognized s;
  recognized_text_queue := recognized_text_queue s; requests := requests s;
  device := device s; stdout := stdout s |}.

Definition set_audio_frames v s := {|
  stt_enabled := stt_enabled s; recognizer := recognizer s;
  is_listening := is_listening s; audio_stream := audio_stream s;
  audio_frames := v; last_speech_time := last_speech_time s;
  pyaudio_instance := pyaudio_instance s;
  _on_text_recognized := _on_text_recognized s;
  recognized_text_queue := recognized_text_queue s; requests := requests s;
  device := device s; stdout := stdout s |}.

Definition set_last_speech_time v s := {|
  stt_enabled := stt_enabled s; recognizer := recognizer s;
  is_listening := is_listening s; audio_stream := audio_stream s;
  audio_frames := audio_frames s; last_speech_time := v;
  pyaudio_instance := pyaudio_instance s;
  _on_text_recognized := _on_text_recognized s;
  recognized_text_queue := recognized_text_queue s; requests := requests s;
  device := device s; stdout := stdout s |}.

Definition set_pyaudio_instance v s := {|
  stt_enabled := stt_enabled s; recognizer := recognizer s;
  is_listening := is_listening s; audio_stream := audio_stream s;
  audio_frames := audio_frames s; last_speech_time := last_speech_time s;
  pyaudio_instance := v; _on_text_recognized := _on_text_recognized s;
  recognized_text_queue := recognized_text_queue s; requests := requests s;
  device := device s; stdout := stdout s |}.

Definition set_recognized_text_queue v s := {|
  stt_enabled := stt_enabled s; recognizer := recognizer s;
  is_listening := is_listening s; audio_stream := audio_stream s;
  audio_frames := audio_frames s; last_speech_time := last_speech_time s;
  pyaudio_instance := pyaudio_instance s;
  _on_text_recognized := _on_text_recognized s; recognized_text_queue := v;
  requests := requests s; device := device s; stdout := stdout s |}.

(** [print(...)] *)
Definition print (ln : Line) s := {|
  stt_enabled := stt_enabled s; recognizer := recognizer s;
  is_listening := is_listening s; audio_stream := audio_stream s;
  audio_frames := audio_frames s; last_speech_time := last_speech_time s;
  pyaudio_instance := pyaudio_instance s;
  _on_text_recognized := _on_text_recognized s;
  recognized_text_queue := recognized_text_queue s; requests := requests s;
  device := device s; stdout := (stdout s ++ [ln])%list |}.

(** A call of [recognize_google] on the assembled audio. *)
Definition log_request (audio : list Chunk) s := {|
  stt_enabled := stt_enabled s; recognizer := recognizer s;
  is_listening := is_listening s; audio_stream := audio_stream s;
  audio_frames := audio_frames s; last_speech_time := last_speech_time s;
  pyaudio_instance := pyaudio_instance s;
  _on_text_recognized := _on_text_recognized s;
  recognized_text_queue := recognized_text_queue s;
  requests := (requests s ++ [audio])%list; device := device s;
  stdout := stdout s |}.

(** A call into PyAudio. *)
Definition log_device (c : DeviceCall) s := {|
  stt_enabled := stt_enabled s; recognizer := recognizer s;
  is_listening := is_listening s; audio_stream := audio_stream s;
  audio_frames := audio_frames s; last_speech_time := last_speech_time s;
  pyaudio_instance := pyaudio_instance s;
  _on_text_recognized := _on_text_recognized s;
  recognized_text_queue := recognized_text_queue s; requests := requests s;
  device := (device s ++ [c])%list; stdout := stdout s |}.

(** [AudioHandler.__init__], followed by the assignment of the callback
    made by [web_app.py]. *)
Definition init (stt recognizer_ready : bool) (callback : TextCallback) : AudioHandler := {|
  stt_enabled := stt;
  recognizer := recognizer_ready;
  is_listening := false;
  audio_stream := false;
  audio_frames := [];
  last_speech_time := None;
  pyaudio_instance := false;
  _on_text_recognized := callback;
  recognized_text_queue := [];
  requests := [];
  device := [];
  stdout := []
|}.

(** *** Computations that change the handler and may raise *)

Inductive Outcome (A : Type) :=
| Returned (a : A)
| Raised (e : Exception).
Arguments Returned {A} a.
Arguments Raised {A} e.

(** A method body: from the handler before to its outcome and the
    handler after.  What was assigned before an exception stays
    assigned. *)
Definition M (A : Type) : Type := AudioHandler -> Outcome A * AudioHandler.

Definition ret {A : Type} (a : A) : M A := fun s => (Returned a, s).

Definition bind {A B : Type} (m : M A) (k : A -> M B) : M B :=
  fun s => match m s with
           | (Returned a, s') => k a s'
           | (Raised e, s') => (Raised e, s')
           end.

Definition raise {A : Type} (e : Exception) : M A := fun s => (Raised e, s).

(** [try: m  except ...: h] *)
Definition try_except {A : Type} (m : M A) (h : Exception -> M A) : M A :=
  fun s => match m s with
           | (Returned a, s') => (Returned a, s')
           | (Raised e, s') => h e s'
           end.

(** An assignment or another effect that cannot raise. *)
Definition update (f : AudioHandler -> AudioHandler) : M unit :=
  fun s => (Returned tt, f s).

Definition read_field {A : Type} (f : AudioHandler -> A) : M A :=
  fun s => (Returned (f s), s).

Declare Scope audio_scope.
Delimit Scope audio_scope with audio.
Notation "x <- m ;; k" := (bind m (fun x => k))
  (at level 100, m at next level, right associativity) : audio_scope.
Notation "m ;; k" := (bind m (fun _ => k))
  (at level 100, right associativity) : audio_scope.
Open Scope audio_scope.

(** The local variables of [recording_worker]. *)
Record Locals := {
  silence_start : option Z;
  has_speech : bool
}.

(** How a turn of the loop ends: it goes on to the next test of
    [while self.is_listening], or it leaves the loop by [break]. *)
Inductive Control := Continue | Break.

(** The truth value of [silence_start] in [if silence_start:]: [None]
    and the float [0.0] are false. *)
Definition truthy (t : option Z) : bool :=
  match t with
  | Some v => negb (v =? 0)
  | None => false
  end.

(** [silence_start is None] *)
Definition is_none (t : option Z) : bool :=
  match t with
  | Some _ => false
  | None => true
  end.

(** The dict returned by [start_listening]. *)
Inductive StartStatus :=
| status_started
| status_already_listening
| status_error.

Section Session.

(** [self.volume_threshold], [self.silence_threshold] and
    [self.inactivity_timeout], set once by [__init__] from [config.py];
    whether the modules [numpy] and [pyaudio] could be imported; and
    which calls into PyAudio raise. *)
Context (volume_threshold silence_threshold inactivity_timeout : Z)
        (np pyaudio : bool)
        (device_raises : DeviceCall -> bool).

(** A call into PyAudio. *)
Definition call_device (c : DeviceCall) : M unit :=
  fun s => if device_raises c then (Raised OSError, log_device c s)
           else (Returned tt, log_device c s).

(** [self._on_text_recognized(text)] *)
Definition call_on_text_recognized (text : string) : M unit :=
  fun s => match _on_text_recognized s with
           | default_on_text_recognized => (Returned tt, s)
           | on_text_recognized_callback =>
               (Returned tt,
                print (TextQueued text)
                  (set_recognized_text_queue (recognized_text_queue s ++ [text]) s))
           end.

(** [recognizer.recognize_google(audio_data, ...)] on the WAV assembled
    from [audio_frames]. *)
Definition recognize_google (r : Recognition) : M string :=
  fun s => let s' := log_request (audio_frames s) s in
           match r with
           | Recognized text => (Returned text, s')
           | Fails e => (Raised e, s')
           end.

(** [_process_recorded_audio()]; [r] is what the recogniser does if it
    is called.  Assembling the WAV in memory is a pure computation. *)
Definition _process_recorded_audio (r : Recognition) : M unit :=
  frames <- read_field audio_frames ;;
  if (length frames <? 10)%nat then ret tt
  else
    try_except
      (ready <- read_field recognizer ;;
       if ready then
         try_except
           (text <- recognize_google r ;;
            if negb (String.eqb text "") then
              update (print (SpeechRecognized text)) ;;
              call_on_text_recognized text
            else ret tt)
           (fun e => match e with
                     | UnknownValueError => update (print SpeechNotRecognized)
                     | RequestError => update (print ApiError)
                     | _ => raise e
                     end)
       else ret tt)
      (fun e => update (print (ProcessingError e))).

(** [stop_listening()] *)
Definition stop_listening : M (option string) :=
  listening <- read_field is_listening ;;
  if negb listening then ret None
  else
    update (set_is_listening false) ;;
    try_except
      (stream <- read_field audio_stream ;;
       (if stream then
          call_device StopStream ;;
          call_device CloseStream ;;
          update (set_audio_stream false)
        else ret tt) ;;
       instance <- read_field pyaudio_instance ;;
       (if instance then
          call_device Terminate ;;
          update (set_pyaudio_instance false)
        else ret tt) ;;
       update (print RecordingStopped) ;;
       ret (Some "Запись остановлена"))
      (fun e => update (print (StopError e)) ;; ret None).

(** [self.audio_stream.read(...)]: an [AttributeError] once the stream
    attribute is [None]. *)
Definition stream_read (tk : Tick) : M Chunk :=
  stream <- read_field audio_stream ;;
  if stream then
    match read tk with
    | Some audio_data => ret audio_data
    | None => raise OSError
    end
  else raise AttributeError.

(** [current_time - self.last_speech_time > self.inactivity_timeout];
    subtracting [None] is a [TypeError]. *)
Definition inactive (current_time : Z) : M bool :=
  last <- read_field last_speech_time ;;
  match last with
  | Some t => ret (inactivity_timeout <? current_time - t)
  | None => raise TypeError
  end.

(** The [try] block of one turn of the loop in [recording_worker]. *)
Definition loop_body (tk : Tick) (l : Locals) : M (Locals * Control) :=
  audio_data <- stream_read tk ;;
  update (fun s => set_audio_frames (audio_frames s ++ [audio_data]) s) ;;
  let current_time := now tk in
  l <- (if exceeds (volume audio_data) volume_threshold then
          update (set_last_speech_time (Some current_time)) ;;
          ret {| silence_start := None; has_speech := true |}
        else
          let silence_start :=
            if has_speech l && is_none (silence_start l)
            then Some current_time else silence_start l in
          let l := {| silence_start := silence_start; has_speech := has_speech l |} in
          if truthy silence_start then
            let silence_duration := current_time - default 0 silence_start in
            if (silence_threshold <=? silence_duration) && has_speech l then
              update (print PauseDetected) ;;
              _process_recorded_audio (recognition tk) ;;
              update (set_audio_frames []) ;;
              update (set_last_speech_time (Some current_time)) ;;
              ret {| silence_start := None; has_speech := false |}
            else ret l
          else ret l) ;;
  timed_out <- inactive current_time ;;
  if timed_out then
    update (print InactivityTimeout) ;;
    stop_listening ;;
    ret (l, Break)
  else ret (l, Continue).

(** One turn of the loop with its [except Exception] clause. *)
Definition recording_step (tk : Tick) (l : Locals) : M (Locals * Control) :=
  try_except (loop_body tk l)
    (fun e => update (print (RecordingError e)) ;; ret (l, Break)).

(** Where the loop of [recording_worker] stands after the turns it was
    given: still in the loop with its locals, or past it. *)
Inductive Status :=
| Running (l : Locals)
| Exited.

(** [recording_worker()] over the turns [ticks]: the number of turns it
    took, where it stands, and the handler.  The concurrent request
    thread is not part of a run. *)
Fixpoint recording_worker (ticks : list Tick) (l : Locals) (s : AudioHandler)
    : nat * Status * AudioHandler :=
  if negb (is_listening s) then (0%nat, Exited, print RecordingFinished s)
  else
    match ticks with
    | [] => (0%nat, Running l, s)
    | tk :: rest =>
        match recording_step tk l s with
        | (Returned (l', Continue), s') =>
            let '(n, status, s'') := recording_worker rest l' s' in
            (S n, status, s'')
        | (_, s') => (1%nat, Exited, print RecordingFinished s')
        end
    end.

(** The locals at the start of [recording_worker]. *)
Definition fresh_locals : Locals := {| silence_start := None; has_speech := false |}.

(** [start_listening()] at clock reading [current_time], up to the start
    of the recording thread. *)
Definition start_listening (current_time : Z) : M StartStatus :=
  stt <- read_field stt_enabled ;;
  ready <- read_field recognizer ;;
  listening <- read_field is_listening ;;
  if negb stt || negb ready then ret status_error
  else if listening then ret status_already_listening
  else if negb np then ret status_error
  else if negb pyaudio then ret status_error
  else
    try_except
      (update (set_is_listening true) ;;
       update (set_audio_frames []) ;;
       update (set_last_speech_time (Some current_time)) ;;
       call_device CreatePyAudio ;;
       update (set_pyaudio_instance true) ;;
       call_device OpenStream ;;
       update (set_audio_stream true) ;;
       update (print RecordingStarted) ;;
       ret status_started)
      (fun e =>
         update (print (StartError e)) ;;
         update (set_is_listening false) ;;
         ret status_error).

(** [resume_listening()] *)
Definition resume_listening (current_time : Z) : M StartStatus :=
  listening <- read_field is_listening ;;
  if negb listening then start_listening current_time
  else ret status_already_listening.

(** *** The segmentation rule in the words of the design document *)

(** The block a turn delivers, and whether its volume exceeds the
    threshold. *)
Definition chunk_of (tk : Tick) : Chunk := default [] (read tk).

Definition loud (tk : Tick) : bool :=
  exceeds (volume (chunk_of tk)) volume_threshold.

Definition quiet (tk : Tick) : bool := negb (loud tk).

(** The uninterrupted silence at the end of [history]: its longest
    suffix without a frame above the threshold. *)
Fixpoint trailing_silence (history : list Tick) : list Tick :=
  match history with
  | [] => []
  | _ :: rest =>
      if forallb quiet history then history else trailing_silence rest
  end.

(** "Speech was detected and then silence persisted for at least
    [silence_threshold]": a frame of [history] exceeded the threshold,
    and the silence that ends [history] has lasted that long from its
    first frame to the current one. *)
Definition spec_speech_then_silence (history : list Tick) : bool :=
  existsb loud history &&
  match head (trailing_silence history), last history with
  | Some first, Some current => silence_threshold <=? now current - now first
  | _, _ => false
  end.

(** The segments of a stream of turns: the frames accumulate in
    [pending] from the session start or the previous segment, and a
    segment ends at the first turn where speech was followed by enough
    silence. *)
Fixpoint spec_segments (pending ticks : list Tick) : list (list Chunk) :=
  match ticks with
  | [] => []
  | tk :: rest =>
      let history := (pending ++ [tk])%list in
      if spec_speech_then_silence history
      then map chunk_of history :: spec_segments [] rest
      else spec_segments history rest
  end.

(** The turns after the last segment. *)
Fixpoint spec_pending (pending ticks : list Tick) : list Tick :=
  match ticks with
  | [] => pending
  | tk :: rest =>
      let history := (pending ++ [tk])%list in
      if spec_speech_then_silence history
      then spec_pending [] rest
      else spec_pending history rest
  end.

(** The floor of [_process_recorded_audio] on the number of frames. *)
Definition long_enough (segment : list Chunk) : bool :=
  (10 <=? length segment)%nat.

(** The last turn of [block] is the first one at which speech was
    followed by enough silence: the rule holds of [block] and of none
    of its shorter initial parts. *)
Definition confirmed_at_end (block : list Tick) : Prop :=
  spec_speech_then_silence block = true /\
  forall k, (k < length block)%nat ->
    spec_speech_then_silence (take k block) = false.

(** *** Vocabulary of the statements about the session *)

(** The value of [silence_start] after the first [if] of the silent
    branch. *)
Definition next_silence_start (tk : Tick) (l : Locals) : option Z :=
  if has_speech l && is_none (silence_start l) then Some (now tk)
  else silence_start l.

(** Whether the turn reaches [_process_recorded_audio]. *)
Definition hands_over (tk : Tick) (l : Locals) : bool :=
  quiet tk && truthy (next_silence_start tk l)
  && (silence_threshold <=? now tk - default 0 (next_silence_start tk l))
  && has_speech l.

(** The first half of a turn whose [read] succeeds: the frame is
    appended and classified, and the buffer is handed over if the
    silence lasted. *)
Definition absorb (tk : Tick) (l : Locals) (s : AudioHandler) : Locals * AudioHandler :=
  let s1 := set_audio_frames (audio_frames s ++ [chunk_of tk]) s in
  if loud tk then
    ({| silence_start := None; has_speech := true |},
     set_last_speech_time (Some (now tk)) s1)
  else if hands_over tk l then
    (fresh_locals,
     set_last_speech_time (Some (now tk))
       (set_audio_frames []
          (snd (_process_recorded_audio (recognition tk) (print PauseDetected s1)))))
  else
    ({| silence_start := next_silence_start tk l; has_speech := has_speech l |}, s1).

(** The second half: the inactivity rule. *)
Definition conclude (tk : Tick) (l : Locals) : M (Locals * Control) :=
  timed_out <- inactive (now tk) ;;
  if timed_out then
    update (print InactivityTimeout) ;;
    stop_listening ;;
    ret (l, Break)
  else ret (l, Continue).

(** The clock reading at which the silence that ends [history] began. *)
Definition first_quiet (history : list Tick) : option Z :=
  option_map now (head (trailing_silence history)).

(** What the locals and the handler record about the turns [pending]
    taken since the session start or the previous hand-over. *)
Definition tracks (pending : list Tick) (l : Locals) (s : AudioHandler) : Prop :=
  audio_stream s = true /\ recognizer s = true /\
  is_Some (last_speech_time s) /\
  audio_frames s = map chunk_of pending /\
  has_speech l = existsb loud pending /\
  silence_start l = (if existsb loud pending then first_quiet pending else None) /\
  Forall (fun tk => now tk <> 0) pending.

(** The turns pending after [tk]. *)
Definition pending_after (pending : list Tick) (tk : Tick) : list Tick :=
  if spec_speech_then_silence (pending ++ [tk]) then [] else (pending ++ [tk])%list.

(** A turn on which the stream delivers a block and the clock does not
    read zero. *)
Definition delivers (tk : Tick) : Prop := is_Some (read tk) /\ now tk <> 0.

(** A turn of a session in which nothing was said yet. *)
Definition silent_within (start : Z) (tk : Tick) : Prop :=
  is_Some (read tk) /\ loud tk = false /\ now tk - start <= inactivity_timeout.

End Session.

(** [s'] is [s] up to standard output, the queue of recognised texts and
    the audio handed to the recogniser. *)
Definition same_session (s s' : AudioHandler) : Prop :=
  stt_enabled s' = stt_enabled s /\ recognizer s' = recognizer s /\
  is_listening s' = is_listening s /\ audio_stream s' = audio_stream s /\
  audio_frames s' = audio_frames s /\ last_speech_time s' = last_speech_time s /\
  pyaudio_instance s' = pyaudio_instance s /\
  _on_text_recognized s' = _on_text_recognized s /\ device s' = device s.

(** The line printed for a failure of the recogniser. *)
Definition error_line (e : Exception) : Line :=
  match e with
  | UnknownValueError => SpeechNotRecognized
  | RequestError => ApiError
  | _ => ProcessingError e
  end.

(** [delivers] and [silent_within] as checks that compute. *)
Definition delivers_b (tk : Tick) : bool :=
  match read tk with
  | Some _ => negb (now tk =? 0)
  | None => false
  end.

Definition silent_within_b (volume_threshold inactivity_timeout start : Z)
    (tk : Tick) : bool :=
  match read tk with
  | Some _ => negb (loud volume_threshold tk) && (now tk - start <=? inactivity_timeout)
  | None => false
  end.

(** *** Scenario data *)

(** [config.py]: the volume threshold, and 2 s and 5 s in milliseconds. *)
Definition VOICE_VOLUME_THRESHOLD : Z := 500.
Definition SILENCE_THRESHOLD : Z := 2000.
Definition INACTIVITY_TIMEOUT : Z := 5000.

(** Blocks of [AUDIO_CHUNK_SIZE = 1024] samples, 64 ms at 16 kHz, of
    amplitude 0 and of amplitude 1000. *)
Definition AUDIO_CHUNK_SIZE : nat := Z.to_nat 1024.
Definition silence_chunk : Chunk := repeat 0 AUDIO_CHUNK_SIZE.
Definition speech_chunk : Chunk := repeat 1000 AUDIO_CHUNK_SIZE.

(** A PyAudio none of whose calls raises. *)
Definition healthy (c : DeviceCall) : bool := false.

(** The turns that deliver [chunks] one after the other, [period]
    milliseconds apart, the first one [period] after [start]. *)
Fixpoint turns (start period : Z) (r : Recognition) (chunks : list Chunk) : list Tick :=
  match chunks with
  | [] => []
  | c :: rest =>
      {| now := start + period; read := Some c; recognition := r |}
      :: turns (start + period) period r rest
  end.

(** The handler of [web_app.py] after a successful [start_listening] at
    clock reading 1000000. *)
Definition listening : AudioHandler :=
  snd (start_listening true true healthy 1000000
         (init true true on_text_recognized_callback)).

(** Amplitude 0 for 3 s (47 blocks), amplitude 1000 for 1 s (16 blocks),
    amplitude 0 for 2.5 s (39 blocks). *)
Definition scenario_chunks : list Chunk :=
  (repeat silence_chunk 47 ++ repeat speech_chunk 16 ++ repeat silence_chunk 39)%list.

Definition scenario : list Tick :=
  turns 1000000 64 (Recognized "привет") scenario_chunks.

(** The recording thread of [listening] over given turns, with the
    thresholds of [config.py]. *)
Definition run_over (ticks : list Tick) : nat * Status * AudioHandler :=
  recording_worker VOICE_VOLUME_THRESHOLD SILENCE_THRESHOLD INACTIVITY_TIMEOUT healthy
    ticks fresh_locals listening.

Definition scenario_run : nat * Status * AudioHandler := run_over scenario.

(** What the recogniser receives in the scenario. *)
Definition scenario_segment : list Chunk :=
  (repeat silence_chunk 47 ++ repeat speech_chunk 16 ++ repeat silence_chunk 33)%list.

(** The same stream with a recogniser that reports a service error, and
    the session just before the turn that hands the segment over. *)
Definition failing_scenario : list Tick :=
  turns 1000000 64 (Fails RequestError) scenario_chunks.

Definition locals_of (status : Status) : Locals :=
  match status with
  | Running l => l
  | Exited => fresh_locals
  end.

Definition before_failure : Locals * AudioHandler :=
  let '(_, status, s) := run_over (take 95 failing_scenario) in
  (locals_of status, s).

Definition failing_turn : Tick :=
  {| now := 1000000 + 64 * 96; read := Some silence_chunk;
     recognition := Fails RequestError |}.

(** Blocks of 16384 samples, 1024 ms each: one of speech, then three of
    silence. *)
Definition slow_turns : list Tick :=
  turns 1000000 1024 (Recognized "привет")
    (let size := Z.to_nat 16384 in
     [repeat 1000 size; repeat 0 size; repeat 0 size; repeat 0 size]).

(** Only silence: 80 blocks of 64 ms. *)
Definition silent_turns : list Tick :=
  turns 1000000 64 (Recognized "") (repeat silence_chunk 80).

End Audio.

(** * Further vocabulary for the gesture confirmation engine *)
Module VisionTerms.
Import Vision.

(** The list [gestures] of [_frame_analysis_callback]: what the
    classifier returns, or [[]] when recognition is switched off or no
    classifier was loaded. *)
Definition detections (config : VisionConfig) (s : VisionHandler) (frame : Frame)
    : list Gesture :=
  if gesture_recognition config && recognizer s then detected frame else [].

(** The observation was stamped at most [gesture_confirmation_time]
    before [last_gesture_time]. *)
Definition within_window (config : VisionConfig) (s : VisionHandler) (g : Gesture)
    : Prop :=
  exists t, detected_at g = Some t /\
            last_gesture_time s - t <= gesture_confirmation_time config.

(** The element of [analysis_results] built for a frame. *)
Definition result_of (config : VisionConfig) (s : VisionHandler)
    (current_time : Z) (frame : Frame) : AnalysisResult := {|
  timestamp := current_time;
  gestures := map (stamp current_time) (detections config s frame);
  frame_shape := shape frame
|}.

(** A frame without detections that arrives within the inactivity
    timeout counted from [start]. *)
Definition idle_within (config : VisionConfig) (start : Z) (tf : Z * Frame) : Prop :=
  detected (snd tf) = [] /\ fst tf - start <= gesture_inactivity_timeout config.

Definition idle_within_b (config : VisionConfig) (start : Z) (tf : Z * Frame) : bool :=
  match detected (snd tf) with
  | [] => fst tf - start <=? gesture_inactivity_timeout config
  | _ :: _ => false
  end.

(** Two labels with two observations each, [open_palm] seen first. *)
Definition tied_buffer : list Gesture :=
  map (fun label => {| type := label; hand := "right"; detected_at := Some 1100 |})
      ["open_palm"; "victory"; "victory"; "open_palm"].

(** Two observations of [open_palm] buffered on [started]. *)
Definition two_palms : VisionHandler :=
  run default_config
    [EFrame 1100 (seen "open_palm"); EFrame 1200 (seen "open_palm")] started.

(** Frames without hands, one per second from clock reading 2000. *)
Definition idle_frames : list (Z * Frame) :=
  map (fun t => (t, empty_frame)) [2000; 3000; 4000; 5000; 6000; 7000; 8000].

End VisionTerms.

(** * Further vocabulary for the voice activity segmenter *)
Module AudioTerms.
Import Audio.

(** A turn on which [audio_stream.read] raises. *)
Definition broken_turn : Tick :=
  {| now := 1000064; read := None; recognition := Recognized "" |}.

End AudioTerms.

(** * The request handlers of [web_app.py] *)
Module Web.

(** A Python [str] whose characters are inspected one by one: the list
    of its code points. *)
Definition Text := list Z.

(** [str.isspace] of one character, which is also the class [\s] of
    [re] on a [str] pattern. *)
Definition isspace (c : Z) : bool :=
  ((9 <=? c) && (c <=? 13)) || ((28 <=? c) && (c <=? 32))
  || (c =? 133) || (c =? 160) || (c =? 5760)
  || ((8192 <=? c) && (c <=? 8202))
  || (c =? 8232) || (c =? 8233) || (c =? 8239) || (c =? 8287) || (c =? 12288).

(** [not s.strip()]: the string has no character that is not blank. *)
Definition blank (s : Text) : bool := forallb isspace s.

(** *** [speak_text]: cleaning the text to be spoken *)

(** The character class of the first [re.sub] of [speak_text]. *)
Definition emoji_ranges : list (Z * Z) :=
  [(128512, 128591); (127744, 128511); (128640, 128767); (128768, 128895);
   (128896, 129023); (129024, 129279); (129280, 129535); (129536, 129647);
   (129648, 129791); (9986, 10160); (9410, 127569)].

Definition in_emoji_ranges (c : Z) : bool :=
  existsb (fun r => (fst r <=? c) && (c <=? snd r)) emoji_ranges.

(** [re.sub(r'[...]+', '', text)]: every character of the class goes. *)
Definition remove (class : Z -> bool) (text : Text) : Text :=
  List.filter (fun c => negb (class c)) text.

(** [re.sub(r'c+', r, text)] for a character class: every maximal run
    of characters of the class becomes the single character [r].
    [in_run] tells that the character before belongs to a run. *)
Fixpoint collapse_from (class : Z -> bool) (r : Z) (in_run : bool) (text : Text) : Text :=
  match text with
  | [] => []
  | c :: rest =>
      if class c then
        if in_run then collapse_from class r true rest
        else r :: collapse_from class r true rest
      else c :: collapse_from class r false rest
  end.

Definition collapse (class : Z -> bool) (r : Z) (text : Text) : Text :=
  collapse_from class r false text.

(** [str.lstrip()] and [str.strip()]. *)
Fixpoint lstrip (text : Text) : Text :=
  match text with
  | [] => []
  | c :: rest => if isspace c then lstrip rest else text
  end.

Definition strip (text : Text) : Text := rev (lstrip (rev (lstrip text))).

(** The four substitutions of [speak_text] and the final [strip]. *)
Definition clean (text : Text) : Text :=
  let text_cleaned := remove in_emoji_ranges text in
  let text_cleaned := collapse (Z.eqb 33) 46 text_cleaned in
  let text_cleaned := collapse (Z.eqb 63) 63 text_cleaned in
  strip (collapse isspace 32 text_cleaned).

(** No two neighbours are both in the class. *)
Fixpoint no_run (class : Z -> bool) (text : Text) : Prop :=
  match text with
  | [] => True
  | c :: rest =>
      match rest with
      | [] => True
      | c' :: _ => (class c && class c' = false) /\ no_run class rest
      end
  end.

(** A text fit for the speech engine: no exclamation mark, no character
    of the emoji ranges, no blank character but the space, no two
    spaces and no two question marks in a row, and no blank at either
    end. *)
Definition plain (text : Text) : Prop :=
  Forall (fun c => c <> 33 /\ in_emoji_ranges c = false /\
                   (isspace c = true -> c = 32)) text /\
  no_run isspace text /\ no_run (Z.eqb 63) text /\
  forall c, head text = Some c \/ last text = Some c -> isspace c = false.

(** The answers of the [/api/tts/speak] handler: 400 for an empty text,
    "skipped" when nothing is left of it, and otherwise "started" once
    the cleaned text went to [speak_answer]. *)
Inductive SpeakResponse :=
| speak_error_empty
| speak_skipped
| speak_started (spoken : Text).

Definition speak_text (text : Text) : SpeakResponse :=
  match text with
  | [] => speak_error_empty
  | _ :: _ =>
      match clean text with
      | [] => speak_skipped
      | c :: rest => speak_started (c :: rest)
      end
  end.

(** *** [chat]: streaming the answer *)

(** [final_answer.split('. ')], scanning from the left; [piece] is the
    piece under construction. *)
Fixpoint split_from (piece : Text) (text : Text) : list Text :=
  match text with
  | [] => [piece]
  | c :: rest =>
      match rest with
      | c' :: rest' =>
          if (c =? 46) && (c' =? 32) then piece :: split_from [] rest'
          else split_from (piece ++ [c])%list rest
      | [] => [(piece ++ [c])%list]
      end
  end.

Definition split_sentences (text : Text) : list Text := split_from [] text.

(** ['. '.join(pieces)] *)
Fixpoint join (pieces : list Text) : Text :=
  match pieces with
  | [] => []
  | piece :: rest =>
      match rest with
      | [] => piece
      | _ :: _ => (piece ++ [46; 32] ++ join rest)%list
      end
  end.

(** The events a response is streamed as. *)
Inductive Sse :=
| Thinking (content : Text)
| Answer (content : Text)
| Done.

(** The [for i, sentence in enumerate(sentences)] loop of [generate],
    from index [i] on, [total] being [len(sentences)]. *)
Fixpoint stream_sentences (total i : nat) (accumulated : Text) (sentences : list Text)
    : list Sse :=
  match sentences with
  | [] => []
  | sentence :: rest =>
      if negb (blank sentence) then
        let accumulated := (accumulated ++ sentence)%list in
        let accumulated :=
          if (i <? total - 1)%nat then (accumulated ++ [46; 32])%list
          else accumulated in
        Answer accumulated :: stream_sentences total (S i) accumulated rest
      else stream_sentences total (S i) accumulated rest
  end.

(** The events of [generate] for a response of the model. *)
Definition stream (thinking_content final_answer : Text) : list Sse :=
  let sentences := split_sentences final_answer in
  ((match thinking_content with [] => [] | _ :: _ => [Thinking thinking_content] end)
   ++ stream_sentences (length sentences) 0 [] sentences
   ++ [Done])%list.

(** The contents of the [Answer] events, in order. *)
Fixpoint answers (events : list Sse) : list Text :=
  match events with
  | [] => []
  | Answer content :: rest => content :: answers rest
  | _ :: rest => answers rest
  end.

(** [a] is an initial part of [b]. *)
Definition is_prefix (a b : Text) : Prop := exists rest, b = (a ++ rest)%list.

(** Every element is an initial part of the next one. *)
Fixpoint growing (contents : list Text) : Prop :=
  match contents with
  | [] => True
  | a :: rest =>
      match rest with
      | [] => True
      | b :: _ => is_prefix a b /\ growing rest
      end
  end.

(** *** Polling for recognised text *)

(** The answers of [/api/voice/get-text]. *)
Inductive Poll :=
| poll_stopped
| poll_text_available (text : string)
| poll_no_text.

(** [get_recognized_text()] *)
Definition get_recognized_text (s : Audio.AudioHandler) : Poll * Audio.AudioHandler :=
  if negb (Audio.is_listening s) then (poll_stopped, s)
  else
    match Audio.recognized_text_queue s with
    | text :: rest =>
        (poll_text_available text, Audio.set_recognized_text_queue rest s)
    | [] => (poll_no_text, s)
    end.

(** [n] polls in a row, with their answers. *)
Fixpoint polls (n : nat) (s : Audio.AudioHandler) : list Poll * Audio.AudioHandler :=
  match n with
  | O => ([], s)
  | S n' =>
      let '(answer, s') := get_recognized_text s in
      let '(more, s'') := polls n' s' in
      (answer :: more, s'')
  end.

(** *** Scenario data *)

(** "Да! Нет?? " followed by U+1F600 and two spaces. *)
Definition noisy_text : Text :=
  [1044; 1072; 33; 33; 32; 1053; 1077; 1090; 63; 63; 32; 128512; 32; 32].

(** Four CJK ideographs. *)
Definition chinese_text : Text := [20320; 22909; 19990; 30028].

(** A listening session with two texts waiting, and a stopped one with
    one text waiting. *)
Definition two_queued : Audio.AudioHandler :=
  Audio.set_recognized_text_queue ["да"; "нет"] Audio.listening.

Definition stopped_with_text : Audio.AudioHandler :=
  Audio.set_recognized_text_queue ["да"]
    (Audio.init true true Audio.on_text_recognized_callback).

(** "Ab. Cd. Ef" *)
Definition three_sentences : Text := [65; 98; 46; 32; 67; 100; 46; 32; 69; 102].

End Web.

(** * The conversation history of [main.py] *)
Module History.

(** One entry of [conversation_history]. *)
Record Message := {
  role : string;
  content : string
}.

Definition is_system (msg : Message) : bool := String.eqb (role msg) "system".
Definition not_system (msg : Message) : bool := negb (is_system msg).

Section Trim.

(** [total_tokens] is an [int] as long as the tokenizer answers and a
    [float] once an estimate of the [except] branch was added; [Total]
    stands for its values and [zero] for the initial 0.  [charge total
    message] is one turn of the loop body, either branch: [Some total']
    when the message is kept and the count becomes [total'], [None]
    when the loop breaks. *)
Context {Total : Type} (zero : Total) (charge : Total -> Message -> option Total).

(** The loop [for message in reversed(other_messages)];
    [kept_messages.insert(0, message)] puts the message in front. *)
Fixpoint keep_newest (total_tokens : Total) (newest_first kept_messages : list Message)
    : list Message :=
  match newest_first with
  | [] => kept_messages
  | message :: older =>
      match charge total_tokens message with
      | Some total_tokens => keep_newest total_tokens older (message :: kept_messages)
      | None => kept_messages
      end
  end.

(** [_trim_conversation_history()]; [llama] tells that the model is
    loaded.  The line printed when messages were removed is left out. *)
Definition _trim_conversation_history (llama : bool) (conversation_history : list Message)
    : list Message :=
  match conversation_history with
  | [] => conversation_history
  | _ :: _ =>
      if negb llama then conversation_history
      else
        let system_messages := List.filter is_system conversation_history in
        let other_messages := List.filter not_system conversation_history in
        let kept_messages := keep_newest zero (rev other_messages) [] in
        (system_messages ++ kept_messages)%list
  end.

(** [add_to_history(role, content)] *)
Definition add_to_history (llama : bool) (role content : string)
    (conversation_history : list Message) : list Message :=
  _trim_conversation_history llama
    (conversation_history ++ [{| role := role; content := content |}])%list.

End Trim.

(** The [try] branch of the loop body: [message_tokens] is the length of
    the tokenizer's answer for the message. *)
Definition charge_tokens (message_tokens : Message -> nat) (max_history_tokens : Z)
    (total_tokens : Z) (message : Message) : option Z :=
  if total_tokens + Z.of_nat (message_tokens message) <=? max_history_tokens
  then Some (total_tokens + Z.of_nat (message_tokens message))
  else None.

(** The tokens of a list of messages. *)
Definition tokens_of (message_tokens : Message -> nat) (messages : list Message) : Z :=
  fold_right (fun message total => Z.of_nat (message_tokens message) + total) 0 messages.

(** [clear_history()] *)
Definition clear_history (conversation_history : list Message) : list Message :=
  List.filter is_system conversation_history.

(** *** Scenario data *)

(** A tokenizer that answers one token per character of the content. *)
Definition one_per_character (message : Message) : nat := String.length (content message).

Definition dialogue : list Message :=
  [ {| role := "user"; content := "aaaa" |};
    {| role := "system"; content := "ssssss" |};
    {| role := "assistant"; content := "bbb" |};
    {| role := "user"; content := "cc" |} ].

End History.

(** * Facts about the gesture confirmation engine *)
Module VisionFacts.
Import Vision.

Lemma no_adjacent_dup_snoc {A : Type} (l : list A) (x : A) :
  no_adjacent_dup l -> last l <> Some x -> no_adjacent_dup (l ++ [x]).
Proof.
  induction l as [|a l IH]; simpl; [tauto|].
  destruct l as [|b l]; simpl in *.
  - intros _ Hne. split; [congruence | exact I].
  - intros [Hab Hrest] Hlast. split; [exact Hab|].
    apply IH; assumption.
Qed.

(** ** What [gesture_counts] and [most_common] compute *)

Lemma dict_get_incr_same k d : dict_get k (dict_incr k d) = S (dict_get k d).
Proof.
  induction d as [|[k' n] d IH]; simpl.
  - now rewrite String.eqb_refl.
  - destruct (String.eqb k' k) eqn:E; simpl; rewrite E; auto.
Qed.

Lemma dict_get_incr_other k k' d :
  k <> k' -> dict_get k' (dict_incr k d) = dict_get k' d.
Proof.
  intros Hne. induction d as [|[k0 n] d IH]; simpl.
  - destruct (String.eqb_spec k k'); congruence.
  - destruct (String.eqb_spec k0 k) as [->|Hk]; simpl.
    + destruct (String.eqb_spec k k'); congruence.
    + destruct (String.eqb_spec k0 k'); auto.
Qed.

Lemma gesture_counts_snoc buffer g :
  gesture_counts (buffer ++ [g]) = dict_incr (type g) (gesture_counts buffer).
Proof. unfold gesture_counts. now rewrite fold_left_app. Qed.

Lemma dict_get_gesture_counts label buffer :
  dict_get label (gesture_counts buffer) = occurrences label buffer.
Proof.
  induction buffer as [|g buffer IH] using rev_ind; [reflexivity|].
  rewrite gesture_counts_snoc. unfold occurrences in *.
  rewrite List.filter_app, length_app. simpl.
  destruct (String.eqb_spec (type g) label) as [<-|Hne].
  - rewrite dict_get_incr_same, IH. simpl. lia.
  - rewrite dict_get_incr_other by assumption. rewrite IH. simpl. lia.
Qed.

Lemma dict_get_absent k d : ~ In k (keys d) -> dict_get k d = 0%nat.
Proof.
  induction d as [|[k' n] d IH]; simpl; [reflexivity|].
  intros Hn. destruct (String.eqb_spec k' k); [tauto|]. apply IH. tauto.
Qed.

Lemma keys_dict_incr k d :
  keys (dict_incr k d) =
  if in_dec string_dec k (keys d) then keys d else (keys d ++ [k])%list.
Proof.
  induction d as [|[k' n] d IH]; simpl.
  - reflexivity.
  - destruct (String.eqb_spec k' k) as [->|Hne]; simpl.
    + destruct (string_dec k k); [reflexivity | congruence].
    + rewrite IH. destruct (string_dec k' k); [congruence|].
      destruct (in_dec string_dec k (keys d)); reflexivity.
Qed.

Lemma NoDup_keys_gesture_counts buffer : List.NoDup (keys (gesture_counts buffer)).
Proof.
  induction buffer as [|g buffer IH] using rev_ind; [constructor|].
  rewrite gesture_counts_snoc, keys_dict_incr.
  destruct (in_dec _ _ _) as [Hin|Hnin]; [assumption|].
  apply List.NoDup_app; repeat split; auto.
  - constructor; [simpl; tauto | constructor].
  - intros x Hx [<-|[]]. tauto.
Qed.

Lemma dict_get_In k n d : List.NoDup (keys d) -> In (k, n) d -> dict_get k d = n.
Proof.
  induction d as [|[k' n'] d IH]; simpl; [tauto|].
  intros Hnd [Heq|Hin].
  - inversion Heq; subst. now rewrite String.eqb_refl.
  - inversion Hnd as [|? ? Hnot Hnd']; subst.
    destruct (String.eqb_spec k' k) as [->|Hne]; [|auto].
    exfalso. apply Hnot. change k with (fst (k, n)). now apply in_map.
Qed.

Lemma max_from_spec d : forall best,
  (In (max_from best d) (best :: d)) /\
  (snd best <= snd (max_from best d))%nat /\
  (forall kv, In kv d -> snd kv <= snd (max_from best d))%nat.
Proof.
  induction d as [|[k n] d IH]; intros best; simpl.
  - split; [auto|]. split; [lia|]. tauto.
  - destruct (IH (if (snd best <? n)%nat then (k, n) else best)) as (Hin & Hge & Hall).
    destruct (Nat.ltb_spec (snd best) n) as [Hlt|Hle]; simpl in *.
    + split; [destruct Hin; auto|]. split; [lia|].
      intros kv [<-|Hkv]; simpl; auto.
    + split; [destruct Hin; auto|]. split; [lia|].
      intros kv [<-|Hkv]; simpl; [lia | auto].
Qed.

(** The pair selected by [_check_gesture_confirmation] is a label of the
    buffer with its number of observations, and no label has more. *)
Lemma most_common_spec buffer label count :
  most_common (gesture_counts buffer) = Some (label, count) ->
  count = occurrences label buffer /\
  forall label', (occurrences label' buffer <= count)%nat.
Proof.
  intros H. pose proof (NoDup_keys_gesture_counts buffer) as Hnd.
  destruct (gesture_counts buffer) as [|kv d] eqn:Hd; [discriminate|].
  simpl in H. injection H as H.
  destruct (max_from_spec d kv) as (Hin & Hge & Hall). rewrite H in *.
  simpl in *. split.
  - rewrite <- dict_get_gesture_counts, Hd. symmetry.
    apply dict_get_In; [assumption | exact Hin].
  - intros label'. rewrite <- dict_get_gesture_counts, Hd.
    destruct (in_dec string_dec label' (keys (kv :: d))) as [Hk|Hk].
    + apply in_map_iff in Hk as ([k' n'] & Hfst & Hk). simpl in Hfst. subst k'.
      rewrite (dict_get_In label' n' (kv :: d) Hnd Hk).
      destruct Hk as [->|Hk]; [exact Hge | exact (Hall _ Hk)].
    + rewrite dict_get_absent by assumption. lia.
Qed.

(** ** The confirmation rule *)

Lemma printed_since_app s0 s lines :
  stdout s = (stdout s0 ++ lines)%list -> printed_since s0 s = lines.
Proof. unfold printed_since. intros ->. apply drop_app_length. Qed.

Lemma differs_from_true label last :
  last <> Some label -> differs_from label last = true.
Proof.
  destruct last as [l|]; simpl; [|reflexivity].
  intros Hne. destruct (String.eqb_spec label l); [congruence | reflexivity].
Qed.

Lemma differs_from_false label last :
  differs_from label last = false -> last = Some label.
Proof.
  destruct last as [l|]; simpl; [|discriminate].
  destruct (String.eqb_spec label l); [congruence | discriminate].
Qed.

(** C1 (amended). When the most frequent label of the buffer has at
    least 3 observations and differs from [last_confirmed_gesture], the
    check looks the label up in [gesture_text_map].  For a label of the
    table it prints the confirmation, sets [last_confirmed_gesture] to
    the label, passes the mapped text to the callback if one is
    installed, and empties the buffer; for any other label it leaves the
    handler as it was. *)
Theorem check_confirms_mapped_label (s : VisionHandler) (label : string) (count : nat) :
  most_common (gesture_counts (gesture_buffer s)) = Some (label, count) ->
  (3 <= count)%nat ->
  last_confirmed_gesture s <> Some label ->
  let s' := _check_gesture_confirmation s in
  match gesture_text_map !! label with
  | Some text =>
      printed_since s s' =
        GestureConfirmed label text ::
        match gesture_callback s with Some _ => [GestureQueued text] | None => [] end /\
      gesture_text_queue s' =
        (gesture_text_queue s ++
         match gesture_callback s with Some _ => [text] | None => [] end)%list /\
      last_confirmed_gesture s' = Some label /\
      gesture_buffer s' = []
  | None => s' = s
  end.
Proof.
  intros Hmost Hcount Hlast. unfold _check_gesture_confirmation.
  destruct (gesture_buffer s) as [|g buffer] eqn:Hbuf; [discriminate|].
  rewrite Hmost.
  apply Nat.leb_le in Hcount. rewrite Hcount.
  rewrite (differs_from_true _ _ Hlast). simpl.
  destruct (gesture_text_map !! label) as [text|]; [|reflexivity].
  destruct (gesture_callback s) as [[]|] eqn:Hcb; simpl; rewrite ?Hcb; simpl;
    (split; [apply printed_since_app; simpl; now rewrite <- ?app_assoc|]);
    rewrite ?app_nil_r; auto.
Qed.

Lemma check_confirms_mapped_label_witness :
  gesture_text_queue (_check_gesture_confirmation (holding "open_palm")) = ["Привет"]
  /\ last_confirmed_gesture (_check_gesture_confirmation (holding "open_palm"))
     = Some "open_palm"
  /\ gesture_buffer (_check_gesture_confirmation (holding "open_palm")) = [].
Proof.
  assert (H1 : most_common (gesture_counts (gesture_buffer (holding "open_palm")))
               = Some ("open_palm", 3%nat)) by reflexivity.
  assert (H2 : (3 <= 3)%nat) by lia.
  assert (H3 : last_confirmed_gesture (holding "open_palm") <> Some "open_palm")
    by (vm_compute; discriminate).
  pose proof (check_confirms_mapped_label _ _ _ H1 H2 H3) as H.
  change (gesture_text_map !! "open_palm") with (Some "Привет") in H.
  destruct H as (_ & Hq & Hl & Hb). repeat split; assumption.
Defined.

(** C1, as stated, fails: [closed_fist] is the most frequent label of the
    buffer with 3 observations and nothing was confirmed before, yet the
    check neither records the label nor empties the buffer, and nothing
    reaches the queue. *)
Lemma check_ignores_closed_fist :
  most_common (gesture_counts (gesture_buffer (holding "closed_fist")))
    = Some ("closed_fist", 3%nat)
  /\ last_confirmed_gesture (holding "closed_fist") = None
  /\ gesture_callback (holding "closed_fist") = Some on_gesture_confirmed_callback
  /\ last_confirmed_gesture (_check_gesture_confirmation (holding "closed_fist"))
     <> Some "closed_fist"
  /\ gesture_buffer (_check_gesture_confirmation (holding "closed_fist")) <> []
  /\ gesture_text_queue (_check_gesture_confirmation (holding "closed_fist")) = [].
Proof. vm_compute. repeat split; discriminate. Qed.

(** ** How each operation extends standard output *)

Lemma confirmed_labels_app l1 l2 :
  confirmed_labels (l1 ++ l2) = (confirmed_labels l1 ++ confirmed_labels l2)%list.
Proof.
  induction l1 as [|ln l1 IH]; simpl; [reflexivity|].
  destruct ln; simpl; now rewrite IH.
Qed.

(** The [for gesture in gestures] loop only touches the buffer and
    standard output. *)
Lemma buffer_loop current_time gs : forall s,
  let s' := fold_left (buffer_gesture current_time) gs s in
  gesture_buffer s' = (gesture_buffer s ++ map (stamp current_time) gs)%list
  /\ stdout s' = (stdout s ++ map (fun g => GestureSeen (stamp current_time g)) gs)%list
  /\ last_confirmed_gesture s' = last_confirmed_gesture s
  /\ analysis_results s' = analysis_results s
  /\ gesture_callback s' = gesture_callback s
  /\ gesture_text_queue s' = gesture_text_queue s
  /\ is_vision_active s' = is_vision_active s
  /\ is_paused s' = is_paused s.
Proof.
  induction gs as [|g gs IH]; intros s; simpl.
  - rewrite !app_nil_r. tauto.
  - destruct (IH (buffer_gesture current_time s g)) as (H1 & H2 & H3 & H4 & H5 & H6 & H7 & H8).
    simpl in *. rewrite H1, H2, H3, H4, H5, H6, H7, H8, <- !app_assoc. simpl. tauto.
Qed.

Lemma confirmed_labels_seen current_time gs :
  confirmed_labels (map (fun g => GestureSeen (stamp current_time g)) gs) = [].
Proof. induction gs; simpl; auto. Qed.

Lemma step_outcome_silent s s' lines :
  stdout s' = (stdout s ++ lines)%list -> confirmed_labels lines = [] ->
  last_confirmed_gesture s' = last_confirmed_gesture s -> step_outcome s s'.
Proof. intros. exists lines. auto. Qed.

Lemma check_outcome s : step_outcome s (_check_gesture_confirmation s).
Proof.
  assert (Hsame : step_outcome s s).
  { apply (step_outcome_silent s s []); auto. now rewrite app_nil_r. }
  unfold _check_gesture_confirmation.
  destruct (gesture_buffer s); [exact Hsame|].
  destruct (most_common _) as [[label count]|]; [|exact Hsame].
  destruct (3 <=? count)%nat; simpl; [|exact Hsame].
  destruct (differs_from label (last_confirmed_gesture s)) eqn:Hd; [|exact Hsame].
  destruct (gesture_text_map !! label) as [text|]; [|exact Hsame].
  assert (Hne : last_confirmed_gesture s <> Some label).
  { intros Heq. rewrite Heq in Hd. simpl in Hd.
    now rewrite String.eqb_refl in Hd. }
  destruct (gesture_callback s) as [[]|] eqn:Hcb; simpl; rewrite ?Hcb; simpl.
  - exists [GestureConfirmed label text; GestureQueued text]. simpl.
    rewrite <- app_assoc. split; [reflexivity|]. right. exists label. auto.
  - exists [GestureConfirmed label text]. simpl.
    split; [reflexivity|]. right. exists label. auto.
Qed.

Lemma step_outcome_after s s1 s2 pre :
  stdout s1 = (stdout s ++ pre)%list -> confirmed_labels pre = [] ->
  last_confirmed_gesture s1 = last_confirmed_gesture s ->
  step_outcome s1 s2 -> step_outcome s s2.
Proof.
  intros Hout Hpre Hl (lines & Hlines & Hcase).
  exists (pre ++ lines)%list. rewrite Hlines, Hout, <- app_assoc.
  split; [reflexivity|]. rewrite confirmed_labels_app, Hpre, Hl in *. exact Hcase.
Qed.

Lemma step_outcome_before s s1 s2 post :
  step_outcome s s1 ->
  stdout s2 = (stdout s1 ++ post)%list -> confirmed_labels post = [] ->
  last_confirmed_gesture s2 = last_confirmed_gesture s1 -> step_outcome s s2.
Proof.
  intros (lines & Hlines & Hcase) Hout Hpost Hl.
  exists (lines ++ post)%list. rewrite Hout, Hlines, <- app_assoc.
  split; [reflexivity|]. rewrite confirmed_labels_app, Hpost, app_nil_r, Hl.
  exact Hcase.
Qed.

Section EngineFacts.

Context (config : VisionConfig).

Lemma limit_history_fields s :
  stdout (limit_history s) = stdout s /\
  last_confirmed_gesture (limit_history s) = last_confirmed_gesture s.
Proof. unfold limit_history. destruct (_ <? _)%nat; auto. Qed.

Lemma callback_outcome current_time frame s :
  step_outcome s (_frame_analysis_callback config current_time frame s).
Proof.
  unfold _frame_analysis_callback.
  destruct (is_paused s).
  { apply (step_outcome_silent s s []); auto. now rewrite app_nil_r. }
  destruct (_ <? _).
  { apply (step_outcome_silent _ _ [InactivityTimeout; StopFailed]);
      simpl; auto. now rewrite <- !app_assoc. }
  destruct (if gesture_recognition config && recognizer s then detected frame else [])
    as [|g gs] eqn:Hg.
  { apply (step_outcome_silent _ _ []); simpl; auto. now rewrite app_nil_r. }
  match goal with |- step_outcome s (limit_history ?x) =>
    destruct (limit_history_fields x) as [Ho Hl];
    apply (step_outcome_before s x _ []); [|now rewrite app_nil_r|reflexivity|exact Hl]
  end.
  match goal with |- step_outcome s (set_analysis_results _ ?x) =>
    apply (step_outcome_before s x _ []); [|simpl; now rewrite app_nil_r|reflexivity|reflexivity]
  end.
  match goal with |- step_outcome s (_check_gesture_confirmation ?x) =>
    pose proof (check_outcome x) as Hc; set (s1 := x) in *
  end.
  pose proof (buffer_loop current_time (g :: gs)
                (set_last_gesture_time current_time
                   (set_current_gestures (map (stamp current_time) (g :: gs)) s)))
    as (_ & Hout & Hlast & _).
  apply (step_outcome_after s s1 _
           (map (fun g => GestureSeen (stamp current_time g)) (g :: gs)));
    [ | apply confirmed_labels_seen | | exact Hc].
  - subst s1. simpl stdout at 1. exact Hout.
  - subst s1. simpl last_confirmed_gesture at 1. exact Hlast.
Qed.

Lemma step_outcome_event s e :
  is_start e = false -> step_outcome s (step config s e).
Proof.
  destruct e as [c now cb|t f| |now|]; simpl; intros Hs; [discriminate| | | |].
  - apply callback_outcome.
  - apply (step_outcome_silent _ _ [AnalysisPaused]); auto.
  - unfold resume_analysis. destruct (is_vision_active s).
    + apply (step_outcome_silent _ _ [AnalysisResumed]); auto.
    + apply (step_outcome_silent _ _ [AnalysisNotStarted]); auto.
  - apply (step_outcome_silent _ _ [CaptureStopped; AnalysisStopped]); simpl; auto.
    now rewrite <- app_assoc.
Qed.

(** ** No confirmation repeats the previous one *)

Lemma session_inv_step lines s s' :
  session_inv lines s -> step_outcome s s' ->
  exists lines', stdout s' = (stdout s ++ lines')%list /\
                 session_inv (lines ++ lines') s'.
Proof.
  intros [Hnd Hlast] (lines' & Hout & Hcase). exists lines'.
  split; [exact Hout|]. unfold session_inv. rewrite confirmed_labels_app.
  destruct Hcase as [[Hnone Hsame]|(label & Hone & Hne & Hnew)].
  - rewrite Hnone, app_nil_r, Hsame. auto.
  - rewrite Hone. split.
    + apply no_adjacent_dup_snoc; [exact Hnd | congruence].
    + rewrite Hnew. symmetry. apply last_snoc.
Qed.

Lemma session_inv_run events : forall lines s0 s,
  forallb (fun e => negb (is_start e)) events = true ->
  stdout s = (stdout s0 ++ lines)%list ->
  session_inv lines s ->
  exists lines', stdout (run config events s) = (stdout s0 ++ lines')%list /\
                 session_inv lines' (run config events s).
Proof.
  induction events as [|e events IH]; intros lines s0 s Hev Hout Hinv; simpl.
  - exists lines. auto.
  - simpl in Hev. apply andb_true_iff in Hev as [He Hev].
    apply negb_true_iff in He.
    destruct (session_inv_step lines s (step config s e) Hinv
                (step_outcome_event s e He)) as (lines' & Hout' & Hinv').
    apply (IH (lines ++ lines')%list s0); [exact Hev | | exact Hinv'].
    now rewrite Hout', Hout, <- app_assoc.
Qed.

(** A successful start leaves the debounce state reset. *)
Lemma start_resets camera_opens now callback s s1 :
  start_real_time_analysis config camera_opens now callback s = (true, s1) ->
  last_confirmed_gesture s1 = None /\ gesture_buffer s1 = [] /\
  last_gesture_time s1 = now /\ is_vision_active s1 = true.
Proof.
  unfold start_real_time_analysis.
  destruct (negb (real_time_analysis config)); [discriminate|].
  destruct (negb (camera (camera_handler s))); [discriminate|].
  unfold start_capture.
  match goal with |- context [if ?c then (false, _) else _] => destruct c end;
    [discriminate|].
  match goal with |- context [if ?c then (true, _) else _] => destruct c end;
    intros H; injection H as <-; simpl; auto.
Qed.

(** C6. In a run of the engine that begins with a successful start and
    contains no further start, no two consecutive confirmations carry
    the same label.  The run may pause, resume and stop the engine and
    deliver any frames at any clock readings. *)
Theorem no_consecutive_duplicate_confirmation
    (camera_opens : bool) (now : Z) (callback : option Callback)
    (s s1 : VisionHandler) (events : list Event) :
  start_real_time_analysis config camera_opens now callback s = (true, s1) ->
  forallb (fun e => negb (is_start e)) events = true ->
  no_adjacent_dup
    (confirmed_labels (printed_since s1 (run config events s1))).
Proof.
  intros Hstart Hev.
  destruct (start_resets _ _ _ _ _ Hstart) as (Hlast & _).
  destruct (session_inv_run events [] s1 s1 Hev) as (lines & Hout & Hnd & _).
  - now rewrite app_nil_r.
  - split; [exact I | exact Hlast].
  - now rewrite (printed_since_app _ _ _ Hout).
Qed.

(** ** Fields the confirmation check and the history limit leave alone *)

Lemma check_fields s :
  let s' := _check_gesture_confirmation s in
  is_vision_active s' = is_vision_active s /\ is_paused s' = is_paused s /\
  analysis_results s' = analysis_results s /\
  last_gesture_time s' = last_gesture_time s.
Proof.
  unfold _check_gesture_confirmation.
  destruct (gesture_buffer s); [auto|].
  destruct (most_common _) as [[label count]|]; [|auto].
  destruct (_ && _); [|auto].
  destruct (gesture_text_map !! label); [|auto].
  destruct (gesture_callback s) as [[]|] eqn:Hcb; simpl; rewrite ?Hcb; simpl; auto.
Qed.

Lemma occurrences_other label label' buffer :
  Forall (fun g => type g = label) buffer -> label' <> label ->
  occurrences label' buffer = 0%nat.
Proof.
  unfold occurrences. induction 1 as [|g buffer Hg _ IH]; intros Hne; simpl.
  - reflexivity.
  - destruct (String.eqb_spec (type g) label'); [congruence | auto].
Qed.

(** With only observations of the last confirmed label in the buffer,
    the check does nothing. *)
Lemma check_same_label s label :
  last_confirmed_gesture s = Some label ->
  Forall (fun g => type g = label) (gesture_buffer s) ->
  _check_gesture_confirmation s = s.
Proof.
  intros Hlast Hall. unfold _check_gesture_confirmation.
  destruct (gesture_buffer s) as [|g buffer] eqn:Hbuf; [reflexivity|].
  destruct (most_common _) as [[l count]|] eqn:Hmost; [|reflexivity].
  destruct (Nat.leb_spec 3 count) as [Hc|Hc]; simpl; [|reflexivity].
  destruct (most_common_spec _ _ _ Hmost) as [Hcount _].
  destruct (string_dec l label) as [->|Hne].
  - rewrite Hlast. simpl. now rewrite String.eqb_refl.
  - rewrite (occurrences_other label l _ Hall Hne) in Hcount. lia.
Qed.

Lemma held_limit_history label s : held label s -> held label (limit_history s).
Proof. unfold limit_history. destruct (_ <? _)%nat; auto. Qed.

Lemma held_step label s e :
  shows_only label e = true -> held label s -> held label (step config s e).
Proof.
  intros He [Hlast Hall].
  destruct e as [c now cb|t f| |now|]; simpl in *; [discriminate| | | |].
  - unfold _frame_analysis_callback.
    destruct (is_paused s); [split; assumption|].
    destruct (_ <? _); [split; assumption|].
    destruct (if gesture_recognition config && recognizer s then detected f else [])
      as [|g gs] eqn:Hg; [split; assumption|].
    assert (Hgs : Forall (fun g => type g = label) (g :: gs)).
    { rewrite <- Hg. destruct (_ && _); [|constructor].
      apply Forall_forall. intros x Hx.
      rewrite forallb_forall in He. apply list_elem_of_In in Hx.
      apply He in Hx. now apply String.eqb_eq in Hx. }
    apply held_limit_history.
    match goal with |- held label (set_analysis_results _ ?x) =>
      cut (held label x); [intros [? ?]; split; assumption|]
    end.
    match goal with |- held label (_check_gesture_confirmation ?x) =>
      assert (Hx : held label x)
    end.
    { pose proof (buffer_loop t (g :: gs)
                    (set_last_gesture_time t
                       (set_current_gestures (map (stamp t) (g :: gs)) s)))
        as (Hbuf & _ & Hl & _).
      unfold set_gesture_buffer at 1.
      split; cbn [last_confirmed_gesture gesture_buffer];
        [rewrite Hl; exact Hlast|].
      rewrite Hbuf.
      apply Forall_forall. intros x Hx. apply list_elem_of_In in Hx.
      apply filter_In in Hx as [Hx _]. apply in_app_or in Hx as [Hx|Hx].
      - rewrite Forall_forall in Hall. apply Hall. now apply list_elem_of_In.
      - apply in_map_iff in Hx as (y & <- & Hy). simpl.
        rewrite Forall_forall in Hgs. apply Hgs. now apply list_elem_of_In. }
    destruct Hx as [Hxl Hxa]. rewrite (check_same_label _ label Hxl Hxa).
    split; assumption.
  - split; assumption.
  - unfold resume_analysis. destruct (is_vision_active s); split; simpl; auto.
  - split; assumption.
Qed.

Lemma shows_only_not_start label e : shows_only label e = true -> is_start e = false.
Proof. destruct e; simpl; congruence. Qed.

Lemma held_run label events : forall s,
  forallb (shows_only label) events = true -> held label s ->
  held label (run config events s) /\
  exists lines, stdout (run config events s) = (stdout s ++ lines)%list /\
                confirmed_labels lines = [].
Proof.
  induction events as [|e events IH]; intros s Hev Hheld; simpl.
  - split; [exact Hheld|]. exists []. now rewrite app_nil_r.
  - simpl in Hev. apply andb_true_iff in Hev as [He Hev].
    pose proof (held_step label s e He Hheld) as Hheld'.
    destruct (IH _ Hev Hheld') as (Hfinal & lines & Hout & Hnone).
    split; [exact Hfinal|].
    destruct (step_outcome_event s e (shows_only_not_start _ _ He))
      as (lines0 & Hout0 & [[Hnone0 _]|(l & _ & Hne & Hnew)]).
    + exists (lines0 ++ lines)%list.
      rewrite confirmed_labels_app, Hnone0, Hnone, Hout, Hout0, <- app_assoc. auto.
    + destruct Hheld as [Hl _]. destruct Hheld' as [Hl' _]. congruence.
Qed.

(** C3 (amended). [resume_analysis] after [pause_analysis], on an engine
    whose analysis is active, clears the pause flag, empties the gesture
    buffer and restarts the inactivity timer at the resume instant, and
    it keeps [last_confirmed_gesture].  A gesture held through the pause
    whose label is the last confirmed one is therefore not confirmed
    again after resuming, however long it is shown. *)
Theorem resume_keeps_last_confirmed (now : Z) (s : VisionHandler) :
  is_vision_active s = true ->
  let s' := resume_analysis now (pause_analysis s) in
  is_paused s' = false /\ gesture_buffer s' = [] /\ last_gesture_time s' = now /\
  last_confirmed_gesture s' = last_confirmed_gesture s /\
  forall label events,
    last_confirmed_gesture s = Some label ->
    forallb (shows_only label) events = true ->
    confirmed_labels (printed_since s' (run config events s')) = [] /\
    last_confirmed_gesture (run config events s') = Some label.
Proof.
  intros Hact. unfold resume_analysis, pause_analysis. simpl. rewrite Hact. simpl.
  repeat (split; [reflexivity|]).
  intros label events Hlast Hev.
  match goal with |- context [run config events ?x] => set (s' := x) end.
  assert (Hheld : held label s') by (split; [exact Hlast | constructor]).
  destruct (held_run label events s' Hev Hheld) as ([Hl _] & lines & Hout & Hnone).
  split; [|exact Hl]. now rewrite (printed_since_app _ _ _ Hout).
Qed.

(** ** The pause between a chat request and its answer *)

(** C7. Two chat requests started back to back pause the engine once:
    the second prologue finds the engine paused, computes
    [gesture_was_active = False] and changes nothing; and when the two
    answers finish, in either order, the [finally] block of the second
    request changes nothing either, so the handler is as after one
    request.  On the engine itself a second [pause_analysis] leaves the
    debounce state as the first did, and running a [finally] block twice
    with the same flag leaves the debounce state as running it once, at
    the clock reading of the second run. *)
Theorem generation_bracket_idempotent (s : VisionHandler) (now now' : Z) :
  let (f1, s1) := beginGeneration s in
  let (f2, s2) := beginGeneration s1 in
  (f2 = false /\ s2 = s1) /\
  (endGeneration f2 now' (endGeneration f1 now s2) = endGeneration f1 now s1 /\
   endGeneration f1 now (endGeneration f2 now' s2) = endGeneration f1 now s1) /\
  engine_state (pause_analysis (pause_analysis s)) = engine_state (pause_analysis s) /\
  forall f,
    engine_state (endGeneration f now' (endGeneration f now s))
    = engine_state (endGeneration f now' s).
Proof.
  unfold beginGeneration.
  destruct (is_vision_active s) eqn:Hact; destruct (is_paused s) eqn:Hp; simpl;
    rewrite ?Hact, ?Hp; simpl;
    (split; [auto|]); (split; [auto|]); (split; [reflexivity|]);
    intros [|]; unfold endGeneration, resume_analysis; simpl; rewrite ?Hact; simpl;
    rewrite ?Hact; reflexivity.
Qed.

(** ** Inactivity and the pause *)

Lemma callback_paused current_time frame s :
  is_paused s = true -> _frame_analysis_callback config current_time frame s = s.
Proof. unfold _frame_analysis_callback. now intros ->. Qed.

Lemma run_paused frames : forall s,
  is_paused s = true -> run config (map frame_event frames) s = s.
Proof.
  induction frames as [|[t f] frames IH]; intros s Hp; simpl; [reflexivity|].
  rewrite (callback_paused t f s Hp). apply IH, Hp.
Qed.

(** Unless the inactivity rule fires, a frame leaves [is_vision_active]
    as it was. *)
Lemma callback_keeps_active current_time frame s :
  is_paused s = false ->
  (gesture_inactivity_timeout config <? current_time - last_gesture_time s) = false ->
  is_vision_active (_frame_analysis_callback config current_time frame s)
    = is_vision_active s.
Proof.
  intros Hp Ht. unfold _frame_analysis_callback. rewrite Hp, Ht.
  destruct (if gesture_recognition config && recognizer s then detected frame else [])
    as [|g gs]; [reflexivity|].
  unfold limit_history. 
  match goal with |- context [_check_gesture_confirmation ?x] =>
    destruct (check_fields x) as (Ha & _); set (s1 := x) in *
  end.
  pose proof (buffer_loop current_time (g :: gs)
                (set_last_gesture_time current_time
                   (set_current_gestures (map (stamp current_time) (g :: gs)) s)))
    as (_ & _ & _ & _ & _ & _ & Hact & _).
  destruct (_ <? _)%nat; simpl; rewrite Ha; subst s1; simpl; exact Hact.
Qed.

(** C9. While the engine is paused every frame leaves the handler
    untouched, whatever the clock reads, so the inactivity rule cannot
    stop the analysis during a pause.  [resume_analysis] sets
    [last_gesture_time] to the resume instant, and from then on a frame
    stops the analysis exactly when it arrives more than
    [gesture_inactivity_timeout] after that instant. *)
Theorem paused_engine_never_times_out (s : VisionHandler) :
  is_paused s = true ->
  (forall frames, run config (map frame_event frames) s = s) /\
  (is_vision_active s = true ->
   forall now,
     let s' := resume_analysis now s in
     last_gesture_time s' = now /\
     forall current_time frame,
       is_vision_active (_frame_analysis_callback config current_time frame s') = false
       <-> gesture_inactivity_timeout config < current_time - now).
Proof.
  intros Hp. split; [intros frames; now apply run_paused|].
  intros Hact now. unfold resume_analysis. rewrite Hact. simpl.
  split; [reflexivity|]. intros current_time frame.
  match goal with |- context [_frame_analysis_callback _ _ _ ?x] => set (s' := x) end.
  destruct (Z.ltb_spec (gesture_inactivity_timeout config) (current_time - now))
    as [Hlt|Hge].
  - split; [intros _; exact Hlt|]. intros _.
    unfold _frame_analysis_callback. simpl.
    apply Z.ltb_lt in Hlt. now rewrite Hlt.
  - rewrite callback_keeps_active; [simpl; rewrite Hact | reflexivity |].
    + split; [discriminate | lia].
    + simpl. now apply Z.ltb_ge.
Qed.

(** ** The analysis history *)

Lemma callback_history_bound current_time frame s :
  (length (analysis_results s) <= 20)%nat ->
  (length (analysis_results (_frame_analysis_callback config current_time frame s))
   <= 20)%nat.
Proof.
  intros Hlen. unfold _frame_analysis_callback.
  destruct (is_paused s); [exact Hlen|].
  destruct (_ <? _); [exact Hlen|].
  destruct (if gesture_recognition config && recognizer s then detected frame else [])
    as [|g gs]; [exact Hlen|].
  match goal with |- context [_check_gesture_confirmation ?x] =>
    destruct (check_fields x) as (_ & _ & Hres & _); set (s1 := x) in *
  end.
  pose proof (buffer_loop current_time (g :: gs)
                (set_last_gesture_time current_time
                   (set_current_gestures (map (stamp current_time) (g :: gs)) s)))
    as (_ & _ & _ & Hres' & _).
  assert (Hs1 : analysis_results (_check_gesture_confirmation s1) = analysis_results s).
  { rewrite Hres. subst s1. simpl. exact Hres'. }
  unfold limit_history. cbn [analysis_results set_analysis_results]. rewrite Hs1.
  match goal with |- context [Nat.ltb 20 ?n] =>
    destruct (Nat.ltb_spec 20 n) as [Hgt|Hle]
  end; cbn [analysis_results set_analysis_results].
  - rewrite length_app in Hgt. simpl in Hgt.
    destruct (analysis_results s); simpl in *; [lia|].
    rewrite length_app. simpl. lia.
  - exact Hle.
Qed.

Lemma step_history_bound s e :
  (length (analysis_results s) <= 20)%nat ->
  (length (analysis_results (step config s e)) <= 20)%nat.
Proof.
  intros Hlen. destruct e as [c now cb|t f| |now|]; simpl.
  - unfold start_real_time_analysis.
    destruct (negb (real_time_analysis config)); [exact Hlen|].
    destruct (negb (camera (camera_handler s))); [exact Hlen|].
    unfold start_capture.
    destruct cb; destruct (recognizer s);
      repeat match goal with |- context [if ?c then _ else _] => destruct c end;
      simpl; exact Hlen.
  - now apply callback_history_bound.
  - exact Hlen.
  - unfold resume_analysis. destruct (is_vision_active s); exact Hlen.
  - exact Hlen.
Qed.

(** C10. After every frame the stored analysis history holds at most 20
    entries: this is so in every state the handler reaches from its
    construction, whatever the events, and [get_recent_analysis]
    therefore returns at most 20 entries for any [count]. *)
Theorem analysis_history_bounded
    (camera_opens model_loads : bool) (now : Z) (events : list Event) :
  let s := run config events (init camera_opens model_loads now) in
  (length (analysis_results s) <= 20)%nat /\
  forall count, (length (get_recent_analysis count s) <= 20)%nat.
Proof.
  assert (H : forall evs s, (length (analysis_results s) <= 20)%nat ->
                (length (analysis_results (run config evs s)) <= 20)%nat).
  { induction evs as [|e evs IH]; intros s Hs; simpl; [exact Hs|].
    apply IH. now apply step_history_bound. }
  simpl. specialize (H events (init camera_opens model_loads now)).
  assert (Hb := H ltac:(simpl; lia)). split; [exact Hb|].
  intros count. unfold get_recent_analysis.
  destruct (0 <? count); rewrite length_drop; lia.
Qed.

End EngineFacts.


(** ** The theorems at work on the scenario data *)

Example demo_session_confirmations :
  confirmed_labels (printed_since started (run default_config demo_session started))
  = ["open_palm"; "victory"; "open_palm"]
  /\ gesture_text_queue (run default_config demo_session started)
     = ["Привет"; "Победа"; "Привет"].
Proof. vm_compute. split; reflexivity. Qed.

(** The stream [open_palm, open_palm, closed_fist, open_palm, open_palm]
    inside one confirmation window: [open_palm] is confirmed at its
    third observation, the buffer is emptied, and the observations that
    follow confirm nothing. *)
Example alternating_stream_confirms_once :
  let events :=
    [EFrame 1100 (seen "open_palm"); EFrame 1200 (seen "open_palm");
     EFrame 1300 (seen "closed_fist"); EFrame 1400 (seen "open_palm")] in
  gesture_text_queue (run default_config events started) = ["Привет"]
  /\ gesture_buffer (run default_config events started) = []
  /\ gesture_text_queue
       (run default_config (events ++ show "open_palm" 1500) started) = ["Привет"].
Proof. vm_compute. repeat split; reflexivity. Qed.

Lemma no_consecutive_duplicate_confirmation_witness :
  no_adjacent_dup
    (confirmed_labels (printed_since started (run default_config demo_session started))).
Proof.
  apply (no_consecutive_duplicate_confirmation default_config true 1000 None
           (set_gesture_callback (Some on_gesture_confirmed_callback)
              (init true true 0)) started demo_session);
    reflexivity.
Defined.

Lemma resume_keeps_last_confirmed_witness :
  last_confirmed_gesture (resume_analysis 3000 (pause_analysis greeted))
    = Some "open_palm"
  /\ confirmed_labels
       (printed_since (resume_analysis 3000 (pause_analysis greeted))
          (run default_config (show "open_palm" 3100)
             (resume_analysis 3000 (pause_analysis greeted)))) = [].
Proof.
  assert (Hact : is_vision_active greeted = true) by reflexivity.
  destruct (resume_keeps_last_confirmed default_config 3000 greeted Hact)
    as (_ & _ & _ & Hsame & Hheld).
  split.
  - rewrite Hsame. reflexivity.
  - apply (Hheld "open_palm" (show "open_palm" 3100)); reflexivity.
Defined.

(** C3, as stated, fails: [open_palm] was confirmed before the pause;
    after [pause_analysis] and [resume_analysis] the engine still holds
    it as [last_confirmed_gesture], and three further observations of the
    held gesture put no second text into the queue. *)
Lemma resume_does_not_clear_last_confirmed :
  is_vision_active greeted = true
  /\ gesture_text_queue greeted = ["Привет"]
  /\ last_confirmed_gesture (resume_analysis 3000 (pause_analysis greeted)) <> None
  /\ gesture_text_queue
       (run default_config (show "open_palm" 3100)
          (resume_analysis 3000 (pause_analysis greeted))) = ["Привет"].
Proof. vm_compute. repeat split; discriminate. Qed.

Lemma paused_engine_never_times_out_witness :
  run default_config
    (map frame_event [(100000, seen "open_palm"); (200000, empty_frame)])
    (pause_analysis greeted) = pause_analysis greeted
  /\ (is_vision_active
        (_frame_analysis_callback default_config 307001 (seen "victory")
           (resume_analysis 300000 (pause_analysis greeted))) = false
      <-> 7000 < 307001 - 300000).
Proof.
  assert (Hp : is_paused (pause_analysis greeted) = true) by reflexivity.
  destruct (paused_engine_never_times_out default_config (pause_analysis greeted) Hp)
    as [Hrun Hresume].
  split; [apply Hrun|].
  assert (Hact : is_vision_active (pause_analysis greeted) = true) by reflexivity.
  destruct (Hresume Hact 300000) as [_ Hiff]. apply Hiff.
Defined.

End VisionFacts.

(** * Facts about the voice activity segmenter *)
Module AudioFacts.
Import Audio.

Lemma long_enough_ltb (segment : list Chunk) :
  (length segment <? 10)%nat = negb (long_enough segment).
Proof.
  unfold long_enough.
  destruct (Nat.ltb_spec (length segment) 10), (Nat.leb_spec 10 (length segment));
    simpl; auto; lia.
Qed.

(** [_process_recorded_audio] always returns; it hands the buffer to the
    recogniser when it holds at least 10 frames (and a recogniser
    exists), and it leaves the session as it was. *)
Lemma process_effect (r : Recognition) (s : AudioHandler) :
  exists s',
    _process_recorded_audio r s = (Returned tt, s') /\ same_session s s' /\
    requests s' =
      (requests s ++
       if long_enough (audio_frames s) && recognizer s then [audio_frames s] else [])%list.
Proof.
  unfold _process_recorded_audio, bind, read_field, try_except, ret.
  rewrite long_enough_ltb.
  destruct (long_enough (audio_frames s)); simpl.
  2:{ exists s. rewrite app_nil_r. unfold same_session. tauto. }
  destruct (recognizer s) eqn:Hr; simpl.
  2:{ exists s. rewrite app_nil_r. unfold same_session. tauto. }
  unfold recognize_google, call_on_text_recognized, update, raise.
  destruct r as [text|e]; simpl.
  - destruct (String.eqb text ""); simpl.
    + eexists. split; [reflexivity|]. unfold same_session. simpl. tauto.
    + simpl. destruct (_on_text_recognized s) eqn:Hcb; simpl;
        (eexists; split; [reflexivity|]); unfold same_session; simpl; tauto.
  - destruct e; simpl; (eexists; split; [reflexivity|]);
      unfold same_session; simpl; tauto.
Qed.

(** A failure of the recogniser is caught inside
    [_process_recorded_audio]: the text queue is left alone and, when
    the recogniser was called, one line reports the failure. *)
Lemma process_failure (e : Exception) (s : AudioHandler) :
  exists s',
    _process_recorded_audio (Fails e) s = (Returned tt, s') /\
    recognized_text_queue s' = recognized_text_queue s /\
    stdout s' =
      (stdout s ++
       if long_enough (audio_frames s) && recognizer s then [error_line e] else [])%list.
Proof.
  unfold _process_recorded_audio, bind, read_field, try_except, ret.
  rewrite long_enough_ltb.
  destruct (long_enough (audio_frames s)); simpl.
  2:{ exists s. now rewrite app_nil_r. }
  destruct (recognizer s) eqn:Hr; simpl.
  2:{ exists s. now rewrite app_nil_r. }
  destruct e; simpl; (eexists; split; [reflexivity|]); simpl; auto.
Qed.

Section SessionFacts.

Context (volume_threshold silence_threshold inactivity_timeout : Z)
        (np pyaudio : bool)
        (device_raises : DeviceCall -> bool).

Local Abbreviation loud := (loud volume_threshold).
Local Abbreviation quiet := (quiet volume_threshold).
Local Abbreviation stop_listening := (stop_listening device_raises).
Local Abbreviation loop_body :=
  (loop_body volume_threshold silence_threshold inactivity_timeout device_raises).
Local Abbreviation recording_step :=
  (recording_step volume_threshold silence_threshold inactivity_timeout device_raises).
Local Abbreviation recording_worker :=
  (recording_worker volume_threshold silence_threshold inactivity_timeout device_raises).
Local Abbreviation start_listening := (start_listening np pyaudio device_raises).
Local Abbreviation trailing_silence := (trailing_silence volume_threshold).
Local Abbreviation spec_speech_then_silence :=
  (spec_speech_then_silence volume_threshold silence_threshold).
Local Abbreviation spec_segments := (spec_segments volume_threshold silence_threshold).
Local Abbreviation spec_pending := (spec_pending volume_threshold silence_threshold).
Local Abbreviation confirmed_at_end :=
  (confirmed_at_end volume_threshold silence_threshold).
Local Abbreviation hands_over := (hands_over volume_threshold silence_threshold).
Local Abbreviation absorb := (absorb volume_threshold silence_threshold).
Local Abbreviation conclude := (conclude inactivity_timeout device_raises).
Local Abbreviation first_quiet := (first_quiet volume_threshold).
Local Abbreviation tracks := (tracks volume_threshold).
Local Abbreviation pending_after := (pending_after volume_threshold silence_threshold).
Local Abbreviation silent_within := (silent_within volume_threshold inactivity_timeout).

(** ** One turn of the loop, in two halves *)

Lemma loop_body_halves (tk : Tick) (l : Locals) (s : AudioHandler) :
  audio_stream s = true -> is_Some (read tk) ->
  loop_body tk l s = conclude tk (fst (absorb tk l s)) (snd (absorb tk l s)).
Proof.
  intros Hstream [c Hread].
  unfold loop_body, absorb, hands_over, next_silence_start, Audio.quiet, Audio.loud,
    chunk_of, stream_read, conclude.
  unfold bind at 1. unfold bind at 1. unfold read_field at 1.
  rewrite Hstream, Hread. change (default [] (Some c)) with c. cbn [ret].
  unfold bind at 1. unfold update at 1. unfold bind at 1.
  destruct (exceeds (volume c) volume_threshold); cbn [negb andb].
  - reflexivity.
  - set (ss := if has_speech l && is_none (silence_start l) then Some (now tk)
               else silence_start l).
    destruct (truthy ss); cbn [andb]; [|reflexivity].
    destruct (silence_threshold <=? now tk - default 0 ss); cbn [andb]; [|reflexivity].
    destruct (has_speech l); cbn [andb has_speech]; [|reflexivity].
    unfold bind at 1. unfold update at 1. unfold bind at 1.
    destruct (process_effect (recognition tk)
                (print PauseDetected (set_audio_frames (audio_frames s ++ [c]) s)))
      as (s' & Heq & _).
    rewrite Heq. reflexivity.
Qed.

(** ** [stop_listening] *)

(** [stop_listening] always returns, leaves the session not listening,
    and touches neither the frame buffer nor the recogniser's log. *)
Lemma stop_listening_effect (s : AudioHandler) :
  exists r s',
    stop_listening s = (Returned r, s') /\
    (is_listening s = true -> is_listening s' = false) /\
    requests s' = requests s /\ audio_frames s' = audio_frames s /\
    recognized_text_queue s' = recognized_text_queue s.
Proof.
  unfold Audio.stop_listening, bind, read_field, try_except, ret, update, call_device.
  destruct (is_listening s) eqn:Hl; simpl.
  2:{ exists None, s. split; [reflexivity|]. split; [discriminate|auto]. }
  repeat (match goal with |- context [if ?c then _ else _] => destruct c end; simpl);
    (do 2 eexists; split; [reflexivity|]); simpl; auto.
Qed.

(** With a PyAudio that does not raise, stopping a listening session
    stops and closes the stream, terminates the PyAudio instance and
    reports it, each once. *)
Lemma stop_listening_releases (s : AudioHandler) :
  device_raises StopStream = false -> device_raises CloseStream = false ->
  device_raises Terminate = false ->
  is_listening s = true -> audio_stream s = true -> pyaudio_instance s = true ->
  exists s',
    stop_listening s = (Returned (Some "Запись остановлена"), s') /\
    is_listening s' = false /\ audio_stream s' = false /\
    pyaudio_instance s' = false /\
    device s' = (device s ++ [StopStream; CloseStream; Terminate])%list /\
    stdout s' = (stdout s ++ [RecordingStopped])%list /\
    requests s' = requests s /\ audio_frames s' = audio_frames s /\
    last_speech_time s' = last_speech_time s.
Proof.
  intros H1 H2 H3 Hl Hs Hp.
  unfold Audio.stop_listening, bind, read_field, try_except, ret, update, call_device.
  rewrite Hl. simpl. rewrite Hs, H1. simpl. rewrite H2. simpl. rewrite Hp. simpl.
  rewrite H3. simpl. eexists. split; [reflexivity|]. simpl.
  rewrite <- !app_assoc. simpl. tauto.
Qed.

(** A second call finds [is_listening] false and does nothing. *)
Lemma stop_listening_again (s : AudioHandler) :
  is_listening s = false -> stop_listening s = (Returned None, s).
Proof.
  intros Hl. unfold Audio.stop_listening, bind, read_field, ret. now rewrite Hl.
Qed.

(** ** The inactivity rule *)

Lemma conclude_continue (tk : Tick) (l : Locals) (s : AudioHandler) (t : Z) :
  last_speech_time s = Some t -> now tk - t <= inactivity_timeout ->
  conclude tk l s = (Returned (l, Continue), s).
Proof.
  intros Hlast Hle. unfold conclude, inactive, bind, read_field, ret.
  rewrite Hlast. simpl.
  destruct (Z.ltb_spec inactivity_timeout (now tk - t)); [lia | reflexivity].
Qed.

Lemma conclude_break (tk : Tick) (l : Locals) (s : AudioHandler) (t : Z) :
  last_speech_time s = Some t -> inactivity_timeout < now tk - t ->
  conclude tk l s =
    (Returned (l, Break), snd (stop_listening (print InactivityTimeout s))).
Proof.
  intros Hlast Hlt. unfold conclude, inactive, bind, read_field, ret.
  rewrite Hlast. simpl.
  destruct (Z.ltb_spec inactivity_timeout (now tk - t)); [|lia].
  unfold update. simpl.
  destruct (stop_listening_effect (print InactivityTimeout s)) as (r & s' & Heq & _).
  now rewrite Heq.
Qed.

(** A turn whose [read] succeeds on an open stream, with a
    [last_speech_time] to compare with, raises nothing. *)
Lemma recording_step_halves (tk : Tick) (l : Locals) (s : AudioHandler) :
  audio_stream s = true -> is_Some (read tk) ->
  is_Some (last_speech_time (snd (absorb tk l s))) ->
  recording_step tk l s = conclude tk (fst (absorb tk l s)) (snd (absorb tk l s)).
Proof.
  intros Hs Hr [t Ht]. unfold Audio.recording_step, try_except.
  rewrite (loop_body_halves tk l s Hs Hr).
  destruct (Z.ltb_spec inactivity_timeout (now tk - t)).
  - now rewrite (conclude_break _ _ _ t Ht).
  - now rewrite (conclude_continue _ _ _ t Ht).
Qed.

(** What [absorb] does to the fields of the session. *)
Lemma absorb_fields (tk : Tick) (l : Locals) (s : AudioHandler) :
  let s' := snd (absorb tk l s) in
  is_listening s' = is_listening s /\ audio_stream s' = audio_stream s /\
  pyaudio_instance s' = pyaudio_instance s /\ recognizer s' = recognizer s /\
  device s' = device s /\
  last_speech_time s' =
    (if loud tk || hands_over tk l then Some (now tk) else last_speech_time s) /\
  audio_frames s' =
    (if negb (loud tk) && hands_over tk l then []
     else audio_frames s ++ [chunk_of tk])%list /\
  requests s' =
    (requests s ++
     if negb (loud tk) && hands_over tk l
        && long_enough (audio_frames s ++ [chunk_of tk]) && recognizer s
     then [(audio_frames s ++ [chunk_of tk])%list] else [])%list.
Proof.
  unfold absorb. destruct (loud tk); simpl.
  { rewrite app_nil_r. tauto. }
  destruct (hands_over tk l); simpl.
  2:{ rewrite app_nil_r. tauto. }
  destruct (process_effect (recognition tk)
              (print PauseDetected
                 (set_audio_frames (audio_frames s ++ [chunk_of tk]) s)))
    as (s' & Heq & (H1 & H2 & H3 & H4 & H5 & H6 & H7 & H8 & H9) & Hreq).
  rewrite Heq. simpl in *. rewrite H2, H3, H4, H7, H9, Hreq. tauto.
Qed.

(** ** The segmentation rule of the design document *)

Lemma trailing_silence_snoc (history : list Tick) (tk : Tick) :
  trailing_silence (history ++ [tk]) =
  if loud tk then [] else (trailing_silence history ++ [tk])%list.
Proof.
  induction history as [|a history IH].
  - simpl. unfold Audio.quiet. destruct (loud tk); reflexivity.
  - change ((a :: history) ++ [tk])%list with (a :: (history ++ [tk]))%list.
    cbn [Audio.trailing_silence]. rewrite IH.
    change (a :: (history ++ [tk]))%list with ((a :: history) ++ [tk])%list.
    rewrite forallb_app. cbn [forallb].
    assert (Hq : quiet tk = negb (loud tk)) by reflexivity. rewrite Hq.
    destruct (loud tk); cbn [negb andb].
    + rewrite andb_false_r. reflexivity.
    + rewrite !andb_true_r. destruct (quiet a && forallb quiet history); reflexivity.
Qed.

Lemma trailing_silence_incl (history : list Tick) :
  incl (trailing_silence history) history.
Proof.
  induction history as [|a history IH]; [intros x []|].
  cbn [Audio.trailing_silence].
  destruct (forallb quiet (a :: history)); [apply incl_refl|].
  now apply incl_tl.
Qed.

Lemma spec_segments_step (pending : list Tick) (tk : Tick) (rest : list Tick) :
  spec_segments pending (tk :: rest) =
  if spec_speech_then_silence (pending ++ [tk])
  then map chunk_of (pending ++ [tk]) :: spec_segments [] rest
  else spec_segments (pending ++ [tk]) rest.
Proof. reflexivity. Qed.

Lemma spec_pending_step (pending : list Tick) (tk : Tick) (rest : list Tick) :
  spec_pending pending (tk :: rest) =
  if spec_speech_then_silence (pending ++ [tk])
  then spec_pending [] rest
  else spec_pending (pending ++ [tk]) rest.
Proof. reflexivity. Qed.

(** The segments and the pending turns partition the stream: every
    frame lies in one segment at most. *)
Lemma spec_segments_partition (ticks : list Tick) : forall pending,
  (concat (spec_segments pending ticks) ++ map chunk_of (spec_pending pending ticks))%list
  = map chunk_of (pending ++ ticks).
Proof.
  induction ticks as [|tk rest IH]; intros pending.
  - simpl. now rewrite app_nil_r.
  - rewrite spec_segments_step, spec_pending_step.
    replace (pending ++ tk :: rest)%list with ((pending ++ [tk]) ++ rest)%list
      by now rewrite <- app_assoc.
    destruct (spec_speech_then_silence (pending ++ [tk])).
    + cbn [concat]. rewrite <- app_assoc, IH. simpl. symmetry. apply map_app.
    + apply IH.
Qed.

(** ** The loop implements the rule *)

Lemma truthy_nonzero (t : Z) : t <> 0 -> truthy (Some t) = true.
Proof. intros H. simpl. now destruct (Z.eqb_spec t 0). Qed.

(** The test of the loop is the rule of the design document. *)
Lemma hands_over_spec (pending : list Tick) (tk : Tick) (l : Locals) (s : AudioHandler) :
  tracks pending l s -> now tk <> 0 ->
  hands_over tk l = spec_speech_then_silence (pending ++ [tk]) /\
  (loud tk = false -> has_speech l = true ->
   Some (now tk) <> None /\
   next_silence_start tk l = first_quiet (pending ++ [tk])).
Proof.
  intros (_ & _ & _ & _ & Hhs & Hss & Hnz) Hnow.
  unfold hands_over, Audio.spec_speech_then_silence, next_silence_start, first_quiet.
  rewrite trailing_silence_snoc, existsb_app, last_snoc. cbn [existsb].
  unfold Audio.quiet. rewrite Hhs, Hss, orb_false_r.
  destruct (loud tk) eqn:Hloud; cbn [negb andb].
  { rewrite andb_false_r. split; [reflexivity | discriminate]. }
  rewrite orb_false_r.
  destruct (existsb loud pending) eqn:Hex; cbn [andb].
  2:{ rewrite andb_false_r. split; [reflexivity | discriminate]. }
  rewrite andb_true_r. unfold first_quiet.
  destruct (trailing_silence pending) as [|f r] eqn:Htr; cbn [head option_map is_none app].
  - rewrite (truthy_nonzero _ Hnow). split; [reflexivity|].
    intros _ _. split; [discriminate | reflexivity].
  - assert (Hf : now f <> 0).
    { rewrite Forall_forall in Hnz. apply Hnz. apply list_elem_of_In.
      apply (trailing_silence_incl pending). rewrite Htr. now left. }
    rewrite (truthy_nonzero _ Hf). split; [reflexivity|].
    intros _ _. split; [discriminate | reflexivity].
Qed.

Lemma spec_loud_no_segment (pending : list Tick) (tk : Tick) :
  loud tk = true -> spec_speech_then_silence (pending ++ [tk]) = false.
Proof.
  intros Hl. unfold Audio.spec_speech_then_silence.
  rewrite trailing_silence_snoc, Hl. cbn [head]. apply andb_false_r.
Qed.

Lemma absorb_tracks (pending : list Tick) (tk : Tick) (l : Locals) (s : AudioHandler) :
  tracks pending l s -> now tk <> 0 ->
  tracks (pending_after pending tk) (fst (absorb tk l s)) (snd (absorb tk l s)).
Proof.
  intros Htr Hnow.
  destruct (hands_over_spec pending tk l s Htr Hnow) as [Hspec Hnext].
  destruct (absorb_fields tk l s) as (_ & Hstream & _ & Hrec & _ & Hlast & Hframes & _).
  destruct Htr as (Hs & Hr & Hl & Hf & Hhs & Hss & Hnz).
  unfold tracks, pending_after. rewrite Hstream, Hrec, Hlast, Hframes.
  split; [exact Hs|]. split; [exact Hr|].
  split; [destruct (loud tk || hands_over tk l); [eexists; reflexivity | exact Hl]|].
  unfold absorb. rewrite <- Hspec.
  destruct (loud tk) eqn:Hloud; cbn [negb andb fst].
  - assert (Hno := spec_loud_no_segment pending tk Hloud). rewrite <- Hspec in Hno.
    rewrite Hno. cbn [has_speech silence_start].
    rewrite existsb_app. cbn [existsb]. rewrite Hloud. cbn [orb].
    rewrite orb_true_r.
    unfold first_quiet. rewrite trailing_silence_snoc, Hloud. cbn [head option_map].
    rewrite Hf, map_app. repeat split; auto.
    apply Forall_app. split; [exact Hnz | now constructor].
  - destruct (hands_over tk l) eqn:Hh; cbn [fst has_speech silence_start fresh_locals].
    + repeat split; auto.
    + rewrite existsb_app. cbn [existsb]. rewrite Hloud. cbn [orb].
      rewrite !orb_false_r, <- Hhs.
      rewrite Hf, map_app. repeat split; auto.
      * destruct (has_speech l) eqn:Hsp.
        -- now destruct (Hnext eq_refl eq_refl) as [_ ->].
        -- unfold next_silence_start. rewrite Hsp. cbn [andb].
           rewrite Hss, <- Hhs. reflexivity.
      * apply Forall_app. split; [exact Hnz | now constructor].
Qed.

(** ** Runs of the recording thread *)

Lemma worker_stopped (ticks : list Tick) (l : Locals) (s : AudioHandler) :
  is_listening s = false ->
  recording_worker ticks l s = (0%nat, Exited, print RecordingFinished s).
Proof. intros H. destruct ticks; simpl; now rewrite H. Qed.

Lemma worker_turn (tk : Tick) (rest : list Tick) (l : Locals) (s : AudioHandler) :
  is_listening s = true ->
  recording_worker (tk :: rest) l s =
  match recording_step tk l s with
  | (Returned (l', Continue), s') =>
      let '(n, status, s'') := recording_worker rest l' s' in (S n, status, s'')
  | (_, s') => (1%nat, Exited, print RecordingFinished s')
  end.
Proof. intros H. simpl. now rewrite H. Qed.

(** What a turn of a tracked session does: it hands the buffer to the
    recogniser exactly when the rule says so and the buffer holds at
    least 10 frames, and it either goes on, tracking the turns pending
    from then on, or leaves the loop. *)
Lemma recording_step_tracks (pending : list Tick) (tk : Tick) (l : Locals)
    (s : AudioHandler) :
  tracks pending l s -> delivers tk ->
  exists l' c s',
    recording_step tk l s = (Returned (l', c), s') /\
    requests s' =
      (requests s ++
       List.filter long_enough
         (if spec_speech_then_silence (pending ++ [tk])
          then [map chunk_of (pending ++ [tk])] else []))%list /\
    audio_frames s' = map chunk_of (pending_after pending tk) /\
    (c = Continue -> tracks (pending_after pending tk) l' s' /\
                     is_listening s' = is_listening s).
Proof.
  intros Htr [Hread Hnow].
  pose proof (absorb_tracks pending tk l s Htr Hnow) as Htr'.
  destruct (hands_over_spec pending tk l s Htr Hnow) as [Hspec _].
  destruct (absorb_fields tk l s) as (Hlis & _ & _ & _ & _ & _ & _ & Hreq).
  assert (Hl : is_Some (last_speech_time (snd (absorb tk l s)))) by apply Htr'.
  destruct Htr as (Hs & Hr & _ & Hf & _).
  rewrite (recording_step_halves tk l s Hs Hread Hl).
  assert (Hreq' : requests (snd (absorb tk l s)) =
    (requests s ++
     List.filter long_enough
       (if spec_speech_then_silence (pending ++ [tk])
        then [map chunk_of (pending ++ [tk])] else []))%list).
  { rewrite Hreq, Hr, Hf, andb_true_r, <- Hspec.
    replace (map chunk_of pending ++ [chunk_of tk])%list
      with (map chunk_of (pending ++ [tk])) by now rewrite map_app.
    destruct (loud tk) eqn:Hloud; cbn [negb andb].
    - assert (Hno := spec_loud_no_segment pending tk Hloud).
      rewrite <- Hspec in Hno. now rewrite Hno.
    - destruct (hands_over tk l); cbn [List.filter]; [|reflexivity].
      destruct (long_enough _); reflexivity. }
  destruct Hl as [t Ht].
  destruct (Z.ltb_spec inactivity_timeout (now tk - t)) as [Hlt|Hle].
  - rewrite (conclude_break _ _ _ t Ht Hlt).
    destruct (stop_listening_effect (print InactivityTimeout (snd (absorb tk l s))))
      as (r & s' & Heq & _ & Hrq & Hfr & _).
    do 3 eexists. split; [reflexivity|]. rewrite Heq. cbn [snd].
    rewrite Hrq, Hfr. cbn [requests audio_frames print].
    split; [exact Hreq'|]. split; [apply Htr' | discriminate].
  - rewrite (conclude_continue _ _ _ t Ht Hle).
    do 3 eexists. split; [reflexivity|].
    split; [exact Hreq'|]. split; [apply Htr'|]. intros _. split; assumption.
Qed.

(** The audio handed to the recogniser over a run is, in order, the
    segments of the rule that hold at least 10 frames; and the frames
    still buffered are those after the last segment. *)
Lemma worker_tracks (ticks : list Tick) : forall pending l s,
  tracks pending l s -> Forall delivers ticks ->
  forall n status s',
    recording_worker ticks l s = (n, status, s') ->
    requests s' =
      (requests s ++ List.filter long_enough (spec_segments pending (take n ticks)))%list /\
    audio_frames s' = map chunk_of (spec_pending pending (take n ticks)).
Proof.
  induction ticks as [|tk rest IH]; intros pending l s Htr Hall n status s' Hrun.
  - simpl in Hrun. destruct (is_listening s); simpl in Hrun;
      injection Hrun as <- <- <-; simpl; rewrite app_nil_r; split; auto; apply Htr.
  - destruct (is_listening s) eqn:Hlis.
    2:{ rewrite (worker_stopped _ _ _ Hlis) in Hrun. injection Hrun as <- <- <-.
        simpl. rewrite app_nil_r. split; [reflexivity | apply Htr]. }
    rewrite (worker_turn _ _ _ _ Hlis) in Hrun.
    inversion Hall as [|? ? Hd Hrest]; subst.
    destruct (recording_step_tracks pending tk l s Htr Hd)
      as (l' & c & s1 & Hstep & Hreq & Hfr & Hcont).
    rewrite Hstep in Hrun. destruct c.
    + destruct (Hcont eq_refl) as [Htr1 _].
      destruct (recording_worker rest l' s1) as [[n1 st1] s2] eqn:Hrec.
      injection Hrun as <- <- <-.
      destruct (IH _ _ _ Htr1 Hrest _ _ _ Hrec) as [Hreq2 Hfr2].
      cbn [take]. rewrite spec_segments_step, spec_pending_step.
      rewrite Hreq2, Hfr2, Hreq. unfold pending_after.
      destruct (spec_speech_then_silence (pending ++ [tk])).
      * cbn [List.filter]. destruct (long_enough _); cbn [app];
          rewrite <- ?app_assoc; auto.
      * cbn [List.filter]. rewrite app_nil_r. auto.
    + injection Hrun as <- <- <-. cbn [requests audio_frames print take].
      rewrite spec_segments_step, spec_pending_step, Hreq, Hfr.
      unfold pending_after.
      destruct (spec_speech_then_silence (pending ++ [tk])); cbn [List.filter].
      * destruct (long_enough _); auto.
      * auto.
Qed.

(** ** A session from its start *)

Lemma start_listening_started (current_time : Z) (s0 s : AudioHandler) :
  start_listening current_time s0 = (Returned status_started, s) ->
  is_listening s = true /\ audio_stream s = true /\ pyaudio_instance s = true /\
  recognizer s = true /\ audio_frames s = [] /\
  last_speech_time s = Some current_time /\
  requests s = requests s0 /\
  stdout s = (stdout s0 ++ [RecordingStarted])%list /\
  device s = (device s0 ++ [CreatePyAudio; OpenStream])%list.
Proof.
  unfold Audio.start_listening, bind, read_field, ret, try_except, update, call_device.
  destruct (stt_enabled s0), (recognizer s0) eqn:Hr; simpl; try discriminate.
  destruct (is_listening s0); simpl; [discriminate|].
  destruct np; simpl; [|discriminate].
  destruct pyaudio; simpl; [|discriminate].
  destruct (device_raises CreatePyAudio); simpl; [discriminate|].
  destruct (device_raises OpenStream); simpl; [discriminate|].
  intros H. injection H as <-. simpl. rewrite <- app_assoc. tauto.
Qed.

Lemma started_tracks (current_time : Z) (s0 s : AudioHandler) :
  start_listening current_time s0 = (Returned status_started, s) ->
  tracks [] fresh_locals s.
Proof.
  intros H. destruct (start_listening_started _ _ _ H)
    as (_ & Hs & _ & Hr & Hf & Hl & _).
  unfold tracks. rewrite Hs, Hr, Hf, Hl. simpl. repeat split; eauto.
Qed.

(** C4 (amended). From the start of a listening session, over any
    sequence of turns on which the stream delivers a block (and the
    clock does not read zero), the recording thread hands audio to the
    recogniser exactly at the turns where a frame of the current buffer
    exceeded [volume_threshold] and the silence since the last such
    frame has lasted [silence_threshold] from its first frame, provided
    the buffer then holds at least 10 frames; a shorter buffer is
    dropped without recognition.  What is handed over is the whole
    buffer, which restarts empty afterwards: the segments and the frames
    still buffered partition the frames read, so no frame is handed over
    twice. *)
Theorem segments_follow_silence_rule
    (current_time : Z) (s0 s : AudioHandler) (ticks : list Tick)
    (n : nat) (status : Status) (s' : AudioHandler) :
  start_listening current_time s0 = (Returned status_started, s) ->
  Forall delivers ticks ->
  recording_worker ticks fresh_locals s = (n, status, s') ->
  requests s' =
    (requests s ++ List.filter long_enough (spec_segments [] (take n ticks)))%list /\
  (concat (spec_segments [] (take n ticks)) ++ audio_frames s')%list
    = map chunk_of (take n ticks).
Proof.
  intros Hstart Hall Hrun.
  destruct (worker_tracks ticks [] fresh_locals s
              (started_tracks _ _ _ Hstart) Hall _ _ _ Hrun) as [Hreq Hfr].
  split; [exact Hreq|]. rewrite Hfr. apply (spec_segments_partition _ []).
Qed.

(** ** Inactivity *)

Lemma absorb_silent (tk : Tick) (s : AudioHandler) :
  loud tk = false ->
  absorb tk fresh_locals s =
    (fresh_locals, set_audio_frames (audio_frames s ++ [chunk_of tk]) s).
Proof.
  intros Hl. unfold absorb, hands_over, next_silence_start. rewrite Hl. simpl.
  now rewrite andb_false_r.
Qed.

Lemma silent_run (start : Z) (tk : Tick) (after before : list Tick) :
  device_raises StopStream = false -> device_raises CloseStream = false ->
  device_raises Terminate = false ->
  Forall (silent_within start) before ->
  is_Some (read tk) -> loud tk = false -> inactivity_timeout < now tk - start ->
  forall s,
    is_listening s = true -> audio_stream s = true -> pyaudio_instance s = true ->
    last_speech_time s = Some start ->
    exists s',
      recording_worker (before ++ tk :: after) fresh_locals s
        = (S (length before), Exited, s') /\
      is_listening s' = false /\ audio_stream s' = false /\
      pyaudio_instance s' = false /\
      device s' = (device s ++ [StopStream; CloseStream; Terminate])%list /\
      stdout s' =
        (stdout s ++ [InactivityTimeout; RecordingStopped; RecordingFinished])%list /\
      requests s' = requests s.
Proof.
  intros H1 H2 H3 Hbefore Hread Hquiet Hlate.
  induction Hbefore as [|b before (Hbr & Hbq & Hbt) _ IH];
    intros s Hlis Hstream Hpa Hlast.
  - cbn [app length]. rewrite (worker_turn _ _ _ _ Hlis).
    rewrite (recording_step_halves tk fresh_locals s Hstream Hread);
      rewrite (absorb_silent tk s Hquiet); cbn [fst snd];
      [|cbn [last_speech_time set_audio_frames]; rewrite Hlast; eexists; reflexivity].
    rewrite (conclude_break tk fresh_locals
               (set_audio_frames (audio_frames s ++ [chunk_of tk]) s)
               start Hlast Hlate).
    destruct (stop_listening_releases
                (print InactivityTimeout
                   (set_audio_frames (audio_frames s ++ [chunk_of tk]) s))
                H1 H2 H3 Hlis Hstream Hpa)
      as (s' & Heq & Hl' & Hs' & Hp' & Hd' & Ho' & Hr' & _).
    rewrite Heq. cbn [snd]. eexists. split; [reflexivity|].
    cbn [is_listening audio_stream pyaudio_instance device stdout requests print].
    rewrite Hl', Hs', Hp', Hd', Ho', Hr'. simpl. rewrite <- !app_assoc. tauto.
  - cbn [app length]. rewrite (worker_turn _ _ _ _ Hlis).
    rewrite (recording_step_halves b fresh_locals s Hstream Hbr);
      rewrite (absorb_silent b s Hbq); cbn [fst snd];
      [|cbn [last_speech_time set_audio_frames]; rewrite Hlast; eexists; reflexivity].
    rewrite (conclude_continue b fresh_locals
               (set_audio_frames (audio_frames s ++ [chunk_of b]) s)
               start Hlast Hbt).
    destruct (IH (set_audio_frames (audio_frames s ++ [chunk_of b]) s)
                Hlis Hstream Hpa Hlast) as (s' & Heq & Hrest).
    rewrite Heq. exists s'. split; [reflexivity | exact Hrest].
Qed.

(** C5. After a listening session starts, if no frame exceeds
    [volume_threshold] and a turn comes more than [inactivity_timeout]
    after the start, then at the first such turn the session stops, and
    it stops once: [is_listening] becomes false, the stream is stopped
    and closed and the PyAudio instance terminated (one call each), the
    stop is reported, and the loop is left, whatever turns would
    follow.  The calls into PyAudio are taken not to raise. *)
Theorem inactivity_stops_session_once
    (start : Z) (s0 s : AudioHandler) (before : list Tick) (tk : Tick)
    (after : list Tick) :
  start_listening start s0 = (Returned status_started, s) ->
  device_raises StopStream = false -> device_raises CloseStream = false ->
  device_raises Terminate = false ->
  Forall (silent_within start) before ->
  is_Some (read tk) -> loud tk = false -> inactivity_timeout < now tk - start ->
  exists s',
    recording_worker (before ++ tk :: after) fresh_locals s
      = (S (length before), Exited, s') /\
    is_listening s' = false /\ audio_stream s' = false /\
    pyaudio_instance s' = false /\
    device s' = (device s ++ [StopStream; CloseStream; Terminate])%list /\
    stdout s' =
      (stdout s ++ [InactivityTimeout; RecordingStopped; RecordingFinished])%list /\
    requests s' = requests s /\
    stop_listening s' = (Returned None, s').
Proof.
  intros Hstart H1 H2 H3 Hbefore Hread Hquiet Hlate.
  destruct (start_listening_started _ _ _ Hstart)
    as (Hlis & Hstream & Hpa & _ & _ & Hlast & _).
  destruct (silent_run start tk after before H1 H2 H3 Hbefore Hread Hquiet Hlate
              s Hlis Hstream Hpa Hlast)
    as (s' & Heq & Hl' & Hrest).
  exists s'. split; [exact Heq|]. split; [exact Hl'|].
  repeat (split; [apply Hrest|]). now apply stop_listening_again.
Qed.

(** ** Failures of the recogniser *)

Lemma hands_over_quiet (tk : Tick) (l : Locals) :
  hands_over tk l = true -> loud tk = false.
Proof.
  unfold hands_over, Audio.quiet. destruct (loud tk); [discriminate | reflexivity].
Qed.

(** C8. When a turn of a listening session hands a segment to the
    recogniser and the recogniser raises (unrecognised speech, a
    service error, or any other exception), the exception is caught and
    a line reports it, no text is queued, the buffer is emptied, and the
    loop goes on with the next turn: [is_listening] is still true. *)
Theorem recognition_failure_contained
    (tk : Tick) (l : Locals) (s : AudioHandler) (e : Exception) (t : Z) :
  is_listening s = true -> audio_stream s = true -> recognizer s = true ->
  last_speech_time s = Some t -> is_Some (read tk) ->
  0 <= inactivity_timeout ->
  hands_over tk l = true ->
  long_enough (audio_frames s ++ [chunk_of tk]) = true ->
  recognition tk = Fails e ->
  exists s',
    recording_step tk l s = (Returned (fresh_locals, Continue), s') /\
    is_listening s' = true /\
    requests s' = (requests s ++ [(audio_frames s ++ [chunk_of tk])%list])%list /\
    stdout s' = (stdout s ++ [PauseDetected; error_line e])%list /\
    recognized_text_queue s' = recognized_text_queue s /\
    audio_frames s' = [] /\
    forall rest,
      recording_worker (tk :: rest) l s =
      let '(n, status, s'') := recording_worker rest fresh_locals s' in
      (S n, status, s'').
Proof.
  intros Hlis Hstream Hrec Hlast Hread Htimeout Hhand Hlong Hfail.
  pose proof (hands_over_quiet tk l Hhand) as Hquiet.
  set (s1 := print PauseDetected (set_audio_frames (audio_frames s ++ [chunk_of tk]) s)).
  destruct (process_effect (Fails e) s1)
    as (s2 & Heq & (_ & _ & Hl2 & _) & Hreq).
  destruct (process_failure e s1) as (s2' & Heq' & Hq & Hout).
  rewrite Heq in Heq'. injection Heq' as <-.
  assert (Habs : absorb tk l s =
            (fresh_locals,
             set_last_speech_time (Some (now tk)) (set_audio_frames [] s2))).
  { unfold absorb. rewrite Hquiet, Hhand, Hfail. fold s1. now rewrite Heq. }
  assert (Hstep : recording_step tk l s =
            (Returned (fresh_locals, Continue),
             set_last_speech_time (Some (now tk)) (set_audio_frames [] s2))).
  { rewrite (recording_step_halves tk l s Hstream Hread); rewrite Habs; cbn [fst snd].
    - apply (conclude_continue _ _ _ (now tk)); [reflexivity | lia].
    - eexists. reflexivity. }
  eexists. split; [exact Hstep|].
  cbn [is_listening requests stdout recognized_text_queue audio_frames
       set_last_speech_time set_audio_frames].
  subst s1. cbn [is_listening requests stdout recognized_text_queue audio_frames
                 recognizer print set_audio_frames] in *.
  rewrite Hlong, Hrec in *. cbn [andb] in *.
  rewrite Hl2, Hreq, Hq, Hout, <- app_assoc.
  repeat (split; [auto|]).
  intros rest. rewrite (worker_turn _ _ _ _ Hlis), Hstep. reflexivity.
Qed.

(** ** Reading the rule *)

(** [history] splits into what came before and the silence at its end,
    and a frame above the threshold comes right before that silence
    unless the whole of [history] is silent. *)
Lemma trailing_silence_split (history : list Tick) :
  forallb quiet (trailing_silence history) = true /\
  exists before,
    history = (before ++ trailing_silence history)%list /\
    (before = [] \/ exists earlier speech,
        before = (earlier ++ [speech])%list /\ loud speech = true).
Proof.
  induction history as [|tk history IH] using rev_ind.
  - split; [reflexivity|]. exists []. auto.
  - rewrite trailing_silence_snoc. destruct IH as (Hq & before & Heq & Hb).
    destruct (loud tk) eqn:Hl.
    + split; [reflexivity|]. exists (history ++ [tk])%list.
      rewrite app_nil_r. split; [reflexivity|]. right. eauto.
    + split.
      * rewrite forallb_app, Hq. cbn [forallb]. unfold Audio.quiet. now rewrite Hl.
      * exists before. rewrite app_assoc, <- Heq. auto.
Qed.

Lemma trailing_silence_after_speech (earlier : list Tick) (speech : Tick)
    (silence : list Tick) :
  loud speech = true -> forallb quiet silence = true ->
  trailing_silence (earlier ++ speech :: silence) = silence.
Proof.
  intros Hl. induction silence as [|tk silence IH] using rev_ind; intros Hq.
  - change (earlier ++ [speech])%list with (earlier ++ [speech])%list.
    now rewrite trailing_silence_snoc, Hl.
  - rewrite forallb_app in Hq. apply andb_true_iff in Hq as [Hq Htk].
    cbn [forallb] in Htk. rewrite andb_true_r in Htk.
    change (earlier ++ speech :: silence ++ [tk])%list
      with (earlier ++ (speech :: silence) ++ [tk])%list.
    rewrite app_assoc, trailing_silence_snoc.
    unfold Audio.quiet in Htk. apply negb_true_iff in Htk. rewrite Htk.
    now rewrite IH.
Qed.

Lemma silent_no_speech (history : list Tick) :
  forallb quiet history = true -> existsb loud history = false.
Proof.
  induction history as [|tk history IH]; [reflexivity|].
  cbn [forallb existsb]. intros H. apply andb_true_iff in H as [Hq H].
  unfold Audio.quiet in Hq. apply negb_true_iff in Hq. rewrite Hq. now apply IH.
Qed.

(** The rule holds of [history] exactly when [history] contains a frame
    above the threshold followed, up to its end, by frames that are all
    at most at the threshold, the last of which was read at least
    [silence_threshold] after the first. *)
Lemma spec_speech_then_silence_reading (history : list Tick) :
  spec_speech_then_silence history = true <->
  exists earlier speech silence first current,
    history = (earlier ++ speech :: silence)%list /\
    loud speech = true /\ forallb quiet silence = true /\
    head silence = Some first /\ last silence = Some current /\
    silence_threshold <= now current - now first.
Proof.
  unfold Audio.spec_speech_then_silence. split.
  - intros H. apply andb_true_iff in H as [Hex H].
    destruct (head (trailing_silence history)) as [first|] eqn:Hhead; [|discriminate].
    destruct (last history) as [current|] eqn:Hlast; [|discriminate].
    apply Z.leb_le in H.
    destruct (trailing_silence_split history) as (Hq & before & Heq & Hb).
    destruct Hb as [->|(earlier & speech & -> & Hl)].
    + simpl in Heq. rewrite <- Heq in Hq.
      rewrite (silent_no_speech _ Hq) in Hex. discriminate.
    + assert (Hcur : last (trailing_silence history) = Some current).
      { rewrite Heq, last_app in Hlast.
        destruct (last (trailing_silence history)) eqn:Hl2; [exact Hlast|].
        apply last_None in Hl2. rewrite Hl2 in Hhead. discriminate. }
      exists earlier, speech, (trailing_silence history), first, current.
      rewrite <- app_assoc in Heq. repeat split; auto.
  - intros (earlier & speech & silence & first & current
            & -> & Hl & Hq & Hhead & Hlast & Hle).
    rewrite existsb_app. cbn [existsb]. rewrite Hl, orb_true_l, orb_true_r.
    rewrite (trailing_silence_after_speech earlier speech silence Hl Hq), Hhead.
    change (earlier ++ speech :: silence)%list
      with (earlier ++ [speech] ++ silence)%list.
    rewrite app_assoc, last_app, Hlast. now apply Z.leb_le.
Qed.

(** ** What a segment holds *)

(** The segments of the rule are consecutive blocks of the stream, the
    first one beginning with the turns already pending, and each block
    ends at the first turn that confirms the silence. *)
Lemma spec_segments_blocks (ticks : list Tick) : forall pending,
  (forall k, (k <= length pending)%nat ->
     spec_speech_then_silence (take k pending) = false) ->
  exists blocks,
    spec_segments pending ticks = map (map chunk_of) blocks /\
    (pending ++ ticks)%list = (concat blocks ++ spec_pending pending ticks)%list /\
    Forall confirmed_at_end blocks.
Proof.
  induction ticks as [|tk rest IH]; intros pending Hpending.
  - exists []. simpl. rewrite app_nil_r. auto.
  - rewrite spec_segments_step, spec_pending_step.
    destruct (spec_speech_then_silence (pending ++ [tk])) eqn:Hrule.
    + destruct (IH []) as (blocks & Hseg & Hcat & Hall).
      { intros k _. now destruct k. }
      exists ((pending ++ [tk])%list :: blocks). split; [|split].
      * cbn [map]. now rewrite Hseg.
      * cbn [concat]. simpl in Hcat. rewrite <- !app_assoc, <- Hcat. reflexivity.
      * constructor; [|exact Hall]. split; [exact Hrule|].
        intros k Hk. rewrite length_app in Hk. simpl in Hk.
        rewrite take_app_le by lia. apply Hpending. lia.
    + destruct (IH (pending ++ [tk])%list) as (blocks & Hseg & Hcat & Hall).
      { intros k Hk. rewrite length_app in Hk. simpl in Hk.
        destruct (Nat.le_gt_cases k (length pending)) as [Hle|Hgt].
        - rewrite take_app_le by lia. now apply Hpending.
        - rewrite take_ge by (rewrite length_app; simpl; lia). exact Hrule. }
      exists blocks. rewrite <- app_assoc in Hcat. auto.
Qed.

Lemma long_enough_blocks (blocks : list (list Tick)) :
  List.filter long_enough (map (map chunk_of) blocks)
  = map (map chunk_of)
      (List.filter (fun block => long_enough (map chunk_of block)) blocks).
Proof.
  induction blocks as [|block blocks IH]; [reflexivity|]. simpl.
  destruct (long_enough (map chunk_of block)); simpl; now rewrite IH.
Qed.

(** What reaches the recogniser from the start of a session: the turns
    taken are cut into consecutive blocks, each ending at the first turn
    that confirms the silence, and the blocks of at least 10 frames are
    the requests, whole. *)
Lemma worker_blocks (current_time : Z) (s0 s : AudioHandler) (ticks : list Tick)
    (n : nat) (status : Status) (s' : AudioHandler) :
  start_listening current_time s0 = (Returned status_started, s) ->
  Forall delivers ticks ->
  recording_worker ticks fresh_locals s = (n, status, s') ->
  exists blocks rest,
    take n ticks = (concat blocks ++ rest)%list /\
    Forall confirmed_at_end blocks /\
    requests s' =
      (requests s ++
       map (map chunk_of)
         (List.filter (fun block => long_enough (map chunk_of block)) blocks))%list /\
    audio_frames s' = map chunk_of rest.
Proof.
  intros Hstart Hall Hrun.
  destruct (worker_tracks ticks [] fresh_locals s
              (started_tracks _ _ _ Hstart) Hall _ _ _ Hrun) as [Hreq Hfr].
  destruct (spec_segments_blocks (take n ticks) []) as (blocks & Hseg & Hcat & Hblocks).
  { intros k _. now destruct k. }
  exists blocks, (spec_pending [] (take n ticks)).
  split; [exact Hcat|]. split; [exact Hblocks|]. split; [|exact Hfr].
  now rewrite Hreq, Hseg, long_enough_blocks.
Qed.

End SessionFacts.

(** ** The theorems at work on the scenario data *)

Lemma delivers_check (ticks : list Tick) :
  forallb delivers_b ticks = true -> Forall delivers ticks.
Proof.
  intros H. apply Forall_forall. intros tk Hin. apply list_elem_of_In in Hin.
  rewrite forallb_forall in H. specialize (H tk Hin). unfold delivers_b in H.
  destruct (read tk) eqn:Hr; [|discriminate]. split; [eauto|].
  apply negb_true_iff in H. now apply Z.eqb_neq.
Qed.

Lemma silent_within_check (volume_threshold inactivity_timeout start : Z)
    (ticks : list Tick) :
  forallb (silent_within_b volume_threshold inactivity_timeout start) ticks = true ->
  Forall (silent_within volume_threshold inactivity_timeout start) ticks.
Proof.
  intros H. apply Forall_forall. intros tk Hin. apply list_elem_of_In in Hin.
  rewrite forallb_forall in H. specialize (H tk Hin). unfold silent_within_b in H.
  destruct (read tk) eqn:Hr; [|discriminate].
  apply andb_true_iff in H as [Hq Ht]. apply negb_true_iff in Hq.
  apply Z.leb_le in Ht. unfold silent_within. rewrite Hr. eauto.
Qed.




Lemma segments_follow_silence_rule_witness :
  requests (snd scenario_run) =
    (requests listening ++
     List.filter long_enough
       (spec_segments VOICE_VOLUME_THRESHOLD SILENCE_THRESHOLD []
          (take 102 scenario)))%list
  /\ (concat (spec_segments VOICE_VOLUME_THRESHOLD SILENCE_THRESHOLD []
                (take 102 scenario))
      ++ audio_frames (snd scenario_run))%list
     = map chunk_of (take 102 scenario).
Proof.
  apply (segments_follow_silence_rule
           VOICE_VOLUME_THRESHOLD SILENCE_THRESHOLD INACTIVITY_TIMEOUT
           true true healthy 1000000
           (init true true on_text_recognized_callback) listening scenario
           102%nat (Running fresh_locals) (snd scenario_run)).
  - reflexivity.
  - apply delivers_check. vm_compute. reflexivity.
  - vm_compute. reflexivity.
Defined.

(** C4, as stated, fails: with blocks of 1024 ms the first frame exceeds
    the threshold and the three that follow are silent, the last one
    2048 ms after the first of them, yet the recogniser receives
    nothing, because the buffer holds only 4 frames. *)
Lemma short_segment_not_emitted :
  Forall delivers slow_turns
  /\ map (loud VOICE_VOLUME_THRESHOLD) slow_turns = [true; false; false; false]
  /\ map now slow_turns = [1001024; 1002048; 1003072; 1004096]
  /\ SILENCE_THRESHOLD <= 1004096 - 1002048
  /\ spec_speech_then_silence VOICE_VOLUME_THRESHOLD SILENCE_THRESHOLD slow_turns = true
  /\ fst (run_over slow_turns) = (4%nat, Running fresh_locals)
  /\ requests (snd (run_over slow_turns)) = []
  /\ audio_frames (snd (run_over slow_turns)) = [].
Proof.
  split; [apply delivers_check; vm_compute; reflexivity|].
  vm_compute. repeat split; try reflexivity. discriminate.
Qed.

Lemma inactivity_stops_session_once_witness :
  exists s',
    run_over silent_turns = (79%nat, Exited, s')
    /\ is_listening s' = false /\ audio_stream s' = false
    /\ pyaudio_instance s' = false
    /\ device s' = [CreatePyAudio; OpenStream; StopStream; CloseStream; Terminate]
    /\ stdout s' =
         [RecordingStarted; InactivityTimeout; RecordingStopped; RecordingFinished].
Proof.
  destruct (inactivity_stops_session_once
              VOICE_VOLUME_THRESHOLD SILENCE_THRESHOLD INACTIVITY_TIMEOUT
              true true healthy 1000000
              (init true true on_text_recognized_callback) listening
              (take 78 silent_turns)
              {| now := 1000000 + 64 * 79; read := Some silence_chunk;
                 recognition := Recognized "" |}
              (drop 79 silent_turns))
    as (s' & Hrun & Hl & Hs & Hp & Hd & Ho & _).
  - reflexivity.
  - reflexivity.
  - reflexivity.
  - reflexivity.
  - apply silent_within_check. vm_compute. reflexivity.
  - eexists. reflexivity.
  - vm_compute. reflexivity.
  - vm_compute. reflexivity.
  - exists s'. repeat split; assumption.
Defined.

Lemma recognition_failure_contained_witness :
  exists s',
    recording_step VOICE_VOLUME_THRESHOLD SILENCE_THRESHOLD INACTIVITY_TIMEOUT healthy
      failing_turn (fst before_failure) (snd before_failure)
      = (Returned (fresh_locals, Continue), s')
    /\ is_listening s' = true
    /\ stdout s' = [RecordingStarted; PauseDetected; ApiError]
    /\ recognized_text_queue s' = [].
Proof.
  destruct (recognition_failure_contained
              VOICE_VOLUME_THRESHOLD SILENCE_THRESHOLD INACTIVITY_TIMEOUT healthy
              failing_turn (fst before_failure) (snd before_failure)
              RequestError 1004032)
    as (s' & Hstep & Hl & _ & Ho & Hq & _).
  - reflexivity.
  - reflexivity.
  - reflexivity.
  - vm_compute. reflexivity.
  - eexists. reflexivity.
  - vm_compute. discriminate.
  - vm_compute. reflexivity.
  - vm_compute. reflexivity.
  - reflexivity.
  - exists s'. repeat split; assumption.
Defined.

End AudioFacts.

(** * Further facts about the gesture confirmation engine *)
Module VisionExtras.
Import Vision VisionFacts VisionTerms.

(** ** The majority vote *)

(** X1. For a non-empty buffer the vote selects a label; the count it
    reports is the number of observations of that label in the buffer,
    it is positive, and no label of the buffer has more. *)
Theorem majority_label_has_most_observations
    (buffer : list Gesture) :
  buffer <> [] ->
  exists label count,
    most_common (gesture_counts buffer) = Some (label, count) /\
    count = occurrences label buffer /\ (0 < count)%nat /\
    forall label', (occurrences label' buffer <= count)%nat.
Proof.
  intros Hne.
  destruct (most_common (gesture_counts buffer)) as [[label count]|] eqn:Hmost.
  - exists label, count. split; [reflexivity|].
    destruct (most_common_spec _ _ _ Hmost) as [Hcount Hmax].
    split; [exact Hcount|]. split; [|exact Hmax].
    destruct buffer as [|g buffer]; [congruence|].
    specialize (Hmax (type g)). unfold occurrences in Hmax. simpl in Hmax.
    rewrite String.eqb_refl in Hmax. simpl in Hmax. lia.
  - exfalso. destruct buffer as [|g buffer] using rev_ind; [congruence|].
    rewrite gesture_counts_snoc in Hmost.
    destruct (gesture_counts buffer) as [|[k n] d]; simpl in Hmost; [discriminate|].
    destruct (String.eqb k (type g)); discriminate.
Qed.

Lemma majority_label_has_most_observations_witness :
  exists label count,
    most_common (gesture_counts (gesture_buffer (holding "victory")))
      = Some (label, count) /\
    count = occurrences label (gesture_buffer (holding "victory")) /\
    (0 < count)%nat /\
    forall label',
      (occurrences label' (gesture_buffer (holding "victory")) <= count)%nat.
Proof.
  apply (majority_label_has_most_observations (gesture_buffer (holding "victory"))).
  vm_compute. discriminate.
Defined.

(** ** Ties in the majority vote *)

(** [max_from] returns the first pair with the largest count. *)
Lemma max_from_first (d : list (string * nat)) : forall best,
  exists pre post,
    best :: d = (pre ++ max_from best d :: post)%list /\
    Forall (fun kv => (snd kv < snd (max_from best d))%nat) pre /\
    Forall (fun kv => (snd kv <= snd (max_from best d))%nat) post.
Proof.
  induction d as [|[k n] d IH]; intros best.
  - exists [], []. simpl. auto.
  - cbn [max_from]. destruct (Nat.ltb_spec (snd best) n) as [Hlt|Hle].
    + destruct (max_from_spec d (k, n)) as (_ & Hge & _).
      destruct (IH (k, n)) as (pre & post & Heq & Hpre & Hpost).
      exists (best :: pre), post. split; [simpl; f_equal; exact Heq|].
      split; [|exact Hpost]. constructor; [simpl in Hge; lia | exact Hpre].
    + destruct (IH best) as (pre & post & Heq & Hpre & Hpost).
      destruct pre as [|b pre].
      * simpl in Heq. injection Heq as Hb Hd. exists [], ((k, n) :: post).
        rewrite <- Hb in *. split; [simpl; do 2 f_equal; exact Hd|].
        split; [constructor|]. constructor; [simpl; lia | exact Hpost].
      * simpl in Heq. injection Heq as Hb Hd. subst b.
        exists (best :: (k, n) :: pre), post.
        split; [simpl; do 2 f_equal; exact Hd|]. split; [|exact Hpost].
        inversion Hpre as [|? ? Hbest Hrest]; subst.
        constructor; [exact Hbest|]. constructor; [simpl; lia | exact Hrest].
Qed.

Lemma occurrences_pos (g : Gesture) (buffer : list Gesture) :
  In g buffer -> (0 < occurrences (type g) buffer)%nat.
Proof.
  unfold occurrences. induction buffer as [|x buffer IH]; [intros []|].
  intros [->|Hin]; simpl.
  - rewrite String.eqb_refl. simpl. lia.
  - destruct (String.eqb (type x) (type g)); simpl; [lia | auto].
Qed.

Lemma type_in_keys (g : Gesture) (buffer : list Gesture) :
  In g buffer -> In (type g) (keys (gesture_counts buffer)).
Proof.
  intros Hin. destruct (in_dec string_dec (type g) (keys (gesture_counts buffer)))
    as [H|H]; [exact H|].
  apply dict_get_absent in H. rewrite dict_get_gesture_counts in H.
  pose proof (occurrences_pos g buffer Hin). lia.
Qed.

(** The keys of [gesture_counts] are in the order in which the labels
    are first seen in the buffer. *)
Lemma keys_first_seen (buffer : list Gesture) : forall l1 k l2,
  keys (gesture_counts buffer) = (l1 ++ k :: l2)%list ->
  exists before g after,
    buffer = (before ++ g :: after)%list /\ type g = k /\
    Forall (fun x => In (type x) l1) before.
Proof.
  induction buffer as [|g buffer IH] using rev_ind; intros l1 k l2 Hkeys.
  - destruct l1; discriminate.
  - rewrite gesture_counts_snoc, keys_dict_incr in Hkeys.
    destruct (in_dec string_dec (type g) (keys (gesture_counts buffer))) as [Hin|Hnew].
    + destruct (IH _ _ _ Hkeys) as (before & g0 & after & -> & Hk & Hall).
      exists before, g0, (after ++ [g])%list. rewrite <- app_assoc. auto.
    + destruct l2 as [|x l2 _] using rev_ind.
      * apply app_inj_tail in Hkeys as [Hl1 Hk].
        exists buffer, g, []. split; [reflexivity|]. split; [auto|].
        apply Forall_forall. intros y Hy. apply list_elem_of_In in Hy.
        rewrite <- Hl1. now apply type_in_keys.
      * change (l1 ++ k :: l2 ++ [x])%list with (l1 ++ (k :: l2) ++ [x])%list in Hkeys.
        rewrite app_assoc in Hkeys. apply app_inj_tail in Hkeys as [Hkeys _].
        destruct (IH _ _ _ Hkeys) as (before & g0 & after & -> & Hk & Hall).
        exists before, g0, (after ++ [g])%list. rewrite <- app_assoc. auto.
Qed.

(** X2. When two labels have the same, largest number of observations,
    the vote selects the one that was observed first in the buffer. *)
Theorem tie_goes_to_first_seen
    (buffer : list Gesture) (label label' : string) (count : nat) :
  most_common (gesture_counts buffer) = Some (label, count) ->
  label' <> label ->
  occurrences label' buffer = count ->
  exists before g after,
    buffer = (before ++ g :: after)%list /\ type g = label /\
    Forall (fun x => type x <> label') before.
Proof.
  intros Hmost Hne Hocc.
  pose proof (NoDup_keys_gesture_counts buffer) as Hnd.
  pose proof (dict_get_gesture_counts label' buffer) as Hget.
  destruct (gesture_counts buffer) as [|kv d] eqn:Hd; [discriminate|].
  simpl in Hmost. injection Hmost as Hmax.
  destruct (max_from_first d kv) as (pre & post & Heq & Hpre & _).
  rewrite Hmax in Heq, Hpre. simpl in Hpre.
  assert (Hkeys : keys (gesture_counts buffer)
                  = (map fst pre ++ label :: map fst post)%list).
  { rewrite Hd, Heq. unfold keys. now rewrite map_app. }
  destruct (keys_first_seen buffer _ _ _ Hkeys) as (before & g & after & Hb & Hg & Hall).
  exists before, g, after. split; [exact Hb|]. split; [exact Hg|].
  apply Forall_forall. intros x Hx Htype.
  rewrite Forall_forall in Hall. specialize (Hall x Hx). rewrite Htype in Hall.
  apply in_map_iff in Hall as ([k n] & Hk & Hin). simpl in Hk. subst k.
  rewrite Forall_forall in Hpre.
  assert (Hlt : (n < count)%nat).
  { apply (Hpre (label', n)). now apply list_elem_of_In. }
  assert (Hin' : In (label', n) (kv :: d)).
  { rewrite Heq. apply in_or_app. now left. }
  rewrite (dict_get_In label' n (kv :: d) Hnd Hin') in Hget. lia.
Qed.

Lemma tie_goes_to_first_seen_witness :
  exists before g after,
    tied_buffer = (before ++ g :: after)%list /\ type g = "open_palm" /\
    Forall (fun x => type x <> "victory") before.
Proof.
  apply (tie_goes_to_first_seen tied_buffer "open_palm" "victory" 2).
  - reflexivity.
  - discriminate.
  - reflexivity.
Defined.


Section EngineExtras.

Context (config : VisionConfig).

(** ** What a processed frame does *)

Lemma buffer_loop_time (current_time : Z) (gs : list Gesture) : forall s,
  last_gesture_time (fold_left (buffer_gesture current_time) gs s)
  = last_gesture_time s.
Proof. induction gs as [|g gs IH]; intros s; simpl; [reflexivity|]. now rewrite IH. Qed.

(** The handler on which [_check_gesture_confirmation] runs when a frame
    brings detections: the detections are stamped and buffered, and the
    buffer is pruned to the confirmation window. *)
Lemma callback_processing (current_time : Z) (frame : Frame) (s : VisionHandler) :
  is_paused s = false ->
  (gesture_inactivity_timeout config <? current_time - last_gesture_time s) = false ->
  detections config s frame <> [] ->
  exists s1,
    _frame_analysis_callback config current_time frame s =
      limit_history
        (set_analysis_results
           (analysis_results (_check_gesture_confirmation s1)
            ++ [result_of config s current_time frame])
           (_check_gesture_confirmation s1)) /\
    gesture_buffer s1 =
      List.filter (recent config current_time)
        (gesture_buffer s ++ map (stamp current_time) (detections config s frame)) /\
    stdout s1 =
      (stdout s ++ map (fun g => GestureSeen (stamp current_time g))
                       (detections config s frame))%list /\
    last_gesture_time s1 = current_time /\
    last_confirmed_gesture s1 = last_confirmed_gesture s /\
    analysis_results s1 = analysis_results s /\
    is_vision_active s1 = is_vision_active s /\ is_paused s1 = false.
Proof.
  intros Hp Ht Hdet. unfold _frame_analysis_callback, result_of, detections in *.
  rewrite Hp, Ht.
  destruct (if gesture_recognition config && recognizer s then detected frame else [])
    as [|g gs] eqn:Hg; [congruence|].
  pose proof (buffer_loop current_time (g :: gs)
                (set_last_gesture_time current_time
                   (set_current_gestures (map (stamp current_time) (g :: gs)) s)))
    as (Hbuf & Hout & Hlast & Hres & _ & _ & Hact & Hpaused).
  eexists. split; [reflexivity|].
  cbn [gesture_buffer stdout last_gesture_time last_confirmed_gesture
       analysis_results is_vision_active is_paused set_gesture_buffer].
  rewrite Hbuf, Hout, Hlast, Hres, Hact, Hpaused, buffer_loop_time.
  simpl. repeat split; auto.
Qed.

Lemma printed_since_self (s : VisionHandler) : printed_since s s = [].
Proof. unfold printed_since. apply drop_all. Qed.

(** Whatever the check confirms has at least 3 observations in the
    buffer and an entry in the table. *)
Lemma check_lines (s : VisionHandler) :
  exists lines,
    stdout (_check_gesture_confirmation s) = (stdout s ++ lines)%list /\
    forall label, In label (confirmed_labels lines) ->
      (3 <= occurrences label (gesture_buffer s))%nat /\
      is_Some (gesture_text_map !! label).
Proof.
  assert (Hsame : exists lines, stdout s = (stdout s ++ lines)%list /\
            forall label, In label (confirmed_labels lines) ->
              (3 <= occurrences label (gesture_buffer s))%nat /\
              is_Some (gesture_text_map !! label)).
  { exists []. rewrite app_nil_r. split; [reflexivity | intros ? []]. }
  unfold _check_gesture_confirmation.
  destruct (gesture_buffer s) as [|g buffer] eqn:Hbuf; [exact Hsame|].
  destruct (most_common _) as [[label count]|] eqn:Hmost; [|exact Hsame].
  destruct (Nat.leb_spec 3 count) as [Hc|Hc]; simpl; [|exact Hsame].
  destruct (differs_from label (last_confirmed_gesture s)); [|exact Hsame].
  destruct (gesture_text_map !! label) as [text|] eqn:Hmap; [|exact Hsame].
  destruct (most_common_spec _ _ _ Hmost) as [Hcount _].
  assert (Hin : forall l, In l [label] ->
            (3 <= occurrences l (g :: buffer))%nat /\ is_Some (gesture_text_map !! l)).
  { intros l [<-|[]]. rewrite Hmap. split; [lia | eauto]. }
  destruct (gesture_callback s) as [[]|] eqn:Hcb; simpl; rewrite ?Hcb; simpl.
  - exists [GestureConfirmed label text; GestureQueued text].
    rewrite <- app_assoc. split; [reflexivity | exact Hin].
  - exists [GestureConfirmed label text]. split; [reflexivity | exact Hin].
Qed.

(** X3. A frame confirms a label only if the engine is not paused, the
    label is a key of the table, and at least 3 observations of it,
    among those buffered and those of the frame, were stamped within
    [gesture_confirmation_time] of the frame. *)
Theorem confirmation_needs_three_recent
    (current_time : Z) (frame : Frame) (s : VisionHandler) (label : string) :
  In label
     (confirmed_labels
        (printed_since s (_frame_analysis_callback config current_time frame s))) ->
  is_paused s = false /\
  is_Some (gesture_text_map !! label) /\
  (3 <= occurrences label
          (List.filter (recent config current_time)
             (gesture_buffer s ++ map (stamp current_time) (detected frame))))%nat.
Proof.
  intros Hin.
  destruct (is_paused s) eqn:Hp.
  { unfold _frame_analysis_callback in Hin. rewrite Hp, printed_since_self in Hin.
    destruct Hin. }
  destruct (gesture_inactivity_timeout config <? current_time - last_gesture_time s)
    eqn:Ht.
  { unfold _frame_analysis_callback in Hin. rewrite Hp, Ht in Hin.
    rewrite (printed_since_app s _ [InactivityTimeout; StopFailed])
      in Hin by (simpl; now rewrite <- !app_assoc).
    destruct Hin. }
  destruct (detections config s frame) as [|g gs] eqn:Hdet.
  { unfold _frame_analysis_callback, detections in *. rewrite Hp, Ht, Hdet in Hin.
    rewrite (printed_since_app s _ []) in Hin by (simpl; now rewrite app_nil_r).
    destruct Hin. }
  assert (Hne : detections config s frame <> []) by (rewrite Hdet; discriminate).
  destruct (callback_processing current_time frame s Hp Ht Hne)
    as (s1 & Heq & Hbuf & Hout & _).
  destruct (check_lines s1) as (lines & Hlines & Hall).
  assert (Hstd : stdout (_frame_analysis_callback config current_time frame s)
                 = (stdout s ++ map (fun g => GestureSeen (stamp current_time g))
                                    (detections config s frame) ++ lines)%list).
  { rewrite Heq. destruct (limit_history_fields
      (set_analysis_results
         (analysis_results (_check_gesture_confirmation s1)
          ++ [result_of config s current_time frame])
         (_check_gesture_confirmation s1))) as [-> _].
    cbn [stdout set_analysis_results]. now rewrite Hlines, Hout, <- app_assoc. }
  rewrite (printed_since_app _ _ _ Hstd), confirmed_labels_app,
    confirmed_labels_seen in Hin. simpl in Hin.
  destruct (Hall label Hin) as [Hcount Hmap].
  split; [reflexivity|]. split; [exact Hmap|].
  rewrite Hbuf in Hcount. unfold detections in Hcount, Hdet.
  destruct (gesture_recognition config && recognizer s); [exact Hcount | discriminate].
Qed.


(** ** The buffer and the confirmation window *)

Lemma check_buffer (s : VisionHandler) :
  gesture_buffer (_check_gesture_confirmation s) = gesture_buffer s \/
  gesture_buffer (_check_gesture_confirmation s) = [].
Proof.
  unfold _check_gesture_confirmation.
  destruct (gesture_buffer s) eqn:Hb; [left; exact Hb|].
  destruct (most_common _) as [[label count]|]; [|left; exact Hb].
  destruct (_ && _); [|left; exact Hb].
  destruct (gesture_text_map !! label); [|left; exact Hb].
  right. reflexivity.
Qed.

Lemma limit_history_engine (s : VisionHandler) :
  gesture_buffer (limit_history s) = gesture_buffer s /\
  last_gesture_time (limit_history s) = last_gesture_time s /\
  is_vision_active (limit_history s) = is_vision_active s /\
  is_paused (limit_history s) = is_paused s.
Proof. unfold limit_history. destruct (_ <? _)%nat; auto. Qed.

Lemma window_step (s : VisionHandler) (e : Event) :
  Forall (within_window config s) (gesture_buffer s) ->
  Forall (within_window config (step config s e)) (gesture_buffer (step config s e)).
Proof.
  intros Hinv. destruct e as [c now cb|t f| |now|]; simpl.
  - unfold start_real_time_analysis.
    destruct (negb (real_time_analysis config)); [exact Hinv|].
    destruct (negb (camera (camera_handler s))); [exact Hinv|].
    unfold start_capture.
    destruct cb; destruct (recognizer s);
      repeat match goal with |- context [if ?c then _ else _] => destruct c end;
      simpl; constructor.
  - destruct (is_paused s) eqn:Hp.
    { unfold _frame_analysis_callback. now rewrite Hp. }
    destruct (gesture_inactivity_timeout config <? t - last_gesture_time s) eqn:Ht.
    { unfold _frame_analysis_callback. rewrite Hp, Ht. exact Hinv. }
    destruct (detections config s f) as [|g gs] eqn:Hdet.
    { unfold _frame_analysis_callback, detections in *. rewrite Hp, Ht, Hdet.
      exact Hinv. }
    assert (Hne : detections config s f <> []) by (rewrite Hdet; discriminate).
    destruct (callback_processing t f s Hp Ht Hne)
      as (s1 & Heq & Hbuf & _ & Htime & _).
    rewrite Heq.
    match goal with |- context [limit_history ?x] =>
      destruct (limit_history_engine x) as (Hb & Hl & _); set (s2 := x) in *
    end.
    destruct (check_fields s1) as (_ & _ & _ & Hlt).
    assert (Hwin : forall g0, within_window config (limit_history s2) g0
                              <-> within_window config s1 g0).
    { intros g0. unfold within_window. rewrite Hl. subst s2.
      cbn [last_gesture_time set_analysis_results]. now rewrite Hlt. }
    rewrite Hb. subst s2. cbn [gesture_buffer set_analysis_results].
    destruct (check_buffer s1) as [->| ->]; [|constructor].
    apply Forall_forall. intros g0 Hg0. apply Hwin.
    rewrite Hbuf in Hg0. apply list_elem_of_In, filter_In in Hg0 as [_ Hrec].
    unfold recent in Hrec. destruct (detected_at g0) as [d|] eqn:Hd; [|discriminate].
    exists d. rewrite Htime. split; [exact Hd | now apply Z.leb_le].
  - exact Hinv.
  - unfold resume_analysis. destruct (is_vision_active s); [constructor | exact Hinv].
  - exact Hinv.
Qed.

(** X4. In every state the handler reaches from its construction, each
    observation in the gesture buffer carries its [detected_at] stamp,
    and that stamp is at most [gesture_confirmation_time] older than
    [last_gesture_time]. *)
Theorem buffered_observations_within_window
    (camera_opens model_loads : bool) (now : Z) (events : list Event) :
  let s := run config events (init camera_opens model_loads now) in
  Forall (within_window config s) (gesture_buffer s).
Proof.
  assert (H : forall evs s, Forall (within_window config s) (gesture_buffer s) ->
                let s' := run config evs s in
                Forall (within_window config s') (gesture_buffer s')).
  { induction evs as [|e evs IH]; intros s Hs; simpl; [exact Hs|].
    apply IH. now apply window_step. }
  apply H. constructor.
Qed.

(** ** Stopping and starting again *)

(** X5. After [stop_real_time_analysis] (called from the request layer)
    the camera handle is released, and [start_real_time_analysis] then
    fails: it returns [False] and the engine stays inactive, whether or
    not the camera could be opened again. *)
Theorem restart_after_stop_fails
    (camera_opens : bool) (now : Z) (callback : option Callback) (s : VisionHandler) :
  let r := start_real_time_analysis config camera_opens now callback
             (stop_real_time_analysis request_layer s) in
  fst r = false /\ is_vision_active (snd r) = false /\
  camera (camera_handler (snd r)) = false /\
  gesture_buffer (snd r) = gesture_buffer s /\
  last_confirmed_gesture (snd r) = last_confirmed_gesture s.
Proof.
  unfold start_real_time_analysis, stop_real_time_analysis, stop_capture. simpl.
  destruct (negb (real_time_analysis config)); simpl; auto.
Qed.

(** ** Frames without detections *)

Lemma idle_frame (current_time : Z) (frame : Frame) (s : VisionHandler) :
  is_paused s = false -> detected frame = [] ->
  current_time - last_gesture_time s <= gesture_inactivity_timeout config ->
  _frame_analysis_callback config current_time frame s = set_current_gestures [] s.
Proof.
  intros Hp Hd Ht. unfold _frame_analysis_callback. rewrite Hp, Hd.
  destruct (Z.ltb_spec (gesture_inactivity_timeout config)
              (current_time - last_gesture_time s)); [lia|].
  destruct (gesture_recognition config && recognizer s); reflexivity.
Qed.

Lemma idle_run (before : list (Z * Frame)) : forall s,
  is_paused s = false ->
  Forall (idle_within config (last_gesture_time s)) before ->
  let s1 := run config (map frame_event before) s in
  is_paused s1 = false /\ last_gesture_time s1 = last_gesture_time s /\
  gesture_buffer s1 = gesture_buffer s /\
  is_vision_active s1 = is_vision_active s /\
  last_confirmed_gesture s1 = last_confirmed_gesture s /\
  stdout s1 = stdout s.
Proof.
  induction before as [|[t f] before IH]; intros s Hp Hall; simpl; [tauto|].
  inversion Hall as [|? ? [Hd Ht] Hrest]; subst. simpl in Hd, Ht.
  rewrite (idle_frame t f s Hp Hd Ht).
  destruct (IH (set_current_gestures [] s) Hp Hrest) as (H1 & H2 & H3 & H4 & H5 & H6).
  simpl in *. tauto.
Qed.

(** X6. Frames in which no gesture is detected do not restart the
    inactivity clock: while they arrive within
    [gesture_inactivity_timeout] of the last detection they leave the
    debounce state and standard output alone, and the first frame that
    arrives later than that stops the analysis. *)
Theorem idle_frames_do_not_restart_clock
    (s : VisionHandler) (before : list (Z * Frame)) (late : Z * Frame) :
  is_paused s = false ->
  Forall (idle_within config (last_gesture_time s)) before ->
  gesture_inactivity_timeout config < fst late - last_gesture_time s ->
  let s1 := run config (map frame_event before) s in
  last_gesture_time s1 = last_gesture_time s /\
  gesture_buffer s1 = gesture_buffer s /\
  is_vision_active s1 = is_vision_active s /\
  stdout s1 = stdout s /\
  is_vision_active (run config (map frame_event (before ++ [late])) s) = false.
Proof.
  intros Hp Hall Hlate.
  destruct (idle_run before s Hp Hall) as (Hp1 & Ht1 & Hb1 & Ha1 & _ & Ho1).
  cbv zeta. repeat (split; [assumption|]).
  rewrite map_app. unfold run in *. rewrite fold_left_app. simpl.
  unfold _frame_analysis_callback. rewrite Hp1, Ht1.
  apply Z.ltb_lt in Hlate. now rewrite Hlate.
Qed.

(** ** The newest result *)

(** X7. A frame that brings detections appends its result to the
    analysis history, dropping the oldest entry when the history already
    holds 20, so that [get_recent_analysis(1)] returns this result. *)
Theorem history_keeps_newest_last
    (current_time : Z) (frame : Frame) (s : VisionHandler) :
  is_paused s = false ->
  current_time - last_gesture_time s <= gesture_inactivity_timeout config ->
  detections config s frame <> [] ->
  (length (analysis_results s) <= 20)%nat ->
  let s' := _frame_analysis_callback config current_time frame s in
  analysis_results s' =
    ((if (length (analysis_results s) <? 20)%nat
      then analysis_results s else tail (analysis_results s))
     ++ [result_of config s current_time frame])%list /\
  get_recent_analysis 1 s' = [result_of config s current_time frame].
Proof.
  intros Hp Hle Hdet Hlen.
  assert (Ht : (gesture_inactivity_timeout config <? current_time - last_gesture_time s)
               = false) by (apply Z.ltb_ge; lia).
  destruct (callback_processing current_time frame s Hp Ht Hdet)
    as (s1 & Heq & _ & _ & _ & _ & Hres & _).
  destruct (check_fields s1) as (_ & _ & Hres1 & _).
  cbv zeta. rewrite Heq, Hres1, Hres. clear Heq.
  set (r := result_of config s current_time frame).
  assert (Hresults :
    analysis_results
      (limit_history
         (set_analysis_results (analysis_results s ++ [r])
            (_check_gesture_confirmation s1))) =
    ((if (length (analysis_results s) <? 20)%nat
      then analysis_results s else tail (analysis_results s)) ++ [r])%list).
  { unfold limit_history. cbn [analysis_results set_analysis_results].
    rewrite length_app. simpl.
    destruct (Nat.ltb_spec 20 (length (analysis_results s) + 1)) as [H1|H1];
      destruct (Nat.ltb_spec (length (analysis_results s)) 20) as [H2|H2];
      try lia; cbn [analysis_results set_analysis_results]; [|reflexivity].
    destruct (analysis_results s); simpl in *; [lia | reflexivity]. }
  split; [exact Hresults|].
  unfold get_recent_analysis. rewrite Hresults. simpl.
  set (l := if (length (analysis_results s) <? 20)%nat
            then analysis_results s else tail (analysis_results s)).
  rewrite length_app. simpl.
  replace (length l + 1 - Z.to_nat 1)%nat with (length l) by lia.
  apply drop_app_length.
Qed.

End EngineExtras.

Lemma confirmation_needs_three_recent_witness :
  is_paused two_palms = false /\
  is_Some (gesture_text_map !! "open_palm") /\
  (3 <= occurrences "open_palm"
          (List.filter (recent default_config 1300)
             (gesture_buffer two_palms
              ++ map (stamp 1300) (detected (seen "open_palm")))))%nat.
Proof.
  apply (confirmation_needs_three_recent default_config 1300 (seen "open_palm")
           two_palms "open_palm").
  vm_compute. left. reflexivity.
Defined.

Lemma idle_frames_do_not_restart_clock_witness :
  last_gesture_time (run default_config (map frame_event idle_frames) greeted) = 1300
  /\ is_vision_active (run default_config (map frame_event idle_frames) greeted) = true
  /\ is_vision_active
       (run default_config (map frame_event (idle_frames ++ [(8301, empty_frame)]))
          greeted) = false.
Proof.
  assert (Hp : is_paused greeted = false) by reflexivity.
  assert (Hall : Forall (idle_within default_config (last_gesture_time greeted))
                   idle_frames).
  { apply Forall_forall. intros tf Hin. apply list_elem_of_In in Hin.
    assert (Hb : forallb (idle_within_b default_config (last_gesture_time greeted))
                   idle_frames = true) by reflexivity.
    rewrite forallb_forall in Hb. specialize (Hb tf Hin).
    unfold idle_within_b, idle_within in *.
    destruct (detected (snd tf)); [|discriminate]. split; [reflexivity|].
    now apply Z.leb_le. }
  assert (Hlate : gesture_inactivity_timeout default_config
                  < fst (8301, empty_frame) - last_gesture_time greeted)
    by (vm_compute; reflexivity).
  destruct (idle_frames_do_not_restart_clock default_config greeted idle_frames
              (8301, empty_frame) Hp Hall Hlate) as (H1 & _ & H3 & _ & H5).
  split; [exact H1|]. split; [exact H3 | exact H5].
Defined.

Lemma history_keeps_newest_last_witness :
  get_recent_analysis 1
    (_frame_analysis_callback default_config 1300 (seen "open_palm") two_palms)
  = [result_of default_config two_palms 1300 (seen "open_palm")].
Proof.
  apply (history_keeps_newest_last default_config 1300 (seen "open_palm") two_palms).
  - reflexivity.
  - vm_compute. discriminate.
  - vm_compute. discriminate.
  - vm_compute. lia.
Defined.

End VisionExtras.

(** * Further facts about the voice activity segmenter *)
Module AudioExtras.
Import Audio AudioFacts AudioTerms.

Section SessionExtras.

Context (volume_threshold silence_threshold inactivity_timeout : Z)
        (np pyaudio : bool)
        (device_raises : DeviceCall -> bool).

Local Abbreviation stop_listening := (stop_listening device_raises).
Local Abbreviation start_listening := (start_listening np pyaudio device_raises).
Local Abbreviation resume_listening := (resume_listening np pyaudio device_raises).
Local Abbreviation recording_step :=
  (recording_step volume_threshold silence_threshold inactivity_timeout device_raises).
Local Abbreviation recording_worker :=
  (recording_worker volume_threshold silence_threshold inactivity_timeout device_raises).

(** ** Starting *)

(** X8. While a session is listening, [start_listening] and
    [resume_listening] change nothing: no second stream is opened, the
    frame buffer and [last_speech_time] are kept, and the status is not
    "started". *)
Theorem start_while_listening_changes_nothing (current_time : Z) (s : AudioHandler) :
  is_listening s = true ->
  (exists status,
     start_listening current_time s = (Returned status, s) /\
     status <> status_started) /\
  resume_listening current_time s = (Returned status_already_listening, s).
Proof.
  intros Hl. split.
  - unfold Audio.start_listening, bind, read_field, ret. rewrite Hl.
    destruct (negb (stt_enabled s) || negb (recognizer s));
      eexists; (split; [reflexivity | discriminate]).
  - unfold Audio.resume_listening, bind, read_field, ret. now rewrite Hl.
Qed.

(** X9. [start_listening] never raises.  From a session that is not
    listening it ends with the status "started" exactly when the
    session is listening afterwards; the stream is then open, the frame
    buffer empty and [last_speech_time] the start instant.  In every
    case it leaves the text queue and the recogniser's log alone. *)
Theorem start_listening_outcome (current_time : Z) (s : AudioHandler) :
  is_listening s = false ->
  exists status s',
    start_listening current_time s = (Returned status, s') /\
    (status = status_started <-> is_listening s' = true) /\
    (status = status_started ->
       audio_stream s' = true /\ audio_frames s' = [] /\
       last_speech_time s' = Some current_time) /\
    recognized_text_queue s' = recognized_text_queue s /\
    requests s' = requests s.
Proof.
  intros Hl.
  unfold Audio.start_listening, bind, read_field, ret, try_except, update, call_device.
  rewrite Hl.
  destruct (negb (stt_enabled s) || negb (recognizer s)); simpl.
  { exists status_error, s. rewrite Hl. repeat split; auto; discriminate. }
  destruct np; simpl.
  2:{ exists status_error, s. rewrite Hl. repeat split; auto; discriminate. }
  destruct pyaudio; simpl.
  2:{ exists status_error, s. rewrite Hl. repeat split; auto; discriminate. }
  destruct (device_raises CreatePyAudio); simpl.
  { do 2 eexists. split; [reflexivity|]. simpl. repeat split; auto; discriminate. }
  destruct (device_raises OpenStream); simpl.
  { do 2 eexists. split; [reflexivity|]. simpl. repeat split; auto; discriminate. }
  do 2 eexists. split; [reflexivity|]. simpl. repeat split; auto.
Qed.

(** ** Stopping *)

(** X10. [stop_listening] never raises, whatever the calls into PyAudio
    do; afterwards the session is not listening, the frame buffer, the
    text queue and the recogniser's log are as before, and a second
    [stop_listening] returns [None] and changes nothing. *)
Theorem stop_listening_never_raises (s : AudioHandler) :
  exists r s',
    stop_listening s = (Returned r, s') /\
    is_listening s' = false /\
    audio_frames s' = audio_frames s /\
    recognized_text_queue s' = recognized_text_queue s /\
    requests s' = requests s /\
    stop_listening s' = (Returned None, s').
Proof.
  destruct (is_listening s) eqn:Hl.
  - destruct (stop_listening_effect device_raises s) as (r & s' & Heq & Hs' & Hr & Hf & Hq).
    exists r, s'. specialize (Hs' Hl). repeat split; auto.
    now apply stop_listening_again.
  - exists None, s. rewrite (stop_listening_again device_raises s Hl). repeat split; auto.
Qed.

(** ** A failing stream *)

(** X11. When [audio_stream.read] raises, the recording thread reports
    the error and ends without stopping the session: [is_listening]
    stays true, no call into PyAudio releases the stream, and a later
    [resume_listening] answers "already_listening" without starting a
    new thread. *)
Theorem read_failure_leaves_session_listening
    (tk : Tick) (rest : list Tick) (l : Locals) (s : AudioHandler) (later : Z) :
  is_listening s = true -> read tk = None ->
  exists e s',
    recording_worker (tk :: rest) l s = (1%nat, Exited, s') /\
    stdout s' = (stdout s ++ [RecordingError e; RecordingFinished])%list /\
    is_listening s' = true /\
    audio_stream s' = audio_stream s /\ pyaudio_instance s' = pyaudio_instance s /\
    device s' = device s /\ audio_frames s' = audio_frames s /\
    resume_listening later s' = (Returned status_already_listening, s').
Proof.
  intros Hl Hread. cbn [Audio.recording_worker]. rewrite Hl. cbn [negb].
  unfold Audio.recording_step, Audio.loop_body, try_except, stream_read.
  unfold bind at 1. unfold bind at 1. unfold bind at 1. unfold read_field at 1.
  rewrite Hread.
  destruct (audio_stream s) eqn:Hs; cbn [raise update bind ret];
    do 2 eexists; (split; [reflexivity|]);
    cbn [stdout is_listening audio_stream pyaudio_instance device audio_frames print];
    rewrite <- ?app_assoc; repeat (split; [auto|]);
    unfold Audio.resume_listening, bind, read_field, ret; simpl; now rewrite Hl.
Qed.

End SessionExtras.

Lemma start_while_listening_changes_nothing_witness :
  (exists status,
     start_listening true true healthy 2000000 listening = (Returned status, listening)
     /\ status <> status_started)
  /\ resume_listening true true healthy 2000000 listening
     = (Returned status_already_listening, listening).
Proof.
  apply (start_while_listening_changes_nothing true true healthy 2000000 listening).
  reflexivity.
Defined.

Lemma start_listening_outcome_witness :
  exists status s',
    start_listening true true healthy 1000000
      (init true true on_text_recognized_callback) = (Returned status, s')
    /\ (status = status_started <-> is_listening s' = true)
    /\ (status = status_started ->
          audio_stream s' = true /\ audio_frames s' = [] /\
          last_speech_time s' = Some 1000000)
    /\ recognized_text_queue s' = []
    /\ requests s' = [].
Proof.
  apply (start_listening_outcome true true healthy 1000000
           (init true true on_text_recognized_callback)).
  reflexivity.
Defined.

Lemma read_failure_leaves_session_listening_witness :
  exists e s',
    recording_worker VOICE_VOLUME_THRESHOLD SILENCE_THRESHOLD INACTIVITY_TIMEOUT healthy
      [broken_turn] fresh_locals listening = (1%nat, Exited, s')
    /\ stdout s' = (stdout listening ++ [RecordingError e; RecordingFinished])%list
    /\ is_listening s' = true
    /\ audio_stream s' = audio_stream listening
    /\ pyaudio_instance s' = pyaudio_instance listening
    /\ device s' = device listening /\ audio_frames s' = audio_frames listening
    /\ resume_listening true true healthy 2000000 s'
       = (Returned status_already_listening, s').
Proof.
  apply (read_failure_leaves_session_listening
           VOICE_VOLUME_THRESHOLD SILENCE_THRESHOLD INACTIVITY_TIMEOUT true true healthy
           broken_turn [] fresh_locals listening 2000000); reflexivity.
Defined.

End AudioExtras.

(** * Facts about the request handlers *)
Module WebFacts.
Import Web.

(** ** Runs *)

Lemma no_run_tail (class : Z -> bool) (c : Z) (rest : Text) :
  no_run class (c :: rest) -> no_run class rest.
Proof. destruct rest; simpl; tauto. Qed.

Lemma no_run_cons (class : Z -> bool) (c : Z) (rest : Text) :
  (forall c', head rest = Some c' -> class c && class c' = false) ->
  no_run class rest -> no_run class (c :: rest).
Proof. destruct rest as [|c' rest]; simpl; auto. Qed.

Lemma no_run_suffix (class : Z -> bool) (gone kept : Text) :
  no_run class (gone ++ kept)%list -> no_run class kept.
Proof.
  induction gone as [|c gone IH]; [auto|]. intros H. apply IH.
  now apply no_run_tail in H.
Qed.

Lemma no_run_snoc (class : Z -> bool) (text : Text) (x : Z) :
  no_run class (text ++ [x])%list <->
  no_run class text /\ (forall y, last text = Some y -> class y && class x = false).
Proof.
  induction text as [|c text IH]; simpl.
  - split; [intros _; split; [exact I | discriminate] | auto].
  - destruct text as [|c' text]; simpl in *.
    + split.
      * intros [H _]. split; [exact I|]. intros y Hy. injection Hy as <-. exact H.
      * intros [_ H]. split; [now apply H | exact I].
    + rewrite IH. tauto.
Qed.

Lemma head_rev (l : Text) : head (rev l) = last l.
Proof.
  induction l as [|x l IH] using rev_ind; [reflexivity|].
  now rewrite rev_app_distr, last_snoc.
Qed.

Lemma last_rev (l : Text) : last (rev l) = head l.
Proof. rewrite <- (rev_involutive l) at 2. now rewrite head_rev. Qed.

Lemma no_run_rev (class : Z -> bool) (text : Text) :
  no_run class text -> no_run class (rev text).
Proof.
  induction text as [|c text IH]; [auto|]. intros H. simpl.
  apply no_run_snoc. split; [apply IH; now apply no_run_tail in H|].
  intros y Hy. rewrite last_rev in Hy.
  destruct text as [|c' text]; [discriminate|]. simpl in Hy. injection Hy as <-.
  simpl in H. destruct H as [H _]. now rewrite andb_comm.
Qed.

(** ** The substitutions *)

Lemma collapse_from_Forall (P : Z -> Prop) (class : Z -> bool) (r : Z) (text : Text) :
  P r -> Forall P text -> forall in_run, Forall P (collapse_from class r in_run text).
Proof.
  intros Hr. induction 1 as [|c rest Hc _ IH]; intros in_run; simpl; [constructor|].
  destruct (class c); [destruct in_run|]; auto.
Qed.

(** When the replacement is outside the class, nothing of the class is
    left. *)
Lemma collapse_from_clears (class : Z -> bool) (r : Z) (text : Text) :
  class r = false ->
  forall in_run, Forall (fun c => class c = false) (collapse_from class r in_run text).
Proof.
  intros Hr. induction text as [|c rest IH]; intros in_run; simpl; [constructor|].
  destruct (class c) eqn:Hc; [destruct in_run|]; auto.
Qed.

(** When the replacement is inside the class, it is the only character
    of the class that is left, and it never comes twice in a row. *)
Lemma collapse_from_only (class : Z -> bool) (r : Z) (text : Text) :
  forall in_run,
    Forall (fun c => class c = true -> c = r) (collapse_from class r in_run text).
Proof.
  induction text as [|c rest IH]; intros in_run; simpl; [constructor|].
  destruct (class c) eqn:Hc; [destruct in_run|]; auto.
  constructor; [congruence | auto].
Qed.

Lemma collapse_from_no_run (class : Z -> bool) (r : Z) (text : Text) :
  forall in_run,
    no_run class (collapse_from class r in_run text) /\
    (in_run = true ->
     forall c, head (collapse_from class r in_run text) = Some c -> class c = false).
Proof.
  induction text as [|c rest IH]; intros in_run; simpl.
  - split; [exact I | discriminate].
  - destruct (class c) eqn:Hc.
    + destruct in_run.
      * apply IH.
      * split; [|discriminate]. destruct (IH true) as [Hno Hhead].
        apply no_run_cons; [|exact Hno]. intros c' Hc'.
        rewrite (Hhead eq_refl c' Hc'). apply andb_false_r.
    + destruct (IH false) as [Hno _]. split.
      * apply no_run_cons; [|exact Hno]. intros c' _. now rewrite Hc.
      * intros _ c0 H. simpl in H. injection H as <-. exact Hc.
Qed.

(** A substitution keeps the text free of runs of another class the
    replacement is not in. *)
Lemma collapse_from_keeps_no_run (q class : Z -> bool) (r : Z) (text : Text) :
  q r = false -> no_run q text ->
  forall in_run, no_run q (collapse_from class r in_run text).
Proof.
  intros Hr. induction text as [|c rest IH]; intros Hno in_run; simpl; [exact I|].
  pose proof (no_run_tail _ _ _ Hno) as Hrest.
  destruct (class c) eqn:Hc.
  - destruct in_run; [now apply IH|].
    apply no_run_cons; [|now apply IH]. intros c' _. now rewrite Hr.
  - apply no_run_cons; [|now apply IH]. intros c' Hc'.
    destruct rest as [|x rest]; [discriminate|]. simpl in Hc'.
    destruct (class x).
    + injection Hc' as <-. rewrite Hr. apply andb_false_r.
    + injection Hc' as <-. simpl in Hno. apply Hno.
Qed.

(** On a text none of whose characters is in the class, a substitution
    does nothing. *)
Lemma remove_absent (class : Z -> bool) (text : Text) :
  Forall (fun c => class c = false) text -> remove class text = text.
Proof.
  unfold remove. induction 1 as [|c rest Hc _ IH]; simpl; [reflexivity|].
  now rewrite Hc, IH.
Qed.

Lemma collapse_from_absent (class : Z -> bool) (r : Z) (text : Text) :
  Forall (fun c => class c = false) text ->
  forall in_run, collapse_from class r in_run text = text.
Proof.
  induction 1 as [|c rest Hc _ IH]; intros in_run; simpl; [reflexivity|].
  now rewrite Hc, IH.
Qed.

(** On a text where the class only occurs as the replacement, never
    twice in a row, a substitution does nothing. *)
Lemma collapse_from_normal (class : Z -> bool) (r : Z) (text : Text) :
  Forall (fun c => class c = true -> c = r) text -> no_run class text ->
  collapse_from class r false text = text /\
  ((forall c, head text = Some c -> class c = false) ->
   collapse_from class r true text = text).
Proof.
  induction 1 as [|c rest Hc _ IH]; intros Hno; simpl; [auto|].
  pose proof (no_run_tail _ _ _ Hno) as Hrest.
  destruct (IH Hrest) as [IH1 IH2].
  destruct (class c) eqn:Hcl.
  - split.
    + rewrite (Hc eq_refl), IH2; [reflexivity|].
      intros c' Hc'. destruct rest as [|x rest]; [discriminate|].
      simpl in Hc'. injection Hc' as <-. simpl in Hno. destruct Hno as [Hno _].
      now rewrite Hcl in Hno.
    + intros Hh. specialize (Hh c eq_refl). congruence.
  - rewrite IH1. auto.
Qed.

(** ** [strip] *)

Lemma lstrip_suffix (text : Text) : exists gone, text = (gone ++ lstrip text)%list.
Proof.
  induction text as [|c rest [gone IH]]; simpl.
  - now exists [].
  - destruct (isspace c).
    + exists (c :: gone). simpl. now rewrite <- IH.
    + now exists [].
Qed.

Lemma lstrip_head (text : Text) (c : Z) :
  head (lstrip text) = Some c -> isspace c = false.
Proof.
  induction text as [|x rest IH]; simpl; [discriminate|].
  destruct (isspace x) eqn:Hx; [exact IH|].
  simpl. intros H. injection H as <-. exact Hx.
Qed.

Lemma lstrip_Forall (P : Z -> Prop) (text : Text) :
  Forall P text -> Forall P (lstrip text).
Proof.
  intros H. destruct (lstrip_suffix text) as [gone Heq].
  rewrite Heq in H. now apply Forall_app in H as [_ H].
Qed.

Lemma lstrip_no_run (class : Z -> bool) (text : Text) :
  no_run class text -> no_run class (lstrip text).
Proof.
  intros H. destruct (lstrip_suffix text) as [gone Heq].
  rewrite Heq in H. now apply no_run_suffix in H.
Qed.

Lemma lstrip_same (text : Text) :
  (forall c, head text = Some c -> isspace c = false) -> lstrip text = text.
Proof.
  destruct text as [|c rest]; [reflexivity|]. intros H. simpl.
  now rewrite (H c eq_refl).
Qed.

Lemma strip_Forall (P : Z -> Prop) (text : Text) :
  Forall P text -> Forall P (strip text).
Proof.
  intros H. unfold strip. apply Forall_rev, lstrip_Forall, Forall_rev.
  now apply lstrip_Forall.
Qed.

Lemma strip_no_run (class : Z -> bool) (text : Text) :
  no_run class text -> no_run class (strip text).
Proof.
  intros H. unfold strip.
  now apply no_run_rev, lstrip_no_run, no_run_rev, lstrip_no_run.
Qed.

(** [strip] leaves no blank character at either end. *)
Lemma strip_ends (text : Text) (c : Z) :
  head (strip text) = Some c \/ last (strip text) = Some c -> isspace c = false.
Proof.
  unfold strip. rewrite head_rev, last_rev. intros [H|H].
  - destruct (lstrip_suffix (rev (lstrip text))) as [gone Heq].
    assert (Hlast : last (rev (lstrip text)) = Some c).
    { rewrite Heq, last_app, H. reflexivity. }
    rewrite last_rev in Hlast. now apply lstrip_head in Hlast.
  - now apply lstrip_head in H.
Qed.

Lemma strip_same (text : Text) :
  (forall c, head text = Some c \/ last text = Some c -> isspace c = false) ->
  strip text = text.
Proof.
  intros H. unfold strip. rewrite (lstrip_same text) by (intros c Hc; apply H; auto).
  rewrite lstrip_same; [apply rev_involutive|].
  intros c Hc. rewrite head_rev in Hc. apply H. auto.
Qed.

(** ** The cleaned text *)

Lemma emoji_ranges_start (c : Z) : c < 9410 -> in_emoji_ranges c = false.
Proof.
  intros H. unfold in_emoji_ranges, emoji_ranges. cbn [existsb fst snd].
  repeat match goal with
         | |- context [?a <=? c] =>
             destruct (Z.leb_spec a c); [lia|]; cbn [andb orb]
         end.
  reflexivity.
Qed.

Lemma clean_plain (text : Text) : plain (clean text).
Proof.
  unfold clean, collapse.
  set (t1 := remove in_emoji_ranges text).
  set (t2 := collapse_from (Z.eqb 33) 46 false t1).
  set (t3 := collapse_from (Z.eqb 63) 63 false t2).
  set (t4 := collapse_from isspace 32 false t3).
  assert (H1 : Forall (fun c => in_emoji_ranges c = false) t1).
  { subst t1. unfold remove. apply Forall_forall. intros c Hc.
    apply list_elem_of_In, filter_In in Hc as [_ Hc]. now apply negb_true_iff. }
  assert (H2 : Forall (fun c => in_emoji_ranges c = false) t2)
    by (apply collapse_from_Forall; [reflexivity | exact H1]).
  assert (H2' : Forall (fun c => (33 =? c) = false) t2)
    by (apply collapse_from_clears; reflexivity).
  assert (H3 : Forall (fun c => in_emoji_ranges c = false) t3)
    by (apply collapse_from_Forall; [reflexivity | exact H2]).
  assert (H3' : Forall (fun c => (33 =? c) = false) t3)
    by (apply collapse_from_Forall; [reflexivity | exact H2']).
  assert (H4 : Forall (fun c => in_emoji_ranges c = false) t4)
    by (apply collapse_from_Forall; [reflexivity | exact H3]).
  assert (H4' : Forall (fun c => (33 =? c) = false) t4)
    by (apply collapse_from_Forall; [reflexivity | exact H3']).
  assert (H4s : Forall (fun c => isspace c = true -> c = 32) t4)
    by apply collapse_from_only.
  assert (Hq : no_run (Z.eqb 63) t4).
  { apply collapse_from_keeps_no_run; [reflexivity|].
    apply (collapse_from_no_run (Z.eqb 63) 63 t2 false). }
  assert (Hs : no_run isspace t4) by apply (collapse_from_no_run isspace 32 t3 false).
  unfold plain. split; [|split; [|split]].
  - apply strip_Forall. rewrite Forall_forall in *. intros c Hc.
    specialize (H4 c Hc). specialize (H4' c Hc). specialize (H4s c Hc).
    repeat split; auto. intros ->. discriminate.
  - now apply strip_no_run.
  - now apply strip_no_run.
  - apply strip_ends.
Qed.

(** A plain text goes through the cleaning unchanged. *)
Lemma clean_of_plain (text : Text) : plain text -> clean text = text.
Proof.
  intros (Hall & Hs & Hq & Hends). unfold clean, collapse.
  rewrite remove_absent
    by (eapply Forall_impl; [exact Hall | intros c (_ & H & _); exact H]).
  rewrite (collapse_from_absent (Z.eqb 33) 46 text).
  2:{ eapply Forall_impl; [exact Hall|]. intros c (H & _). cbv beta.
      destruct (Z.eqb_spec 33 c); congruence. }
  destruct (collapse_from_normal (Z.eqb 63) 63 text) as [-> _]; [|exact Hq|].
  { apply Forall_forall. intros c _ H. apply Z.eqb_eq in H. congruence. }
  destruct (collapse_from_normal isspace 32 text) as [-> _]; [|exact Hs|].
  { eapply Forall_impl; [exact Hall | intros c (_ & _ & H); exact H]. }
  now apply strip_same.
Qed.

(** X13. When [/api/tts/speak] hands a text to the speech engine, that
    text has no exclamation mark and no character of the emoji ranges,
    its only blank characters are single spaces between other
    characters, it has no two question marks in a row, and it is not
    empty. *)
Theorem spoken_text_is_plain (text spoken : Text) :
  speak_text text = speak_started spoken ->
  spoken = clean text /\ spoken <> [] /\ plain spoken.
Proof.
  unfold speak_text. destruct text as [|c0 text0]; [discriminate|].
  destruct (clean (c0 :: text0)) as [|c rest] eqn:Hclean; [discriminate|].
  intros H. injection H as <-. split; [reflexivity|]. split; [discriminate|].
  rewrite <- Hclean. apply clean_plain.
Qed.

(** X14. Cleaning a text a second time changes nothing. *)
Theorem clean_idempotent (text : Text) : clean (clean text) = clean text.
Proof. apply clean_of_plain, clean_plain. Qed.

(** X15. A text made only of code points from U+24C2 to U+1F251, which
    the last range of the emoji class covers (CJK ideographs, kana and
    Hangul among them), is never spoken: the handler answers
    "skipped". *)
Theorem ideographs_are_skipped (text : Text) :
  text <> [] ->
  Forall (fun c => 9410 <= c <= 127569) text ->
  speak_text text = speak_skipped.
Proof.
  intros Hne Hall.
  assert (Hrem : remove in_emoji_ranges text = []).
  { clear Hne. unfold remove. induction Hall as [|c rest Hc _ IH]; [reflexivity|].
    cbn [List.filter].
    assert (Hin : in_emoji_ranges c = true).
    { unfold in_emoji_ranges, emoji_ranges. apply existsb_exists.
      exists (9410, 127569). split; [simpl; tauto|]. simpl.
      apply andb_true_iff. split; apply Z.leb_le; lia. }
    rewrite Hin. exact IH. }
  unfold speak_text. destruct text as [|c0 text0]; [congruence|].
  unfold clean. rewrite Hrem. reflexivity.
Qed.

(** X16. A text of letters, digits and punctuation below U+24C2 without
    blank characters, exclamation marks and question marks reaches the
    speech engine as it is. *)
Theorem plain_words_are_kept (text : Text) :
  text <> [] ->
  Forall (fun c => c < 9410 /\ isspace c = false /\ c <> 33 /\ c <> 63) text ->
  speak_text text = speak_started text.
Proof.
  intros Hne Hall.
  assert (Hplain : plain text).
  { unfold plain. split; [|split; [|split]].
    - eapply Forall_impl; [exact Hall|]. intros c (H1 & H2 & H3 & _).
      split; [exact H3|]. split; [now apply emoji_ranges_start | congruence].
    - clear Hne. induction Hall as [|c rest (_ & Hc & _) _ IH]; [exact I|].
      apply no_run_cons; [|exact IH]. intros c' _. now rewrite Hc.
    - clear Hne. induction Hall as [|c rest (_ & _ & _ & Hc) _ IH]; [exact I|].
      apply no_run_cons; [|exact IH]. intros c' _.
      destruct (Z.eqb_spec 63 c); [congruence | reflexivity].
    - intros c Hc. rewrite Forall_forall in Hall.
      assert (Hin : c ∈ text).
      { destruct Hc as [Hc|Hc].
        - destruct text; [discriminate|]. injection Hc as <-. left.
        - apply last_Some in Hc as [l' ->]. apply elem_of_app. right. left. }
      now destruct (Hall c Hin) as (_ & H & _). }
  unfold speak_text. destruct text as [|c0 text0]; [congruence|].
  rewrite (clean_of_plain _ Hplain). reflexivity.
Qed.

Lemma spoken_text_is_plain_witness :
  [1044; 1072; 46; 32; 1053; 1077; 1090; 63] = clean noisy_text /\
  [1044; 1072; 46; 32; 1053; 1077; 1090; 63] <> [] /\
  plain [1044; 1072; 46; 32; 1053; 1077; 1090; 63].
Proof.
  apply (spoken_text_is_plain noisy_text [1044; 1072; 46; 32; 1053; 1077; 1090; 63]).
  reflexivity.
Defined.

Lemma ideographs_are_skipped_witness : speak_text chinese_text = speak_skipped.
Proof.
  apply (ideographs_are_skipped chinese_text); [discriminate|].
  repeat constructor; lia.
Defined.

Lemma plain_words_are_kept_witness :
  speak_text [1055; 1088; 1080; 1074; 1077; 1090]
  = speak_started [1055; 1088; 1080; 1074; 1077; 1090].
Proof.
  apply (plain_words_are_kept [1055; 1088; 1080; 1074; 1077; 1090]); [discriminate|].
  repeat constructor; try lia; discriminate.
Defined.

(** ** Streaming the answer *)

Lemma split_from_nonempty (text : Text) : forall piece, split_from piece text <> [].
Proof.
  induction text as [|c rest IH]; intros piece; simpl; [discriminate|].
  destruct rest as [|c' rest']; [discriminate|].
  destruct ((c =? 46) && (c' =? 32)); [discriminate | apply IH].
Qed.

Lemma split_from_step (piece : Text) (c c' : Z) (rest' : Text) :
  split_from piece (c :: c' :: rest')
  = if (c =? 46) && (c' =? 32) then piece :: split_from [] rest'
    else split_from (piece ++ [c])%list (c' :: rest').
Proof. reflexivity. Qed.

Lemma join_cons (piece : Text) (rest : list Text) :
  rest <> [] -> join (piece :: rest) = (piece ++ [46; 32] ++ join rest)%list.
Proof. destruct rest; [congruence | reflexivity]. Qed.

(** Joining the pieces of [split] with the separator gives the text
    back. *)
Lemma join_split_from (n : nat) : forall text piece,
  (length text <= n)%nat -> join (split_from piece text) = (piece ++ text)%list.
Proof.
  induction n as [|n IH]; intros text piece Hlen.
  - destruct text; [simpl; now rewrite app_nil_r | simpl in Hlen; lia].
  - destruct text as [|c rest]; [simpl; now rewrite app_nil_r|].
    destruct rest as [|c' rest']; [reflexivity|].
    rewrite split_from_step.
    destruct ((c =? 46) && (c' =? 32)) eqn:Hsep.
    + apply andb_true_iff in Hsep as [Hc Hc'].
      apply Z.eqb_eq in Hc, Hc'. subst c c'.
      rewrite join_cons by apply split_from_nonempty.
      rewrite (IH rest' []) by (cbn [length] in Hlen; lia). reflexivity.
    + rewrite (IH (c' :: rest') (piece ++ [c])%list) by (cbn [length] in Hlen |- *; lia).
      now rewrite <- app_assoc.
Qed.

Lemma answers_app (a b : list Sse) : answers (a ++ b) = (answers a ++ answers b)%list.
Proof.
  induction a as [|[content|content|] a IH]; simpl; [reflexivity | exact IH | | exact IH].
  now rewrite IH.
Qed.

Lemma is_prefix_refl (a : Text) : is_prefix a a.
Proof. exists []. now rewrite app_nil_r. Qed.

Lemma is_prefix_trans (a b c : Text) : is_prefix a b -> is_prefix b c -> is_prefix a c.
Proof. intros [x ->] [y ->]. exists (x ++ y)%list. now rewrite app_assoc. Qed.

Lemma is_prefix_app (a b : Text) : is_prefix a (a ++ b)%list.
Proof. now exists b. Qed.

(** Every content sent starts with what was accumulated before, and
    each one starts with the one before it. *)
Lemma stream_sentences_growing (total : nat) (sentences : list Text) :
  forall i accumulated,
    growing (answers (stream_sentences total i accumulated sentences)) /\
    forall first,
      head (answers (stream_sentences total i accumulated sentences)) = Some first ->
      is_prefix accumulated first.
Proof.
  induction sentences as [|sentence rest IH]; intros i accumulated; simpl.
  - split; [exact I | discriminate].
  - destruct (blank sentence); simpl; [apply IH|].
    set (acc' := if (i <? total - 1)%nat
                 then ((accumulated ++ sentence) ++ [46; 32])%list
                 else (accumulated ++ sentence)%list).
    assert (Hacc : is_prefix accumulated acc').
    { subst acc'. destruct (i <? total - 1)%nat.
      - rewrite <- app_assoc. apply is_prefix_app.
      - apply is_prefix_app. }
    destruct (IH (S i) acc') as [Hgrow Hhead]. split.
    + destruct (answers (stream_sentences total (S i) acc' rest)) as [|b more] eqn:Hrest;
        [exact I|].
      split; [now apply Hhead | exact Hgrow].
    + intros first H. injection H as <-. exact Hacc.
Qed.

(** When no sentence is blank, the last content sent is everything
    accumulated before followed by the sentences joined again. *)
Lemma stream_sentences_last (total : nat) (sentences : list Text) :
  forall i accumulated,
    total = (i + length sentences)%nat -> sentences <> [] ->
    Forall (fun sentence => blank sentence = false) sentences ->
    last (answers (stream_sentences total i accumulated sentences))
    = Some (accumulated ++ join sentences)%list.
Proof.
  induction sentences as [|sentence rest IH]; intros i accumulated Htotal Hne Hall;
    [congruence|].
  inversion Hall as [|? ? Hb Hrest]; subst. cbn [stream_sentences]. rewrite Hb.
  cbn [negb answers]. destruct rest as [|next rest].
  - assert (Hi : (i <? (i + length [sentence]) - 1)%nat = false)
      by (apply Nat.ltb_ge; simpl; lia).
    rewrite Hi. reflexivity.
  - assert (Hi : (i <? (i + length (sentence :: next :: rest)) - 1)%nat = true)
      by (apply Nat.ltb_lt; simpl; lia).
    rewrite Hi.
    specialize (IH (S i) ((accumulated ++ sentence) ++ [46; 32])%list).
    rewrite last_cons, IH; [|simpl; lia | discriminate | exact Hrest].
    rewrite (join_cons sentence (next :: rest)) by discriminate.
    now rewrite <- !app_assoc.
Qed.

(** X17. The [answer] events of a streamed response grow: the content of
    each one starts with the content of the one before, so a client may
    replace what it shows by the newest content.  The stream always
    ends with the [done] event, and a [thinking] event, if there is one,
    comes before every answer. *)
Theorem streamed_answers_grow (thinking_content final_answer : Text) :
  growing (answers (stream thinking_content final_answer)) /\
  last (stream thinking_content final_answer) = Some Done /\
  exists contents,
    stream thinking_content final_answer
    = ((match thinking_content with [] => [] | _ :: _ => [Thinking thinking_content] end)
       ++ map Answer contents ++ [Done])%list.
Proof.
  unfold stream.
  set (sentences := split_sentences final_answer).
  set (events := stream_sentences (length sentences) 0 [] sentences).
  assert (Hshape : events = map Answer (answers events)).
  { subst events. generalize (length sentences) 0%nat (@nil Z).
    induction sentences as [|sentence rest IH]; intros total i accumulated; simpl;
      [reflexivity|].
    destruct (blank sentence); simpl; [apply IH|]. f_equal. apply IH. }
  split; [|split].
  - rewrite !answers_app.
    replace (answers (match thinking_content with [] => [] | _ :: _ => _ end)) with (@nil Text)
      by now destruct thinking_content.
    simpl. rewrite app_nil_r.
    apply (stream_sentences_growing (length sentences) sentences 0%nat []).
  - rewrite app_assoc. apply last_snoc.
  - exists (answers events). rewrite <- Hshape.
    now destruct thinking_content.
Qed.

(** X18. When no piece of the answer between two ". " separators is
    blank, the last [answer] event carries the whole answer, character
    for character. *)
Theorem streamed_answer_is_complete (thinking_content final_answer : Text) :
  Forall (fun sentence => blank sentence = false) (split_sentences final_answer) ->
  last (answers (stream thinking_content final_answer)) = Some final_answer.
Proof.
  intros Hall. unfold stream. rewrite !answers_app.
  replace (answers (match thinking_content with [] => [] | _ :: _ => _ end)) with (@nil Text)
    by now destruct thinking_content.
  simpl. rewrite app_nil_r.
  rewrite (stream_sentences_last _ _ 0%nat []);
    [| reflexivity | apply split_from_nonempty | exact Hall].
  unfold split_sentences. now rewrite (join_split_from (length final_answer)).
Qed.

Lemma streamed_answer_is_complete_witness :
  last (answers (stream [] three_sentences)) = Some three_sentences.
Proof.
  apply (streamed_answer_is_complete [] three_sentences).
  repeat constructor.
Defined.

(** ** Polling for recognised text *)

Lemma set_queue_same (s : Audio.AudioHandler) :
  Audio.set_recognized_text_queue (Audio.recognized_text_queue s) s = s.
Proof. now destruct s. Qed.

Lemma set_queue_twice (a b : list string) (s : Audio.AudioHandler) :
  Audio.set_recognized_text_queue a (Audio.set_recognized_text_queue b s)
  = Audio.set_recognized_text_queue a s.
Proof. reflexivity. Qed.

(** X19. While the session is listening, polls hand out the queued texts
    oldest first, each one once, and answer "no_text" from then on. *)
Theorem polls_deliver_in_order (n : nat) (s : Audio.AudioHandler) :
  Audio.is_listening s = true ->
  polls n s =
  ((map poll_text_available (take n (Audio.recognized_text_queue s))
    ++ replicate (n - length (Audio.recognized_text_queue s)) poll_no_text)%list,
   Audio.set_recognized_text_queue (drop n (Audio.recognized_text_queue s)) s).
Proof.
  revert s. induction n as [|n IH]; intros s Hl.
  - simpl. now rewrite drop_0, set_queue_same.
  - cbn [polls]. unfold get_recognized_text. rewrite Hl. cbn [negb].
    destruct (Audio.recognized_text_queue s) as [|text rest] eqn:Hq.
    + rewrite (IH s Hl), Hq. simpl. rewrite !drop_nil, take_nil, Nat.sub_0_r. reflexivity.
    + rewrite (IH (Audio.set_recognized_text_queue rest s) Hl). reflexivity.
Qed.

Section PollFacts.

Context (np pyaudio : bool) (device_raises : Audio.DeviceCall -> bool).

(** X20. Once the session has stopped, polls answer "stopped" and leave
    the queue alone, so a text recognised but not yet polled is
    withheld; [start_listening] does not empty the queue, and the first
    poll of the next session hands that text out. *)
Theorem stopped_session_withholds_text (n : nat) (s : Audio.AudioHandler) :
  Audio.is_listening s = false ->
  polls n s = (replicate n poll_stopped, s) /\
  forall current_time s' text rest,
    Audio.recognized_text_queue s = text :: rest ->
    Audio.start_listening np pyaudio device_raises current_time s
    = (Audio.Returned Audio.status_started, s') ->
    fst (get_recognized_text s') = poll_text_available text.
Proof.
  intros Hl. split.
  - induction n as [|n IH]; [reflexivity|].
    cbn [polls]. unfold get_recognized_text. rewrite Hl. cbn [negb].
    now rewrite IH.
  - intros current_time s' text rest Hq.
    unfold Audio.start_listening, Audio.bind, Audio.read_field, Audio.ret,
      Audio.try_except, Audio.update, Audio.call_device.
    rewrite Hl.
    destruct (Audio.stt_enabled s), (Audio.recognizer s); simpl; try discriminate.
    destruct np; simpl; [|discriminate].
    destruct pyaudio; simpl; [|discriminate].
    destruct (device_raises Audio.CreatePyAudio); simpl; [discriminate|].
    destruct (device_raises Audio.OpenStream); simpl; [discriminate|].
    intros H. injection H as <-. unfold get_recognized_text. simpl. now rewrite Hq.
Qed.

End PollFacts.

Lemma polls_deliver_in_order_witness :
  polls 3 two_queued =
  ((map poll_text_available (take 3 (Audio.recognized_text_queue two_queued))
    ++ replicate (3 - length (Audio.recognized_text_queue two_queued)) poll_no_text)%list,
   Audio.set_recognized_text_queue (drop 3 (Audio.recognized_text_queue two_queued))
     two_queued).
Proof. apply (polls_deliver_in_order 3 two_queued). reflexivity. Defined.

Lemma stopped_session_withholds_text_witness :
  polls 2 stopped_with_text = (replicate 2 poll_stopped, stopped_with_text) /\
  forall current_time s' text rest,
    Audio.recognized_text_queue stopped_with_text = text :: rest ->
    Audio.start_listening true true Audio.healthy current_time stopped_with_text
    = (Audio.Returned Audio.status_started, s') ->
    fst (get_recognized_text s') = poll_text_available text.
Proof.
  apply (stopped_session_withholds_text true true Audio.healthy 2 stopped_with_text).
  reflexivity.
Defined.

End WebFacts.

(** * Facts about the conversation history *)
Module HistoryFacts.
Import History.

Lemma filter_system_others (messages : list Message) :
  Forall (fun msg => is_system msg = false) messages ->
  List.filter is_system messages = [] /\ List.filter not_system messages = messages.
Proof.
  induction 1 as [|msg rest Hm _ [IH1 IH2]]; simpl; [auto|].
  unfold not_system at 1. rewrite Hm. simpl. now rewrite IH1, IH2.
Qed.

Lemma filter_system_system (messages : list Message) :
  List.filter is_system (List.filter is_system messages) = List.filter is_system messages /\
  List.filter not_system (List.filter is_system messages) = [].
Proof.
  induction messages as [|msg rest [IH1 IH2]]; simpl; [auto|].
  destruct (is_system msg) eqn:Hm; simpl; [|auto].
  unfold not_system at 1. rewrite Hm. simpl. now rewrite IH1, IH2.
Qed.

Lemma others_not_system (messages : list Message) :
  Forall (fun msg => is_system msg = false) (List.filter not_system messages).
Proof.
  apply Forall_forall. intros msg H. apply list_elem_of_In, filter_In in H as [_ H].
  unfold not_system in H. now apply negb_true_iff.
Qed.

Section TrimFacts.

Context {Total : Type} (zero : Total) (charge : Total -> Message -> option Total).

Local Abbreviation keep_newest := (keep_newest charge).
Local Abbreviation trim := (_trim_conversation_history zero charge).

(** The loop keeps an initial part of the messages it walks, and walking
    that part alone keeps all of it. *)
Lemma keep_newest_taken (newest_first : list Message) : forall total kept_messages,
  exists taken older,
    newest_first = (taken ++ older)%list /\
    keep_newest total newest_first kept_messages = (rev taken ++ kept_messages)%list /\
    keep_newest total taken kept_messages = (rev taken ++ kept_messages)%list.
Proof.
  induction newest_first as [|message rest IH]; intros total kept_messages.
  - exists [], []. auto.
  - simpl. destruct (charge total message) as [total'|] eqn:Hc.
    + destruct (IH total' (message :: kept_messages)) as (taken & older & -> & H1 & H2).
      exists (message :: taken), older. simpl. rewrite Hc, H1, H2, <- !app_assoc. auto.
    + exists [], (message :: rest). auto.
Qed.

Lemma trim_shape (conversation_history : list Message) :
  exists dropped kept,
    List.filter not_system conversation_history = (dropped ++ kept)%list /\
    trim true conversation_history
    = (List.filter is_system conversation_history ++ kept)%list /\
    keep_newest zero (rev kept) [] = kept.
Proof.
  destruct (keep_newest_taken (rev (List.filter not_system conversation_history)) zero [])
    as (taken & older & Hsplit & Hkeep & Hagain).
  exists (rev older), (rev taken).
  rewrite app_nil_r in Hkeep, Hagain. split; [|split].
  - rewrite <- rev_app_distr, <- Hsplit. now rewrite rev_involutive.
  - destruct conversation_history as [|msg rest]; [|unfold trim; simpl negb; cbv iota].
    + simpl in Hsplit. symmetry in Hsplit. apply app_eq_nil in Hsplit as [-> _].
      reflexivity.
    + now rewrite Hkeep.
  - now rewrite rev_involutive.
Qed.

(** X21. Trimming keeps every system message, in order and in front, and
    behind them a final part of the other messages in their order: the
    ones it removes are the oldest, and no message is added or
    reordered among the others. *)
Theorem trim_keeps_system_and_newest (conversation_history : list Message) :
  exists dropped kept,
    List.filter not_system conversation_history = (dropped ++ kept)%list /\
    trim true conversation_history
    = (List.filter is_system conversation_history ++ kept)%list.
Proof.
  destruct (trim_shape conversation_history) as (dropped & kept & H1 & H2 & _).
  now exists dropped, kept.
Qed.

(** X22. Trimming a trimmed history changes nothing, whether the model
    is loaded or not. *)
Theorem trim_idempotent (llama : bool) (conversation_history : list Message) :
  trim llama (trim llama conversation_history) = trim llama conversation_history.
Proof.
  destruct llama.
  2:{ unfold _trim_conversation_history. simpl.
      destruct conversation_history; reflexivity. }
  destruct (trim_shape conversation_history) as (dropped & kept & Hsplit & -> & Hkeep).
  assert (Hkept : Forall (fun msg => is_system msg = false) kept).
  { pose proof (others_not_system conversation_history) as H.
    rewrite Hsplit in H. now apply Forall_app in H as [_ H]. }
  destruct (filter_system_others kept Hkept) as [Hk1 Hk2].
  destruct (filter_system_system conversation_history) as [Hs1 Hs2].
  set (system_messages := List.filter is_system conversation_history) in *.
  unfold _trim_conversation_history.
  destruct (system_messages ++ kept)%list as [|msg rest] eqn:Hall; [reflexivity|].
  rewrite <- Hall. simpl negb. cbv iota.
  rewrite !List.filter_app, Hs1, Hs2, Hk1, Hk2, app_nil_r. simpl.
  now rewrite Hkeep.
Qed.

End TrimFacts.

(** ** The token budget *)

Lemma keep_newest_budget (message_tokens : Message -> nat) (max_history_tokens : Z)
    (newest_first : list Message) : forall total kept_messages,
  exists taken older,
    newest_first = (taken ++ older)%list /\
    keep_newest (charge_tokens message_tokens max_history_tokens) total newest_first
      kept_messages = (rev taken ++ kept_messages)%list /\
    (taken <> [] -> total + tokens_of message_tokens taken <= max_history_tokens) /\
    forall message, head older = Some message ->
      max_history_tokens
      < total + tokens_of message_tokens taken + Z.of_nat (message_tokens message).
Proof.
  induction newest_first as [|message rest IH]; intros total kept_messages.
  - exists [], []. repeat split; auto; [congruence | discriminate].
  - simpl. unfold charge_tokens at 1.
    destruct (Z.leb_spec (total + Z.of_nat (message_tokens message)) max_history_tokens)
      as [Hfit|Hover].
    + destruct (IH (total + Z.of_nat (message_tokens message)) (message :: kept_messages))
        as (taken & older & -> & Hkeep & Hsum & Hnext).
      exists (message :: taken), older. simpl. rewrite Hkeep, <- !app_assoc.
      repeat split; auto.
      * intros _. destruct taken as [|m taken]; [simpl; lia|].
        specialize (Hsum ltac:(discriminate)). lia.
      * intros m Hm. specialize (Hnext m Hm). lia.
    + exists [], (message :: rest). simpl. repeat split; auto; [congruence|].
      intros m Hm. injection Hm as <-. lia.
Qed.

Lemma tokens_of_rev (message_tokens : Message -> nat) (messages : list Message) :
  tokens_of message_tokens (rev messages) = tokens_of message_tokens messages.
Proof.
  unfold tokens_of. induction messages as [|m rest IH]; [reflexivity|].
  simpl. rewrite fold_right_app. simpl. rewrite <- IH.
  generalize (rev rest). intros l. induction l as [|x l IHl]; simpl; lia.
Qed.

(** X23. While the tokenizer answers, the messages kept besides the
    system messages hold at most [max_history_tokens] tokens together,
    and as many of the newest are kept as fit: the newest removed
    message would take the total over the limit. *)
Theorem trim_respects_budget (message_tokens : Message -> nat) (max_history_tokens : Z)
    (conversation_history : list Message) :
  exists dropped kept,
    List.filter not_system conversation_history = (dropped ++ kept)%list /\
    _trim_conversation_history 0 (charge_tokens message_tokens max_history_tokens)
      true conversation_history
    = (List.filter is_system conversation_history ++ kept)%list /\
    (kept <> [] -> tokens_of message_tokens kept <= max_history_tokens) /\
    forall message, last dropped = Some message ->
      max_history_tokens
      < tokens_of message_tokens kept + Z.of_nat (message_tokens message).
Proof.
  destruct (keep_newest_budget message_tokens max_history_tokens
              (rev (List.filter not_system conversation_history)) 0 [])
    as (taken & older & Hsplit & Hkeep & Hsum & Hnext).
  exists (rev older), (rev taken). rewrite app_nil_r in Hkeep.
  split; [|split; [|split]].
  - rewrite <- rev_app_distr, <- Hsplit. now rewrite rev_involutive.
  - destruct conversation_history as [|msg rest].
    + simpl in Hsplit. symmetry in Hsplit. apply app_eq_nil in Hsplit as [-> _].
      reflexivity.
    + unfold _trim_conversation_history. simpl negb. cbv iota. now rewrite Hkeep.
  - intros Hne. rewrite tokens_of_rev.
    assert (Ht : taken <> []) by (intros ->; now apply Hne).
    specialize (Hsum Ht). lia.
  - intros message Hlast. rewrite tokens_of_rev.
    assert (Hhead : head older = Some message).
    { rewrite <- (rev_involutive older). destruct (rev older) as [|x l] using rev_ind;
        [discriminate|].
      rewrite last_snoc in Hlast. injection Hlast as ->.
      now rewrite rev_app_distr. }
    specialize (Hnext message Hhead). lia.
Qed.

(** X24. A message that is not a system message and alone holds more
    tokens than [max_history_tokens] is not kept when it is added, and
    every older message goes with it: only the system messages are
    left, as after [clear_history]. *)
Theorem oversized_message_empties_history (message_tokens : Message -> nat)
    (max_history_tokens : Z) (role content : string)
    (conversation_history : list Message) :
  role <> "system" ->
  max_history_tokens
  < Z.of_nat (message_tokens {| History.role := role; History.content := content |}) ->
  add_to_history 0 (charge_tokens message_tokens max_history_tokens) true role content
    conversation_history
  = clear_history conversation_history.
Proof.
  intros Hrole Hover. unfold add_to_history, _trim_conversation_history, clear_history.
  destruct (conversation_history ++ _)%list as [|msg rest] eqn:Hall.
  { now apply app_eq_nil in Hall as [_ Hall]. }
  rewrite <- Hall. simpl negb. cbv iota.
  assert (Hsys : is_system {| History.role := role; History.content := content |} = false).
  { unfold is_system. simpl. now apply String.eqb_neq. }
  rewrite !List.filter_app. simpl. unfold not_system at 2. rewrite Hsys. simpl.
  rewrite rev_app_distr. simpl. unfold charge_tokens at 1.
  destruct (Z.leb_spec (0 + Z.of_nat (message_tokens {| History.role := role; History.content := content |}))
              max_history_tokens) as [Hfit|_]; [lia|].
  now rewrite !app_nil_r.
Qed.

Lemma oversized_message_empties_history_witness :
  add_to_history 0 (charge_tokens one_per_character 5) true "user" "dddddd" dialogue
  = clear_history dialogue.
Proof.
  apply (oversized_message_empties_history one_per_character 5 "user" "dddddd" dialogue).
  - discriminate.
  - vm_compute. reflexivity.
Defined.

End HistoryFacts.
